(** * ClaudeSDK agent: plan validation, plan normalisation and execution

    A shallow embedding of [src/agent/types.ts], [src/agent/policy.ts] and
    [src/agent/claudeAgent.ts], with the theorems that settle the
    specification's claims about them.

    Conventions of the embedding.
    - A JavaScript string is a [string]; one character of the model stands
      for one UTF-16 code unit in the range 0..255.
    - A [bigint] is a [Z]; an integer-valued [number] is a [Z] as well.
    - An optional field [f?: T] is an [option T]; [None] is [undefined].
    - A call that may throw returns a [Result]; asynchronous calls are
      awaited one after the other in the source, so a promise is modelled
      by the value it settles to: [Ok v] when it resolves with [v],
      [Throw e] when it rejects with [e]. *)

From Stdlib Require Import ZArith List String Ascii Bool Lia.
From Stdlib Require Import DecimalString DecimalNat DecimalPos.
From Stdlib Require Import Sorted.
Import ListNotations.
Open Scope string_scope.
Open Scope Z_scope.

Set Implicit Arguments.

(** ** Thrown values and results *)

(** A thrown JavaScript error object: its [name] and its [message]. *)
Record JsError : Type := mkJsError { err_name : string; err_message : string }.

(** [new Error(msg)]. *)
Definition Error (msg : string) : JsError := mkJsError "Error" msg.

(** The [SyntaxError] raised by a built-in that parses text. *)
Definition SyntaxError (msg : string) : JsError := mkJsError "SyntaxError" msg.

(** The [TypeError] raised by a built-in on a value it cannot handle. *)
Definition TypeError (msg : string) : JsError := mkJsError "TypeError" msg.

Inductive Result (A : Type) : Type :=
| Ok (v : A)
| Throw (e : JsError).
Arguments Ok {A} v.
Arguments Throw {A} e.

(** ** The string built-ins the source uses *)

Module JsString.

(** WhiteSpace and LineTerminator code units below 256: TAB, LF, VT, FF,
    CR, SP and NBSP.  Both [String.prototype.trim] and the StrWhiteSpace
    of [BigInt(string)] use this set. *)
Definition isWhiteSpace (c : ascii) : bool :=
  let n := nat_of_ascii c in
  (Nat.leb 9 n && Nat.leb n 13) || Nat.eqb n 32 || Nat.eqb n 160.

Fixpoint trimStart (s : string) : string :=
  match s with
  | String c s' => if isWhiteSpace c then trimStart s' else s
  | EmptyString => EmptyString
  end.

(** Drops the trailing white space: a character is kept when it is not
    white space or when something is kept after it. *)
Fixpoint trimEnd (s : string) : string :=
  match s with
  | EmptyString => EmptyString
  | String c s' =>
      match trimEnd s' with
      | EmptyString => if isWhiteSpace c then EmptyString else String c EmptyString
      | t => String c t
      end
  end.

(** [s.trim()] *)
Definition trim (s : string) : string := trimEnd (trimStart s).

(** [`${i}`] for an array index [i]. *)
Definition ofNat (i : nat) : string := NilZero.string_of_uint (Nat.to_uint i).

(** [parts.join(sep)] *)
Definition join (sep : string) (parts : list string) : string :=
  String.concat sep parts.

End JsString.

(** ** [BigInt(string)]

    The built-in applies StringToBigInt: surrounding white space is
    dropped; the empty text is [0n]; the rest must be a StrIntegerLiteral,
    that is decimal digits with an optional sign, or an unsigned [0x], [0o]
    or [0b] literal.  Anything else makes [BigInt] throw a [SyntaxError];
    its message is the one Node.js gives. *)

Module JsBigInt.

(** Value of a digit character in base 16 at most. *)
Definition digitValue (c : ascii) : option Z :=
  let n := Z.of_nat (nat_of_ascii c) in
  if (48 <=? n) && (n <=? 57) then Some (n - 48)
  else if (97 <=? n) && (n <=? 102) then Some (n - 87)
  else if (65 <=? n) && (n <=? 70) then Some (n - 55)
  else None.

(** Reads the remaining digits of a literal in base [radix], [acc] being
    the value read so far; [None] when a character is not a digit of
    that base. *)
Fixpoint digitsFrom (radix acc : Z) (s : string) : option Z :=
  match s with
  | EmptyString => Some acc
  | String c s' =>
      match digitValue c with
      | Some d => if d <? radix then digitsFrom radix (acc * radix + d) s' else None
      | None => None
      end
  end.

(** One digit at least. *)
Definition digits (radix : Z) (s : string) : option Z :=
  match s with
  | EmptyString => None
  | _ => digitsFrom radix 0 s
  end.

(** StrIntegerLiteral, on text without surrounding white space. *)
Definition strIntegerLiteral (s : string) : option Z :=
  match s with
  | String "0" (String ("x" | "X") ds) => digits 16 ds
  | String "0" (String ("o" | "O") ds) => digits 8 ds
  | String "0" (String ("b" | "B") ds) => digits 2 ds
  | String "+" ds => digits 10 ds
  | String "-" ds => option_map Z.opp (digits 10 ds)
  | _ => digits 10 s
  end.

Definition stringToBigInt (s : string) : option Z :=
  match JsString.trim s with
  | EmptyString => Some 0
  | t => strIntegerLiteral t
  end.

(** [BigInt(s)] for a string [s]. *)
Definition BigInt (s : string) : Result Z :=
  match stringToBigInt s with
  | Some n => Ok n
  | None => Throw (SyntaxError ("Cannot convert " ++ s ++ " to a BigInt"))
  end.

End JsBigInt.
Import JsBigInt.

(** ** [src/agent/types.ts] *)

Inductive JupiterSwapMode : Type := ExactIn | ExactOut.

(** [AgentAction], a union discriminated by its [type] field. *)
Inductive AgentAction : Type :=
| Noop (reason : option string)
| TransferSol (to : string) (lamports : string)
| SwapJupiter (inputMint outputMint : string) (amount : string)
              (slippageBps : option Z) (swapMode : option JupiterSwapMode).

Record AgentPlan : Type := mkAgentPlan {
  goal : string;
  summary : option string;
  actions : list AgentAction
}.

(** ** [src/agent/policy.ts] *)

Record AgentPolicy : Type := mkAgentPolicy {
  allowedRecipients : option (list string);
  allowAllTransfers : option bool;
  maxTransferLamports : option Z;
  allowedMints : option (list string);
  allowAllSwaps : option bool;
  maxSwapAmount : option Z;
  maxSlippageBps : option Z
}.

Record PolicyViolation : Type := mkPolicyViolation {
  path : string;
  message : string
}.

(** Truthiness of an optional boolean: [undefined] and [false] are falsy. *)
Definition truthy (b : option bool) : bool :=
  match b with Some true => true | _ => false end.

(** [new Set((list ?? []).map((s) => s.trim()))] followed by
    [.has(x.trim())]: the set is only ever asked for membership, so it is
    kept as the list of its trimmed elements. *)
Definition trimmedSet (l : option (list string)) : list string :=
  map JsString.trim (match l with Some xs => xs | None => [] end).

Definition has (allowed : list string) (x : string) : bool :=
  existsb (String.eqb x) allowed.

(** [cond ? [viol] : []], the effect of a guarded [v.push(viol)]. *)
Definition pushIf (cond : bool) (viol : PolicyViolation) : list PolicyViolation :=
  if cond then [viol] else [].

(** [limit != null && x > limit] *)
Definition exceeds (x : Z) (limit : option Z) : bool :=
  match limit with Some m => m <? x | None => false end.

(** [validateActionPolicy(action, policy, path)].  The list [v] of the
    source grows by pushes in program order; a [BigInt] that throws leaves
    the function before [v] is returned. *)
Definition validateActionPolicy (action : AgentAction) (policy : AgentPolicy)
    (path : string) : Result (list PolicyViolation) :=
  match action with
  | Noop _ => Ok []
  | TransferSol to lamports =>
      let v1 :=
        if negb (truthy (allowAllTransfers policy)) then
          let allowed := trimmedSet (allowedRecipients policy) in
          pushIf (negb (has allowed (JsString.trim to)))
                 (mkPolicyViolation (path ++ ".to") "Recipient is not allowlisted")
        else [] in
      match BigInt lamports with
      | Throw e => Throw e
      | Ok n =>
          Ok (v1 ++ pushIf (exceeds n (maxTransferLamports policy))
                      (mkPolicyViolation (path ++ ".lamports")
                                         "Transfer exceeds maxTransferLamports"))%list
      end
  | SwapJupiter inputMint outputMint amount slippage _ =>
      let v1 :=
        if negb (truthy (allowAllSwaps policy)) then
          let allowed := trimmedSet (allowedMints policy) in
          (pushIf (negb (has allowed (JsString.trim inputMint)))
                  (mkPolicyViolation (path ++ ".inputMint") "inputMint is not allowlisted")
           ++ pushIf (negb (has allowed (JsString.trim outputMint)))
                  (mkPolicyViolation (path ++ ".outputMint") "outputMint is not allowlisted"))%list
        else [] in
      match BigInt amount with
      | Throw e => Throw e
      | Ok n =>
          let v2 := pushIf (exceeds n (maxSwapAmount policy))
                      (mkPolicyViolation (path ++ ".amount") "Swap exceeds maxSwapAmount") in
          let v3 :=
            match slippage, maxSlippageBps policy with
            | Some s, Some m =>
                pushIf (m <? s)
                  (mkPolicyViolation (path ++ ".slippageBps")
                                     "slippageBps exceeds maxSlippageBps")
            | _, _ => []
            end in
          Ok (v1 ++ v2 ++ v3)%list
      end
  end.

(** The path [`actions[${i}]`] that [validatePlanPolicy] builds. *)
Definition actionPath (i : nat) : string := "actions[" ++ JsString.ofNat i ++ "]".
Arguments actionPath : simpl never.

(** The loop of [validatePlanPolicy]: [i] is the index of the head of
    [rest] in [plan.actions] and [v] the violations pushed so far. *)
Fixpoint validateFrom (policy : AgentPolicy) (i : nat) (rest : list AgentAction)
    (v : list PolicyViolation) : Result (list PolicyViolation) :=
  match rest with
  | [] => Ok v
  | a :: rest' =>
      match validateActionPolicy a policy (actionPath i) with
      | Throw e => Throw e
      | Ok va => validateFrom policy (S i) rest' (v ++ va)%list
      end
  end.

(** [validatePlanPolicy(plan, policy)] *)
Definition validatePlanPolicy (plan : AgentPlan) (policy : AgentPolicy)
    : Result (list PolicyViolation) :=
  validateFrom policy 0 (actions plan) [].

(** ** Vocabulary of the claims about the policy *)

(** The policy [{}], which sets nothing. *)
Definition emptyPolicy : AgentPolicy :=
  mkAgentPolicy None None None None None None None.

(** The policy [{ allowAllTransfers: true, allowAllSwaps: true }]. *)
Definition allowAllPolicy : AgentPolicy :=
  mkAgentPolicy None (Some true) None None (Some true) None None.

(** [BigInt] accepts the amount the action carries. *)
Definition amountParses (a : AgentAction) : bool :=
  match a with
  | Noop _ => true
  | TransferSol _ lamports =>
      match stringToBigInt lamports with Some _ => true | None => false end
  | SwapJupiter _ _ amount _ _ =>
      match stringToBigInt amount with Some _ => true | None => false end
  end.

(** A violation of the mint allowlist, recognised by its message. *)
Definition isMintViolation (v : PolicyViolation) : bool :=
  String.eqb (message v) "inputMint is not allowlisted"
  || String.eqb (message v) "outputMint is not allowlisted".

Definition mintViolations (vs : list PolicyViolation) : list PolicyViolation :=
  filter isMintViolation vs.

(** [allowed.has(mint.trim())] for the set built from [allowedMints]. *)
Definition mintAllowed (policy : AgentPolicy) (mint : string) : bool :=
  has (trimmedSet (allowedMints policy)) (JsString.trim mint).

Definition inputMintViolation (pth : string) : PolicyViolation :=
  mkPolicyViolation (pth ++ ".inputMint") "inputMint is not allowlisted".

Definition outputMintViolation (pth : string) : PolicyViolation :=
  mkPolicyViolation (pth ++ ".outputMint") "outputMint is not allowlisted".

(** The recipient passes the allowlist check of the policy. *)
Definition recipientAllowed (policy : AgentPolicy) (to : string) : bool :=
  truthy (allowAllTransfers policy)
  || has (trimmedSet (allowedRecipients policy)) (JsString.trim to).

Definition recipientViolation (pth : string) : PolicyViolation :=
  mkPolicyViolation (pth ++ ".to") "Recipient is not allowlisted".

Definition lamportsViolation (pth : string) : PolicyViolation :=
  mkPolicyViolation (pth ++ ".lamports") "Transfer exceeds maxTransferLamports".

Definition slippageViolation (pth : string) : PolicyViolation :=
  mkPolicyViolation (pth ++ ".slippageBps") "slippageBps exceeds maxSlippageBps".

(** ** Untyped values

    [proposePlan] receives whatever the model answered, parsed; its
    declared type [AgentPlan] is a cast, so the value is kept untyped.  An
    array carries, besides its elements, the named properties assigned to
    it (none after [JSON.parse]).  The [context] handed to [proposePlan] is
    a [Record<string, unknown>]: it may hold a [bigint], which
    [JSON.parse] never returns and [JSON.stringify] refuses.  Values are
    trees: an object that contains itself is not one of them. *)

#[warnings="-register-all"]
Inductive JsValue : Type :=
| JsNull
| JsBool (b : bool)
| JsNumber (n : Z)
| JsString (s : string)
| JsArray (elems : list JsValue) (props : list (string * JsValue))
| JsObject (props : list (string * JsValue))
| JsBigInt (n : Z).

Module Js.

(** [!v || typeof v !== 'object'] *)
Definition notAnObject (v : JsValue) : bool :=
  match v with
  | JsArray _ _ | JsObject _ => false
  | _ => true
  end.

Fixpoint lookup (k : string) (props : list (string * JsValue)) : option JsValue :=
  match props with
  | [] => None
  | (k', v) :: props' => if String.eqb k k' then Some v else lookup k props'
  end.

(** Assignment to a named property: an existing property keeps its
    place, a new one goes last. *)
Fixpoint assign (k : string) (v : JsValue) (props : list (string * JsValue))
    : list (string * JsValue) :=
  match props with
  | [] => [(k, v)]
  | (k', v') :: props' =>
      if String.eqb k k' then (k', v) :: props' else (k', v') :: assign k v props'
  end.

(** [o[k]] for a property name [k] that is not an array index; [None] is
    [undefined]. *)
Definition get (o : JsValue) (k : string) : option JsValue :=
  match o with
  | JsArray _ props | JsObject props => lookup k props
  | _ => None
  end.

(** [o[k] = v] on an object or an array. *)
Definition set (o : JsValue) (k : string) (v : JsValue) : JsValue :=
  match o with
  | JsArray elems props => JsArray elems (assign k v props)
  | JsObject props => JsObject (assign k v props)
  | _ => o
  end.

(** [xs.slice(0, end)] for an integer [end]: a negative [end] counts
    from the end of the array. *)
Definition slice0 (A : Type) (xs : list A) (end_ : Z) : list A :=
  let len := Z.of_nat (List.length xs) in
  let final := if end_ <? 0 then Z.max (len + end_) 0 else Z.min end_ len in
  firstn (Z.to_nat final) xs.

(** [`${n}`] for an integer [n]. *)
Definition ofZ (n : Z) : string := NilZero.string_of_int (Z.to_int n).

(** [JSON.stringify] can serialise [v]: no [bigint] is met on the way
    through the elements of its arrays and the properties of its objects
    (the named properties of an array are not visited). *)
Fixpoint serialisable (v : JsValue) : bool :=
  match v with
  | JsBigInt _ => false
  | JsArray elems _ => forallb serialisable elems
  | JsObject props =>
      forallb (fun kv => match kv with (_, x) => serialisable x end) props
  | _ => true
  end.

End Js.

(** ** Collaborators

    [transferSol] and [asPublicKey] come from [../wallet],
    [getJupiterQuote] and [executeJupiterSwap] from [../jupiter], and
    [createJson] is the method of [AnthropicClient]; they talk to the
    network.  The state of everything outside the agent is a world [W]; a
    call takes the world to a new world and settles to a result.  The
    connection and the signer that [execute] receives are handed to every
    call unchanged; they belong to the world. *)

Definition PublicKey : Type := string.
Definition TransactionSignature : Type := string.

Record JupiterClientOptions : Type := mkJupiterClientOptions {
  baseUrl : option string;
  apiKey : option string
}.

Record JupiterQuoteParams : Type := mkJupiterQuoteParams {
  qp_inputMint : string;
  qp_outputMint : string;
  qp_amount : string;
  qp_slippageBps : option Z;
  qp_swapMode : option JupiterSwapMode
}.

Record JupiterQuoteResponse : Type := mkJupiterQuoteResponse {
  qr_inputMint : string;
  qr_outputMint : string;
  qr_inAmount : string;
  qr_outAmount : string;
  qr_slippageBps : Z;
  qr_swapMode : JupiterSwapMode
}.

Record CreateJsonParams : Type := mkCreateJsonParams {
  cj_system : string;
  cj_prompt : string;
  cj_maxTokens : Z;
  cj_temperature : Z
}.

(** What the run of a plan did to the outside, in order.  [i] is the
    position in [plan.actions] of the action the call was made for, and the
    last argument is what the call settled to. *)
Inductive Event : Type :=
| EvCreateJson (p : CreateJsonParams) (r : Result JsValue)
| EvConfirm (i : nat) (action : AgentAction) (r : Result bool)
| EvTransferSol (i : nat) (to : PublicKey) (lamports : Z) (r : Result TransactionSignature)
| EvGetJupiterQuote (i : nat) (p : JupiterQuoteParams) (r : Result JupiterQuoteResponse)
| EvExecuteJupiterSwap (i : nat) (q : JupiterQuoteResponse) (r : Result TransactionSignature).

Section Agent.

Variable W : Type.

Definition Effect (A : Type) : Type := W -> W * Result A.

Record Collaborators : Type := mkCollaborators {
  (** [new PublicKey(s)] of [@solana/web3.js]; throws on a malformed key. *)
  newPublicKey : string -> Result PublicKey;
  (** [transferSol(conn, payer, to, lamports, { confirm: true })] *)
  transferSol : PublicKey -> Z -> Effect TransactionSignature;
  (** [getJupiterQuote(params, opts)] *)
  getJupiterQuote : JupiterQuoteParams -> option JupiterClientOptions ->
                    Effect JupiterQuoteResponse;
  (** [executeJupiterSwap({ conn, signer, quoteResponse, jupiter, confirm: true })] *)
  executeJupiterSwap : JupiterQuoteResponse -> option JupiterClientOptions ->
                       Effect TransactionSignature;
  (** The text [JSON.stringify(v, null, 2)] returns for a value it
      serialises. *)
  stringify : JsValue -> string
}.

Record AnthropicClient : Type := mkAnthropicClient {
  createJson : CreateJsonParams -> Effect JsValue
}.

(** The fields of a [ClaudeAgent], as its constructor copies them from
    [ClaudeAgentOptions]. *)
Record ClaudeAgent : Type := mkClaudeAgent {
  anthropic : option AnthropicClient;
  policy : option AgentPolicy;
  jupiter : option JupiterClientOptions;
  confirm : option (AgentAction -> Effect bool)
}.

(** *** The monad of an asynchronous method

    The state is the world together with the trace of the calls made so
    far; a thrown error ends the method. *)

Record State : Type := mkState { world : W; trace : list Event }.

Definition M (A : Type) : Type := State -> State * Result A.

Definition ret (A : Type) (a : A) : M A := fun st => (st, Ok a).

Definition throw (A : Type) (e : JsError) : M A := fun st => (st, Throw e).

Definition bind (A B : Type) (m : M A) (k : A -> M B) : M B :=
  fun st =>
    match m st with
    | (st', Ok a) => k a st'
    | (st', Throw e) => (st', Throw e)
    end.

(** A pure computation that may throw. *)
Definition lift (A : Type) (r : Result A) : M A := fun st => (st, r).

(** [await] of a collaborator call; the call and what it settled to are
    appended to the trace. *)
Definition perform (A : Type) (eff : Effect A) (ev : Result A -> Event) : M A :=
  fun st =>
    let (w', r) := eff (world st) in
    (mkState w' (trace st ++ [ev r]), r).

End Agent.

Arguments ret {W A} a.
Arguments throw {W A} e.
Arguments bind {W A B} m k.
Arguments lift {W A} r.
Arguments perform {W A} eff ev.

Declare Scope agent_scope.
Delimit Scope agent_scope with agent.
Notation "x <- m ;; k" := (bind m (fun x => k))
  (at level 100, m at next level, right associativity) : agent_scope.

(** ** [src/agent/claudeAgent.ts] *)

Module Text.
Definition nl : string := String (ascii_of_nat 10) EmptyString.
Definition dq : string := String (ascii_of_nat 34) EmptyString.
End Text.

(** [{ type: 'noop' }] *)
Definition noopValue : JsValue := JsObject [("type", JsString "noop")].

(** The object literal [{ goal, summary, actions: [{ type: 'noop' }] }]. *)
Definition noopPlan (goal summary : string) : JsValue :=
  JsObject [("goal", JsString goal); ("summary", JsString summary);
            ("actions", JsArray [noopValue] [])].

Definition schemaHint : JsValue :=
  JsObject [
    ("goal", JsString "string");
    ("summary", JsString "string");
    ("actions", JsArray [
       JsObject [("type", JsString "noop"); ("reason", JsString "string?")];
       JsObject [("type", JsString "transferSol"); ("to", JsString "base58 pubkey");
                 ("lamports", JsString "string u64")];
       JsObject [("type", JsString "swapJupiter"); ("inputMint", JsString "base58 mint");
                 ("outputMint", JsString "base58 mint");
                 ("amount", JsString "string u64 raw");
                 ("slippageBps", JsString "number?");
                 ("swapMode", JsString (Text.dq ++ "ExactIn" ++ Text.dq ++ " | "
                                        ++ Text.dq ++ "ExactOut" ++ Text.dq ++ "?"))]
     ] [])
  ].

(** [Array.isArray(v)] for the value of a property. *)
Definition isArray (v : option JsValue) : bool :=
  match v with Some (JsArray _ _) => true | _ => false end.

(** The elements of the value of a property that is an array. *)
Definition elements (v : option JsValue) : list JsValue :=
  match v with Some (JsArray elems _) => elems | _ => [] end.

Section ClaudeAgentMethods.

Variable W : Type.
Variable env : Collaborators W.
Variable this : ClaudeAgent W.

Local Open Scope agent_scope.

(** [JSON.stringify(v, null, 2)]: it throws a [TypeError] when it meets
    a [bigint]. *)
Definition jsonStringify (v : JsValue) : Result string :=
  if Js.serialisable v then Ok (stringify env v)
  else Throw (TypeError "Do not know how to serialize a BigInt").

(** The argument [{ system, prompt, maxTokens: 900, temperature: 0 }]
    that [proposePlan] hands to [createJson].  Building the prompt
    serialises the context and then the schema hint; either may throw. *)
Definition createJsonParams (goal : string) (context : option JsValue)
    (maxActions : Z) : Result CreateJsonParams :=
  let system := JsString.join Text.nl [
    "You are an automated trading/wallet assistant for Solana.";
    "You MUST output ONLY valid JSON, no markdown.";
    "You propose actions, but you DO NOT have access to private keys.";
    "Use conservative defaults and prefer no-op when unsure."] in
  match jsonStringify (match context with Some c => c | None => JsObject [] end) with
  | Throw e => Throw e
  | Ok contextJson =>
      match jsonStringify schemaHint with
      | Throw e => Throw e
      | Ok schemaJson =>
          let prompt := JsString.join Text.nl [
            "Goal: " ++ goal;
            "";
            "Constraints:";
            "- Return at most " ++ Js.ofZ maxActions ++ " actions.";
            "- If you do not have enough info, return a single noop action.";
            "";
            "Context (JSON):";
            contextJson;
            "";
            "Output JSON schema (informal):";
            schemaJson;
            "";
            "Return ONLY a JSON object with keys: goal, summary, actions."] in
          Ok (mkCreateJsonParams system prompt 900 0)
      end
  end.

(** [args.maxActions ?? 3] *)
Definition maxActionsOr3 (maxActions : option Z) : Z :=
  match maxActions with Some m => m | None => 3 end.

(** [proposePlan({ goal, context, maxActions })] *)
Definition proposePlan (goal : string) (context : option JsValue)
    (maxActions : option Z) : M W JsValue :=
  match anthropic this with
  | None => ret (noopPlan goal "No Anthropic client configured")
  | Some client =>
      let maxActions := maxActionsOr3 maxActions in
      params <- lift (createJsonParams goal context maxActions) ;;
      plan <- perform (createJson client params) (EvCreateJson params) ;;
      if Js.notAnObject plan then ret (noopPlan goal "Invalid plan")
      else
        let plan1 :=
          if negb (isArray (Js.get plan "actions"))
          then Js.set plan "actions" (JsArray [noopValue] [])
          else plan in
        let plan2 :=
          Js.set plan1 "actions"
            (JsArray (Js.slice0 (elements (Js.get plan1 "actions")) maxActions) []) in
        ret plan2
  end.

(** [validate(plan)]: without a policy there is nothing to violate. *)
Definition validate (plan : AgentPlan) : Result (list PolicyViolation) :=
  match policy this with
  | None => Ok []
  | Some p => validatePlanPolicy plan p
  end.

(** [await Promise.resolve(this.confirm?.(action) ?? true)] *)
Definition confirmed (i : nat) (action : AgentAction) : M W bool :=
  match confirm this with
  | None => ret true
  | Some f => perform (f action) (EvConfirm i action)
  end.

(** [asPublicKey(pubkey)] of [../wallet] on a string. *)
Definition asPublicKey (pubkey : string) : Result PublicKey :=
  newPublicKey env pubkey.

(** One turn of the loop of [execute] on the action at position [i]:
    [Some sig] when the turn ends in [sigs.push(sig)], [None] when it
    ends in a bare [continue]. *)
Definition executeAction (i : nat) (action : AgentAction)
    : M W (option TransactionSignature) :=
  ok <- confirmed i action ;;
  if negb ok then ret None
  else
    match action with
    | Noop _ => ret None
    | TransferSol to lamports =>
        pk <- lift (asPublicKey to) ;;
        n <- lift (BigInt lamports) ;;
        sig <- perform (transferSol env pk n) (EvTransferSol i pk n) ;;
        ret (Some sig)
    | SwapJupiter inputMint outputMint amount slippageBps swapMode =>
        let params :=
          mkJupiterQuoteParams inputMint outputMint amount
            (Some (match slippageBps with Some s => s | None => 50 end))
            swapMode in
        quote <- perform (getJupiterQuote env params (jupiter this))
                         (EvGetJupiterQuote i params) ;;
        sig <- perform (executeJupiterSwap env quote (jupiter this))
                       (EvExecuteJupiterSwap i quote) ;;
        ret (Some sig)
    end.

(** The [for (const action of plan.actions)] loop, from position [i],
    with the signatures collected so far. *)
Fixpoint executeFrom (i : nat) (rest : list AgentAction)
    (sigs : list TransactionSignature) : M W (list TransactionSignature) :=
  match rest with
  | [] => ret sigs
  | action :: rest' =>
      r <- executeAction i action ;;
      executeFrom (S i) rest'
        (match r with Some sig => sigs ++ [sig] | None => sigs end)%list
  end.

(** The message of the error [execute] throws on violations. *)
Definition violationMessage (violations : list PolicyViolation) : string :=
  "Plan violates policy: "
  ++ JsString.join "; " (map (fun x => path x ++ ": " ++ message x) violations).

(** [execute(plan, { conn, signer })] *)
Definition execute (plan : AgentPlan) : M W (list TransactionSignature) :=
  violations <- lift (validate plan) ;;
  match violations with
  | _ :: _ => throw (Error (violationMessage violations))
  | [] => executeFrom 0 (actions plan) []
  end.

End ClaudeAgentMethods.

(** ** Traces of [execute] *)

(** The position in the plan of the action an event belongs to. *)
Definition eventIndex (e : Event) : option nat :=
  match e with
  | EvCreateJson _ _ => None
  | EvConfirm i _ _ | EvTransferSol i _ _ _
  | EvGetJupiterQuote i _ _ | EvExecuteJupiterSwap i _ _ => Some i
  end.

(** The signatures the collaborators handed out, each with the position
    of the action it was obtained for. *)
Fixpoint signedAt (evs : list Event) : list (nat * TransactionSignature) :=
  match evs with
  | [] => []
  | EvTransferSol i _ _ (Ok sig) :: evs' => (i, sig) :: signedAt evs'
  | EvExecuteJupiterSwap i _ (Ok sig) :: evs' => (i, sig) :: signedAt evs'
  | _ :: evs' => signedAt evs'
  end.

(** A ledger or swap call. *)
Definition isCollaboratorCall (e : Event) : bool :=
  match e with
  | EvTransferSol _ _ _ _ | EvGetJupiterQuote _ _ _ | EvExecuteJupiterSwap _ _ _ => true
  | _ => false
  end.

Definition isNoop (a : AgentAction) : bool :=
  match a with Noop _ => true | _ => false end.

(** The parameters [execute] asks a quote with. *)
Definition quoteParams (a : AgentAction) : option JupiterQuoteParams :=
  match a with
  | SwapJupiter inputMint outputMint amount slippageBps swapMode =>
      Some (mkJupiterQuoteParams inputMint outputMint amount
              (Some (match slippageBps with Some s => s | None => 50 end)) swapMode)
  | _ => None
  end.

Definition someResult (A : Type) (r : Result A) : Result (option A) :=
  match r with Ok v => Ok (Some v) | Throw e => Throw e end.

Definition pushed (A : Type) (xs : list A) (o : option A) : list A :=
  match o with Some x => (xs ++ [x])%list | None => xs end.

Section Runs.

Variable W : Type.
Variable env : Collaborators W.
Variable this : ClaudeAgent W.

(** The events of a confirmation that lets the action through. *)
Inductive Confirmed (i : nat) (a : AgentAction) : list Event -> Prop :=
| Confirmed_default : confirm this = None -> Confirmed i a []
| Confirmed_yes : confirm this <> None -> Confirmed i a [EvConfirm i a (Ok true)].

(** The shapes one turn of the loop can take: its events and what the
    turn ends in. *)
Inductive ActionRun (i : nat) : AgentAction -> list Event ->
    Result (option TransactionSignature) -> Prop :=
| Run_declined a :
    confirm this <> None ->
    ActionRun i a [EvConfirm i a (Ok false)] (Ok None)
| Run_confirm_throws a e :
    confirm this <> None ->
    ActionRun i a [EvConfirm i a (Throw e)] (Throw e)
| Run_noop reason c :
    Confirmed i (Noop reason) c ->
    ActionRun i (Noop reason) c (Ok None)
| Run_transfer_bad_key to lamports c e :
    Confirmed i (TransferSol to lamports) c ->
    asPublicKey env to = Throw e ->
    ActionRun i (TransferSol to lamports) c (Throw e)
| Run_transfer_bad_amount to lamports c pk e :
    Confirmed i (TransferSol to lamports) c ->
    asPublicKey env to = Ok pk ->
    BigInt lamports = Throw e ->
    ActionRun i (TransferSol to lamports) c (Throw e)
| Run_transfer to lamports c pk n r :
    Confirmed i (TransferSol to lamports) c ->
    asPublicKey env to = Ok pk ->
    BigInt lamports = Ok n ->
    ActionRun i (TransferSol to lamports)
      (c ++ [EvTransferSol i pk n r]) (someResult r)
| Run_quote_throws a p c e :
    Confirmed i a c ->
    quoteParams a = Some p ->
    ActionRun i a (c ++ [EvGetJupiterQuote i p (Throw e)]) (Throw e)
| Run_swap a p c q r :
    Confirmed i a c ->
    quoteParams a = Some p ->
    ActionRun i a
      (c ++ [EvGetJupiterQuote i p (Ok q); EvExecuteJupiterSwap i q r])
      (someResult r).

(** The runs of the loop from position [i]. *)
Inductive PlanRun : nat -> list AgentAction -> list TransactionSignature ->
    list Event -> Result (list TransactionSignature) -> Prop :=
| PlanRun_done i sigs :
    PlanRun i [] sigs [] (Ok sigs)
| PlanRun_step i a rest sigs evs1 o evs2 r :
    ActionRun i a evs1 (Ok o) ->
    PlanRun (S i) rest (pushed sigs o) evs2 r ->
    PlanRun i (a :: rest) sigs (evs1 ++ evs2) r
| PlanRun_abort i a rest sigs evs1 e :
    ActionRun i a evs1 (Throw e) ->
    PlanRun i (a :: rest) sigs evs1 (Throw e).

End Runs.

(** ** A concrete world

    A ledger that counts the transactions it accepted and names each
    signature after that count, a swap aggregator that refuses to build a
    transaction towards the mint ["BAD"], and a key parser that rejects the
    empty string. *)

Module Demo.

Definition W : Type := nat.

Definition MAX_SAFE_INTEGER : Z := 9007199254740991.

Definition env : Collaborators W := {|
  newPublicKey := fun s =>
    if String.eqb s "" then Throw (Error "Invalid public key input") else Ok s;
  transferSol := fun to lamports w =>
    if MAX_SAFE_INTEGER <? lamports
    then (w, Throw (Error "lamports is too large for a JS number"))
    else (S w, Ok ("sig" ++ JsString.ofNat w));
  getJupiterQuote := fun p opts w =>
    (w, Ok (mkJupiterQuoteResponse (qp_inputMint p) (qp_outputMint p)
              (qp_amount p) (qp_amount p)
              (match qp_slippageBps p with Some s => s | None => 0 end)
              (match qp_swapMode p with Some m => m | None => ExactIn end)));
  executeJupiterSwap := fun q opts w =>
    if String.eqb (qr_outputMint q) "BAD"
    then (w, Throw (Error "Jupiter /swap failed: 400 Bad Request"))
    else (S w, Ok ("sig" ++ JsString.ofNat w));
  stringify := fun _ => "{}"
|}.

(** An agent with neither inference client, policy nor confirmation. *)
Definition bare : ClaudeAgent W := mkClaudeAgent None None None None.

Definition withPolicy (p : AgentPolicy) : ClaudeAgent W :=
  mkClaudeAgent None (Some p) None None.

(** A confirmation that declines every no-op and every swap. *)
Definition transfersOnly : ClaudeAgent W :=
  mkClaudeAgent None None None
    (Some (fun a w => (w, Ok (match a with TransferSol _ _ => true | _ => false end)))).

Definition answering (v : JsValue) : ClaudeAgent W :=
  mkClaudeAgent (Some (mkAnthropicClient (fun _ w => (w, Ok v)))) None None None.

Definition start : State W := mkState 0%nat [].

Definition plan (acts : list AgentAction) : AgentPlan := mkAgentPlan "demo" None acts.

End Demo.

(** ** Vocabulary of the further properties *)

Definition swapAmountViolation (pth : string) : PolicyViolation :=
  mkPolicyViolation (pth ++ ".amount") "Swap exceeds maxSwapAmount".

(** ** The agent of the example

    [examples/jupiterSwap.ts] builds an agent with a policy that lists no
    recipient and two mints, and a confirmation that logs the action and
    answers [false].  Writing to the console is a change of the world. *)

Module AgentExample.

Definition SOL_MINT : string := "So11111111111111111111111111111111111111112".
Definition USDC_MINT : string := "EPjFWdd5AufqSSqeM2qN1xzybapC8G4wEGGkZwyTDt1v".

Definition policy : AgentPolicy := {|
  allowAllTransfers := Some false;
  allowedRecipients := Some [];
  maxTransferLamports := Some 1000000;
  allowAllSwaps := Some false;
  allowedMints := Some [SOL_MINT; USDC_MINT];
  maxSwapAmount := Some 10000000;
  maxSlippageBps := Some 100
|}.

Section Agent.

Variable W : Type.

(** [console.log('About to execute action:', action)] *)
Variable consoleLog : AgentAction -> W -> W.

Definition confirm (action : AgentAction) : Effect W bool :=
  fun w => (consoleLog action w, Ok false).

Definition agent (anthropic : AnthropicClient W) (apiKey : option string)
    : ClaudeAgent W :=
  mkClaudeAgent (Some anthropic) (Some policy)
    (Some (mkJupiterClientOptions None apiKey)) (Some confirm).

End Agent.

End AgentExample.

(** A policy that lets the recipient ["alice"] and the mints ["A"] and
    ["B"] through, with a limit on each amount and on the slippage. *)
Definition samplePolicy : AgentPolicy :=
  mkAgentPolicy (Some ["alice"]) None (Some 1000) (Some ["A"; "B"]) None (Some 500)
    (Some 100).

Definition samplePlan : AgentPlan :=
  mkAgentPlan "sample" None
    [TransferSol "alice" "5"; Noop None; SwapJupiter "A" "B" "7" None None;
     SwapJupiter "B" "A" "9" (Some 80) (Some ExactOut)].

(** ** Calls that settle, in sequence

    The functions below the agent are written over [Effect] directly: a
    call takes the world to a new world and settles to a result, and an
    [await] chains two of them. *)

Definition eret (W A : Type) (a : A) : Effect W A := fun w => (w, Ok a).

Definition ethrow (W A : Type) (e : JsError) : Effect W A := fun w => (w, Throw e).

Definition ebind (W A B : Type) (m : Effect W A) (k : A -> Effect W B) : Effect W B :=
  fun w =>
    match m w with
    | (w', Ok a) => k a w'
    | (w', Throw e) => (w', Throw e)
    end.

(** [promise.catch(() => fallback)] *)
Definition ecatch (W A : Type) (m : Effect W A) (fallback : A) : Effect W A :=
  fun w =>
    match m w with
    | (w', Ok a) => (w', Ok a)
    | (w', Throw _) => (w', Ok fallback)
    end.

Arguments eret {W A} a.
Arguments ethrow {W A} e.
Arguments ebind {W A B} m k.
Arguments ecatch {W A} m fallback.

Declare Scope effect_scope.
Delimit Scope effect_scope with effect.
Notation "x <~ m ;; k" := (ebind m (fun x => k))
  (at level 100, m at next level, right associativity) : effect_scope.

(** ** [src/agent/anthropic.ts] *)

Record AnthropicClientOptions : Type := mkAnthropicClientOptions {
  aco_apiKey : string;
  aco_model : string;
  aco_baseUrl : option string;
  aco_anthropicVersion : option string
}.

(** The private fields of an [AnthropicClient]. *)
Record AnthropicFields : Type := mkAnthropicFields {
  ac_apiKey : string;
  ac_model : string;
  ac_baseUrl : string;
  ac_anthropicVersion : string
}.

(** The constructor of [AnthropicClient]. *)
Definition newAnthropicClient (opts : AnthropicClientOptions) : AnthropicFields :=
  mkAnthropicFields (aco_apiKey opts) (aco_model opts)
    (match aco_baseUrl opts with Some u => u | None => "https://api.anthropic.com" end)
    (match aco_anthropicVersion opts with Some v => v | None => "2023-06-01" end).

Inductive AnthropicRole : Type := RoleUser | RoleAssistant.

Record AnthropicMessage : Type := mkAnthropicMessage {
  am_role : AnthropicRole;
  am_content : string
}.

(** What [fetch] is called with and what it resolves to. *)
Record FetchRequest : Type := mkFetchRequest {
  fr_url : string;
  fr_method : string;
  fr_headers : list (string * string);
  fr_body : option string
}.

Record FetchResponse (W : Type) : Type := mkFetchResponse {
  resp_ok : bool;
  resp_status : Z;
  resp_statusText : string;
  resp_text : Effect W string;
  resp_json : Effect W JsValue
}.

Record CreateMessageParams : Type := mkCreateMessageParams {
  cm_system : option string;
  cm_messages : list AnthropicMessage;
  cm_maxTokens : Z;
  cm_temperature : option Z
}.

(** The argument of [createJson], with its optional fields. *)
Record CreateJsonArgs : Type := mkCreateJsonArgs {
  cja_system : option string;
  cja_prompt : string;
  cja_maxTokens : option Z;
  cja_temperature : option Z
}.

Module Fence.

(** [s.replace(/\/$/, '')] *)
Fixpoint stripTrailingSlash (s : string) : string :=
  match s with
  | EmptyString => EmptyString
  | String "/" EmptyString => EmptyString
  | String c s' => String c (stripTrailingSlash s')
  end.

Fixpoint allWhiteSpace (s : string) : bool :=
  match s with
  | EmptyString => true
  | String c s' => JsString.isWhiteSpace c && allWhiteSpace s'
  end.

Definition fence : string := "```".

(** [s.startsWith(p)] *)
Fixpoint startsWith (p s : string) : bool :=
  match p with
  | EmptyString => true
  | String a p' =>
      match s with
      | EmptyString => false
      | String b s' => Ascii.eqb a b && startsWith p' s'
      end
  end.

(** What follows the first three characters. *)
Definition afterFence (s : string) : string :=
  match s with
  | String _ (String _ (String _ rest)) => rest
  | _ => EmptyString
  end.

(** The letter [lower] or its capital, as the [i] flag matches it. *)
Definition sameLetter (lower c : ascii) : bool :=
  Ascii.eqb c lower
  || Nat.eqb (nat_of_ascii c + 32) (nat_of_ascii lower).

(** [s] starts with [json], in any mix of capitals. *)
Definition startsWithJson (s : string) : bool :=
  match s with
  | String j (String s' (String o (String n _))) =>
      sameLetter "j" j && sameLetter "s" s' && sameLetter "o" o && sameLetter "n" n
  | _ => false
  end.

Definition afterJson (s : string) : string :=
  match s with
  | String _ (String _ (String _ (String _ rest))) => rest
  | _ => EmptyString
  end.

(** [s.replace(/^```json\s*/i, '')] *)
Definition stripJsonFenceStart (s : string) : string :=
  if startsWith fence s && startsWithJson (afterFence s)
  then JsString.trimStart (afterJson (afterFence s))
  else s.

(** [s.replace(/^```\s*/i, '')] *)
Definition stripFenceStart (s : string) : string :=
  if startsWith fence s then JsString.trimStart (afterFence s) else s.

(** [s.replace(/```\s*$/i, '')]: the leftmost place where three backticks
    are followed by nothing but white space up to the end is cut off. *)
Fixpoint stripFenceEnd (s : string) : string :=
  match s with
  | EmptyString => EmptyString
  | String c s' =>
      if startsWith fence s && allWhiteSpace (afterFence s)
      then EmptyString
      else String c (stripFenceEnd s')
  end.

(** The text [createJson] hands to [JSON.parse]. *)
Definition clean (text : string) : string :=
  JsString.trim
    (stripFenceEnd (stripFenceStart (stripJsonFenceStart (JsString.trim text)))).

Fixpoint noBacktick (s : string) : bool :=
  match s with
  | EmptyString => true
  | String c s' => negb (Ascii.eqb c "`") && noBacktick s'
  end.

(** The first and the last character, when there is one. *)
Definition firstChar (s : string) : option ascii :=
  match s with String c _ => Some c | EmptyString => None end.

Fixpoint lastChar (s : string) : option ascii :=
  match s with
  | EmptyString => None
  | String c EmptyString => Some c
  | String _ s' => lastChar s'
  end.

End Fence.

(** [blocks.find((b) => b?.type === 'text')] *)
Definition isTextBlock (b : JsValue) : bool :=
  match Js.get b "type" with
  | Some (JsString t) => String.eqb t "text"
  | _ => false
  end.

Section AnthropicClientMethods.

Variable W : Type.

(** The global [fetch]. *)
Variable fetch : FetchRequest -> Effect W (FetchResponse W).

(** [JSON.stringify(v)] and [JSON.parse(s)]. *)
Variable stringifyJson : JsValue -> string.
Variable parseJson : string -> Result JsValue.

Variable this : AnthropicFields.

Local Open Scope effect_scope.

Definition messageValue (m : AnthropicMessage) : JsValue :=
  JsObject [("role", JsString (match am_role m with
                               | RoleUser => "user" | RoleAssistant => "assistant" end));
            ("content", JsString (am_content m))].

(** A property whose value is [undefined] is left out by
    [JSON.stringify]. *)
Definition optionalProperty (k : string) (v : option JsValue)
    : list (string * JsValue) :=
  match v with Some x => [(k, x)] | None => [] end.

(** The request [createMessage] sends. *)
Definition messagesRequest (params : CreateMessageParams) : FetchRequest :=
  mkFetchRequest
    (Fence.stripTrailingSlash (ac_baseUrl this) ++ "/v1/messages")
    "POST"
    [("Content-Type", "application/json");
     ("x-api-key", ac_apiKey this);
     ("anthropic-version", ac_anthropicVersion this)]
    (Some (stringifyJson
       (JsObject
          ([("model", JsString (ac_model this));
            ("max_tokens", JsNumber (cm_maxTokens params))]
           ++ optionalProperty "temperature" (option_map JsNumber (cm_temperature params))
           ++ optionalProperty "system" (option_map JsString (cm_system params))
           ++ [("messages", JsArray (map messageValue (cm_messages params)) [])])%list))).

(** [createMessage(params)] *)
Definition createMessage (params : CreateMessageParams) : Effect W JsValue :=
  res <~ fetch (messagesRequest params) ;;
  if negb (resp_ok res) then
    t <~ ecatch (resp_text res) "" ;;
    ethrow (Error ("Anthropic /v1/messages failed: " ++ Js.ofZ (resp_status res)
                   ++ " " ++ resp_statusText res ++ " " ++ t))
  else resp_json res.

(** The [text] of the first block of [out.content] whose [type] is
    ['text']; [None] is [undefined]. *)
Definition firstText (out : JsValue) : option JsValue :=
  match Js.get out "content" with
  | Some (JsArray blocks _) =>
      match find isTextBlock blocks with
      | Some b => Js.get b "text"
      | None => None
      end
  | _ => None
  end.

(** [createJson(params)] *)
Definition createJsonOf (params : CreateJsonArgs) : Effect W JsValue :=
  out <~ createMessage
           (mkCreateMessageParams (cja_system params)
              [mkAnthropicMessage RoleUser (cja_prompt params)]
              (match cja_maxTokens params with Some n => n | None => 800 end)
              (Some (match cja_temperature params with Some t => t | None => 0 end))) ;;
  match firstText out with
  | Some (JsString text) => fun w => (w, parseJson (Fence.clean text))
  | _ => ethrow (Error "Anthropic response did not contain a text block")
  end.

(** The client as [proposePlan] sees it: its [createJson] called with all
    four fields given. *)
Definition anthropicClient : AnthropicClient W :=
  mkAnthropicClient (fun p =>
    createJsonOf (mkCreateJsonArgs (Some (cj_system p)) (cj_prompt p)
                    (Some (cj_maxTokens p)) (Some (cj_temperature p)))).

End AnthropicClientMethods.

(** ** What the trace records

    An event carries what the call it names settled to, from some state
    of the world. *)

Definition settledBy (W : Type) (env : Collaborators W) (this : ClaudeAgent W)
    (ev : Event) : Prop :=
  match ev with
  | EvCreateJson p r =>
      exists client w w', anthropic this = Some client /\ createJson client p w = (w', r)
  | EvConfirm _ a r =>
      exists f w w', confirm this = Some f /\ f a w = (w', r)
  | EvTransferSol _ pk n r =>
      exists w w', transferSol env pk n w = (w', r)
  | EvGetJupiterQuote _ p r =>
      exists w w', getJupiterQuote env p (jupiter this) w = (w', r)
  | EvExecuteJupiterSwap _ q r =>
      exists w w', executeJupiterSwap env q (jupiter this) w = (w', r)
  end.

(** A method only appends events, each of them settled. *)
Definition Settles (W : Type) (env : Collaborators W) (this : ClaudeAgent W)
    (A : Type) (m : M W A) : Prop :=
  forall st st' r,
    m st = (st', r) ->
    exists evs,
      trace st' = (trace st ++ evs)%list /\ Forall (settledBy env this) evs.

(** ** [src/wallet.ts] *)

Inductive Commitment : Type :=
| CommitmentProcessed
| CommitmentConfirmed
| CommitmentFinalized.

Record TransferSolOptions : Type := mkTransferSolOptions {
  tso_confirm : option bool;
  tso_commitment : option Commitment
}.

(** What the code reads of a [Keypair]. *)
Record Keypair : Type := mkKeypair {
  kp_publicKey : PublicKey;
  kp_secretKey : list Z
}.

Record BlockhashWithExpiryBlockHeight : Type := mkBlockhashWithExpiryBlockHeight {
  bh_blockhash : string;
  bh_lastValidBlockHeight : Z
}.

(** The first argument of [conn.confirmTransaction]. *)
Record ConfirmationStrategy : Type := mkConfirmationStrategy {
  cs_signature : TransactionSignature;
  cs_blockhash : string;
  cs_lastValidBlockHeight : Z
}.

Module Wallet.

Section Wallet.

Variable W : Type.

(** A [TransactionInstruction] of [@solana/web3.js]. *)
Variable Instruction : Type.

Record Transaction : Type := mkTransaction {
  tx_instructions : list Instruction;
  tx_feePayer : option PublicKey;
  tx_recentBlockhash : option string
}.

(** The methods of a [Connection] that [transferSol] calls; what
    [confirmTransaction] resolves to is not looked at. *)
Record Connection : Type := mkConnection {
  getLatestBlockhash : Commitment -> Effect W BlockhashWithExpiryBlockHeight;
  sendTransaction : Transaction -> list Keypair -> Commitment ->
                    Effect W TransactionSignature;
  confirmTransaction : ConfirmationStrategy -> Commitment -> Effect W JsValue
}.

(** [SystemProgram.transfer({ fromPubkey, toPubkey, lamports: Number(lamports) })],
    as a function of the [bigint] the number is made from. *)
Variable systemTransfer : PublicKey -> PublicKey -> Z -> Result Instruction.

Variable conn : Connection.
Variable payer : Keypair.

Local Open Scope effect_scope.

(** [Number.MAX_SAFE_INTEGER] *)
Definition MAX_SAFE_INTEGER : Z := 9007199254740991.

Definition tooLarge : JsError :=
  Error ("lamports is too large for a JS number (max safe: "
         ++ Js.ofZ MAX_SAFE_INTEGER ++ "). "
         ++ "Split into multiple transfers or use a different builder.").

(** [opts.commitment ?? 'confirmed'] *)
Definition commitmentOf (opts : TransferSolOptions) : Commitment :=
  match tso_commitment opts with Some c => c | None => CommitmentConfirmed end.

(** [transferSol(conn, payer, to, lamports, opts)] *)
Definition transferSol (to : PublicKey) (lamports : Z) (opts : TransferSolOptions)
    : Effect W TransactionSignature :=
  if MAX_SAFE_INTEGER <? lamports then ethrow tooLarge
  else
    ix <~ (fun w => (w, systemTransfer (kp_publicKey payer) to lamports)) ;;
    latest <~ getLatestBlockhash conn (commitmentOf opts) ;;
    let tx := mkTransaction [ix] (Some (kp_publicKey payer))
                (Some (bh_blockhash latest)) in
    sig <~ sendTransaction conn tx [payer] (commitmentOf opts) ;;
    match tso_confirm opts with
    | Some true =>
        _ <~ confirmTransaction conn
               (mkConfirmationStrategy sig (bh_blockhash latest)
                  (bh_lastValidBlockHeight latest))
               (commitmentOf opts) ;;
        eret sig
    | _ => eret sig
    end.

(** The call [execute] makes:
    [transferSol(params.conn, params.signer, to, lamports, { confirm: true })]. *)
Definition transferSolConfirming (to : PublicKey) (lamports : Z)
    : Effect W TransactionSignature :=
  transferSol to lamports (mkTransferSolOptions (Some true) None).

End Wallet.

End Wallet.

(** ** A concrete inference service and a concrete ledger connection *)

Module ClientDemo.

Definition fields : AnthropicFields :=
  newAnthropicClient
    (mkAnthropicClientOptions "key" "model" (Some "https://example.test/") None).

(** A reply whose second block is the first text block. *)
Definition reply (text : string) : JsValue :=
  JsObject [("content",
             JsArray [JsObject [("type", JsString "thinking")];
                      JsObject [("type", JsString "text"); ("text", JsString text)];
                      JsObject [("type", JsString "text"); ("text", JsString "[]")]] [])].

Definition fetch (req : FetchRequest) : Effect Demo.W (FetchResponse Demo.W) :=
  fun w =>
    (S w, Ok (mkFetchResponse true 200 "OK"
                (fun w => (w, Ok ""))
                (fun w => (w, Ok (reply "```json {} ```"))))).

Definition stringifyJson (v : JsValue) : string := "{}".

(** A parser that knows the empty object and the empty array. *)
Definition parseJson (s : string) : Result JsValue :=
  if String.eqb s "{}" then Ok (JsObject [])
  else if String.eqb s "[]" then Ok (JsArray [] [])
  else Throw (SyntaxError "Unexpected token").

Definition agent : ClaudeAgent Demo.W :=
  mkClaudeAgent (Some (anthropicClient fetch stringifyJson parseJson fields))
    None None None.

End ClientDemo.

Module WalletDemo.

(** A connection that counts the transactions sent, names each signature
    after that count and confirms everything. *)
Definition conn : Wallet.Connection Demo.W string :=
  Wallet.mkConnection
    (fun _ w => (w, Ok (mkBlockhashWithExpiryBlockHeight "hash" 100)))
    (fun _ _ _ w => (S w, Ok ("sig" ++ JsString.ofNat w)))
    (fun _ _ w => (w, Ok JsNull)).

Definition payer : Keypair := mkKeypair "payer" [].

Definition systemTransfer (from to : PublicKey) (lamports : Z) : Result string :=
  if lamports <? 0 then Throw (mkJsError "RangeError" "out of range")
  else Ok (from ++ ">" ++ to).

Definition env : Collaborators Demo.W :=
  mkCollaborators (newPublicKey Demo.env)
    (Wallet.transferSolConfirming systemTransfer conn payer)
    (getJupiterQuote Demo.env) (executeJupiterSwap Demo.env) (stringify Demo.env).

End WalletDemo.

(** ** Proof steps shared by the facts about runs *)

Ltac confirmed_cases :=
  repeat match goal with
         | HC : Confirmed _ _ _ _ |- _ => destruct HC
         end.

Ltac in_cases H :=
  simpl in H;
  repeat (destruct H as [H | H]; [try discriminate H |]);
  try contradiction.

(** * Evaluation of the built-ins *)

Example trim_keeps_inner_space : JsString.trim "  a b	 " = "a b".
Proof. reflexivity. Qed.
Example BigInt_padded_leading_zeros : BigInt " 0012 " = Ok 12.
Proof. reflexivity. Qed.
Example BigInt_negative : BigInt "-5" = Ok (-5).
Proof. reflexivity. Qed.
Example BigInt_hex : BigInt "0x1F" = Ok 31.
Proof. reflexivity. Qed.
Example BigInt_empty : BigInt "" = Ok 0.
Proof. reflexivity. Qed.
Example BigInt_fraction_throws : BigInt "1.5" = Throw (SyntaxError "Cannot convert 1.5 to a BigInt").
Proof. reflexivity. Qed.
Example BigInt_signed_hex_throws : BigInt "-0x10" = Throw (SyntaxError "Cannot convert -0x10 to a BigInt").
Proof. reflexivity. Qed.
Example BigInt_bare_prefix_throws : BigInt "0x" = Throw (SyntaxError "Cannot convert 0x to a BigInt").
Proof. reflexivity. Qed.
Example BigInt_beyond_u64 : BigInt "18446744073709551616" = Ok (2^64).
Proof. reflexivity. Qed.
Example ofNat_decimal : JsString.ofNat 12 = "12" /\ JsString.ofNat 0 = "0".
Proof. split; reflexivity. Qed.

Example validatePlanPolicy_empty_policy : validatePlanPolicy (mkAgentPlan "g" None [TransferSol "x" "5"; SwapJupiter "A" "B" "7" None None]) emptyPolicy
 = Ok [mkPolicyViolation "actions[0].to" "Recipient is not allowlisted";
       mkPolicyViolation "actions[1].inputMint" "inputMint is not allowlisted";
       mkPolicyViolation "actions[1].outputMint" "outputMint is not allowlisted"].
Proof. reflexivity. Qed.

(** * Policy engine *)

Section PolicyFacts.

Variable policy : AgentPolicy.

Lemma BigInt_Ok_parses s n : BigInt s = Ok n -> stringToBigInt s = Some n.
Proof.
  unfold BigInt. destruct (stringToBigInt s); intros H; inversion H; reflexivity.
Qed.

Lemma BigInt_parses_Ok s n : stringToBigInt s = Some n -> BigInt s = Ok n.
Proof. unfold BigInt. intros ->. reflexivity. Qed.

Lemma BigInt_throws_SyntaxError s e :
  BigInt s = Throw e -> exists msg, e = SyntaxError msg.
Proof.
  unfold BigInt. destruct (stringToBigInt s); intros H; inversion H. eauto.
Qed.

(** One action is validated to a list exactly when its amount parses. *)
Lemma validateActionPolicy_returns a pth :
  amountParses a = true -> exists va, validateActionPolicy a policy pth = Ok va.
Proof.
  destruct a as [r | to l | im om am sl md]; simpl.
  - eauto.
  - unfold BigInt. destruct (stringToBigInt l); [eauto | discriminate].
  - unfold BigInt. destruct (stringToBigInt am); [eauto | discriminate].
Qed.

Lemma validateActionPolicy_throws a pth :
  amountParses a = false ->
  exists msg, validateActionPolicy a policy pth = Throw (SyntaxError msg).
Proof.
  destruct a as [r | to l | im om am sl md]; simpl.
  - discriminate.
  - unfold BigInt. destruct (stringToBigInt l); [discriminate | eauto].
  - unfold BigInt. destruct (stringToBigInt am); [discriminate | eauto].
Qed.

(** The violations already pushed stay in front of what the loop adds. *)
Lemma validateFrom_acc rest : forall i v,
  validateFrom policy i rest v =
  match validateFrom policy i rest [] with
  | Ok vs' => Ok (v ++ vs')%list
  | Throw e => Throw e
  end.
Proof.
  induction rest as [| a rest IH]; simpl; intros i v.
  - rewrite app_nil_r. reflexivity.
  - destruct (validateActionPolicy a policy _) as [va | e]; [| reflexivity].
    rewrite (IH (S i) (v ++ va)%list), (IH (S i) va).
    destruct (validateFrom policy (S i) rest []) as [vs' | e]; [| reflexivity].
    rewrite app_assoc. reflexivity.
Qed.

Lemma validateFrom_returns rest : forall i v,
  forallb amountParses rest = true ->
  exists vs, validateFrom policy i rest v = Ok vs.
Proof.
  induction rest as [| a rest IH]; simpl; intros i v H.
  - eauto.
  - apply andb_true_iff in H as [Ha Hr].
    destruct (validateActionPolicy_returns a (actionPath i) Ha)
      as [va ->].
    apply IH, Hr.
Qed.

Lemma validateFrom_throws rest : forall i v,
  forallb amountParses rest = false ->
  exists msg, validateFrom policy i rest v = Throw (SyntaxError msg).
Proof.
  induction rest as [| a rest IH]; simpl; intros i v H.
  - discriminate.
  - destruct (amountParses a) eqn:Ha; simpl in H.
    + destruct (validateActionPolicy_returns a (actionPath i) Ha)
        as [va ->].
      apply IH, H.
    + destruct (validateActionPolicy_throws a (actionPath i) Ha)
        as [msg ->].
      eauto.
Qed.

(** What the loop returns holds the violations of each of its actions,
    reported under the path of that action. *)
Lemma validateFrom_nth rest : forall i v vs k a,
  validateFrom policy i rest v = Ok vs ->
  nth_error rest k = Some a ->
  exists va, validateActionPolicy a policy (actionPath (i + k)) = Ok va /\ incl va vs.
Proof.
  induction rest as [| b rest IH]; intros i v vs k a H Hk.
  - destruct k; discriminate.
  - simpl in H.
    destruct (validateActionPolicy b policy (actionPath i)) as [vb | e] eqn:Eb;
      [| discriminate].
    destruct k as [| k]; simpl in Hk.
    + inversion Hk; subst b. rewrite Nat.add_0_r. exists vb. split; [exact Eb |].
      rewrite validateFrom_acc in H.
      destruct (validateFrom policy (S i) rest []) as [vs' | e]; [| discriminate].
      inversion H; subst vs. intros x Hx.
      apply in_or_app. left. apply in_or_app. right. exact Hx.
    + destruct (IH (S i) _ _ _ _ H Hk) as (va & Hva & Hincl).
      exists va. rewrite Nat.add_succ_r. auto.
Qed.

End PolicyFacts.

(** ** Amounts that do not parse, and negative amounts *)

(** C2, as the code has it: [validatePlanPolicy] returns a list of
    violations exactly when [BigInt] accepts the amount of every transfer
    and swap of the plan; when some amount is not accepted it throws the
    [SyntaxError] of [BigInt] instead of reporting a violation.  A negative
    amount is accepted and only compared with the configured maximum: under
    a maximum that is absent or not negative it is validated exactly like
    the amount ["0"]. *)
Theorem validatePlanPolicy_returns_iff_amounts_parse (plan : AgentPlan) (policy : AgentPolicy) :
  ((exists vs, validatePlanPolicy plan policy = Ok vs)
   <-> forallb amountParses (actions plan) = true)
  /\ (forallb amountParses (actions plan) = false ->
      exists msg, validatePlanPolicy plan policy = Throw (SyntaxError msg))
  /\ (forall to lamports n pth,
        BigInt lamports = Ok n -> n < 0 ->
        (forall m, maxTransferLamports policy = Some m -> 0 <= m) ->
        validateActionPolicy (TransferSol to lamports) policy pth
        = validateActionPolicy (TransferSol to "0") policy pth)
  /\ (forall im om amount sl md pth n,
        BigInt amount = Ok n -> n < 0 ->
        (forall m, maxSwapAmount policy = Some m -> 0 <= m) ->
        validateActionPolicy (SwapJupiter im om amount sl md) policy pth
        = validateActionPolicy (SwapJupiter im om "0" sl md) policy pth).
Proof.
  unfold validatePlanPolicy. repeat split.
  - intros [vs H]. destruct (forallb amountParses (actions plan)) eqn:E; [reflexivity |].
    destruct (validateFrom_throws policy (actions plan) 0 [] E) as [msg Hm].
    rewrite Hm in H. discriminate.
  - apply validateFrom_returns.
  - apply validateFrom_throws.
  - intros to lamports n pth Hn Hneg Hmax. simpl. rewrite Hn.
    change (BigInt "0") with (Ok 0). unfold exceeds.
    destruct (maxTransferLamports policy) as [m |]; [| reflexivity].
    specialize (Hmax m eq_refl).
    replace (m <? n) with false by (symmetry; apply Z.ltb_ge; lia).
    replace (m <? 0) with false by (symmetry; apply Z.ltb_ge; lia).
    reflexivity.
  - intros im om amount sl md pth n Hn Hneg Hmax. simpl. rewrite Hn.
    change (BigInt "0") with (Ok 0). unfold exceeds.
    destruct (maxSwapAmount policy) as [m |]; [| reflexivity].
    specialize (Hmax m eq_refl).
    replace (m <? n) with false by (symmetry; apply Z.ltb_ge; lia).
    replace (m <? 0) with false by (symmetry; apply Z.ltb_ge; lia).
    reflexivity.
Qed.

(** A plan whose amounts all parse is validated to a list. *)
Lemma validatePlanPolicy_returns_witness :
  exists vs,
    validatePlanPolicy (Demo.plan [TransferSol "alice" " 0x10 "; Noop None]) emptyPolicy
    = Ok vs.
Proof.
  apply (proj1 (validatePlanPolicy_returns_iff_amounts_parse
                  (Demo.plan [TransferSol "alice" " 0x10 "; Noop None]) emptyPolicy)).
  reflexivity.
Defined.

(** C2, as the specification states it, fails: on the amount ["1.5"]
    validation throws and returns no list, and the negative amount ["-5"]
    passes without any violation. *)
Lemma validatePlanPolicy_throws_on_unparsable_amount :
  validatePlanPolicy (Demo.plan [TransferSol "alice" "1.5"]) allowAllPolicy
  = Throw (SyntaxError "Cannot convert 1.5 to a BigInt")
  /\ ~ (exists vs,
          validatePlanPolicy (Demo.plan [TransferSol "alice" "1.5"]) allowAllPolicy = Ok vs)
  /\ validatePlanPolicy (Demo.plan [TransferSol "alice" "-5"]) allowAllPolicy = Ok [].
Proof.
  repeat split.
  intros [vs H]. discriminate H.
Qed.

(** *** [BigInt] on the decimal text of an integer *)

Lemma digitsFrom_uint_acc (d : Decimal.uint) : forall acc : positive,
  digitsFrom 10 (Z.pos acc) (NilEmpty.string_of_uint d)
  = Some (Z.pos (Pos.of_uint_acc d acc)).
Proof.
  induction d; intros acc; cbn [NilEmpty.string_of_uint digitsFrom Pos.of_uint_acc];
    try reflexivity;
    change (digitValue _) with (Some 0) || change (digitValue _) with (Some 1)
    || change (digitValue _) with (Some 2) || change (digitValue _) with (Some 3)
    || change (digitValue _) with (Some 4) || change (digitValue _) with (Some 5)
    || change (digitValue _) with (Some 6) || change (digitValue _) with (Some 7)
    || change (digitValue _) with (Some 8) || change (digitValue _) with (Some 9);
    cbn match; cbv beta;
    match goal with
    | |- context [if ?k <? 10 then _ else _] => change (k <? 10) with true; cbv iota
    end;
    rewrite <- IHd; f_equal; rewrite ?Pos2Z.inj_add, Pos2Z.inj_mul; (lia || (change (Z.pos _ * Z.pos acc) with (10 * Z.pos acc); lia)).
Qed.

Lemma digitsFrom_uint (d : Decimal.uint) :
  digitsFrom 10 0 (NilEmpty.string_of_uint d) = Some (Z.of_N (Pos.of_uint d)).
Proof.
  induction d; cbn [NilEmpty.string_of_uint digitsFrom Pos.of_uint];
    try reflexivity; try exact IHd;
    apply (digitsFrom_uint_acc d).
Qed.

Lemma trimEnd_uint (d : Decimal.uint) :
  JsString.trimEnd (NilEmpty.string_of_uint d) = NilEmpty.string_of_uint d.
Proof.
  induction d; cbn [NilEmpty.string_of_uint JsString.trimEnd];
    try reflexivity; rewrite IHd; destruct (NilEmpty.string_of_uint d); reflexivity.
Qed.

Lemma trim_uint (d : Decimal.uint) :
  JsString.trim (NilEmpty.string_of_uint d) = NilEmpty.string_of_uint d.
Proof.
  unfold JsString.trim.
  replace (JsString.trimStart (NilEmpty.string_of_uint d)) with (NilEmpty.string_of_uint d)
    by (destruct d; reflexivity).
  apply trimEnd_uint.
Qed.

Lemma strIntegerLiteral_uint (d : Decimal.uint) :
  d <> Decimal.Nil ->
  strIntegerLiteral (NilEmpty.string_of_uint d) = Some (Z.of_N (Pos.of_uint d)).
Proof.
  intros Hd. rewrite <- digitsFrom_uint.
  destruct d as [| d | d | d | d | d | d | d | d | d | d]; [contradiction | ..];
    try reflexivity.
  destruct d; reflexivity.
Qed.

Lemma stringToBigInt_uint (d : Decimal.uint) :
  d <> Decimal.Nil ->
  stringToBigInt (NilEmpty.string_of_uint d) = Some (Z.of_N (Pos.of_uint d)).
Proof.
  intros Hd. unfold stringToBigInt. rewrite trim_uint.
  rewrite <- (strIntegerLiteral_uint Hd).
  destruct d; [contradiction | ..]; reflexivity.
Qed.

Lemma stringToBigInt_neg_uint (d : Decimal.uint) :
  d <> Decimal.Nil ->
  stringToBigInt (String "-" (NilEmpty.string_of_uint d))
  = Some (- Z.of_N (Pos.of_uint d)).
Proof.
  intros Hd. unfold stringToBigInt, JsString.trim.
  cbn [JsString.trimStart]. change (JsString.isWhiteSpace "-") with false. cbv iota.
  cbn [JsString.trimEnd]. rewrite trimEnd_uint.
  destruct (NilEmpty.string_of_uint d) eqn:Es.
  - destruct d; try contradiction; discriminate Es.
  - rewrite <- Es.
    change (strIntegerLiteral (String "-" (NilEmpty.string_of_uint d)))
      with (option_map Z.opp (digits 10 (NilEmpty.string_of_uint d))).
    unfold digits. rewrite Es, <- Es, digitsFrom_uint. reflexivity.
Qed.

(** [BigInt] reads back the decimal text of every integer. *)
Lemma BigInt_ofZ (n : Z) : BigInt (Js.ofZ n) = Ok n.
Proof.
  unfold BigInt, Js.ofZ.
  destruct n as [| p | p]; [reflexivity | |]; cbn [Z.to_int NilZero.string_of_int].
  - pose proof (DecimalPos.Unsigned.to_uint_nonnil p) as Hp.
    replace (NilZero.string_of_uint (Pos.to_uint p))
      with (NilEmpty.string_of_uint (Pos.to_uint p))
      by (destruct (Pos.to_uint p); [contradiction | ..]; reflexivity).
    rewrite (stringToBigInt_uint Hp), DecimalPos.Unsigned.of_to. reflexivity.
  - pose proof (DecimalPos.Unsigned.to_uint_nonnil p) as Hp.
    replace (NilZero.string_of_uint (Pos.to_uint p))
      with (NilEmpty.string_of_uint (Pos.to_uint p))
      by (destruct (Pos.to_uint p); [contradiction | ..]; reflexivity).
    rewrite (stringToBigInt_neg_uint Hp), DecimalPos.Unsigned.of_to. reflexivity.
Qed.

(** ** Deny by default *)

(** C4: under a policy whose [allowedRecipients] is empty or absent and
    whose [allowAllTransfers] is false or absent, every transfer is
    reported as not allowlisted, whatever its recipient and whatever
    integer its amount is: the violation heads the result for the decimal
    text of every integer, it is in the result for every amount text the
    validation returns on, and in the result of a plan it stands under the
    path of each transfer of the plan. *)
Theorem deny_by_default_transfers (policy : AgentPolicy) (to : string) :
  allowedRecipients policy = None \/ allowedRecipients policy = Some [] ->
  allowAllTransfers policy = None \/ allowAllTransfers policy = Some false ->
  (forall (n : Z) (pth : string),
     exists rest,
       validateActionPolicy (TransferSol to (Js.ofZ n)) policy pth
       = Ok (recipientViolation pth :: rest))
  /\ (forall (lamports pth : string) (n : Z),
        BigInt lamports = Ok n ->
        exists rest,
          validateActionPolicy (TransferSol to lamports) policy pth
          = Ok (recipientViolation pth :: rest))
  /\ (forall (plan : AgentPlan) (i : nat) (lamports : string),
        forallb amountParses (actions plan) = true ->
        nth_error (actions plan) i = Some (TransferSol to lamports) ->
        exists vs,
          validatePlanPolicy plan policy = Ok vs
          /\ In (recipientViolation (actionPath i)) vs).
Proof.
  intros Hrec Hall.
  assert (Ht : truthy (allowAllTransfers policy) = false)
    by (destruct Hall as [-> | ->]; reflexivity).
  assert (Hs : trimmedSet (allowedRecipients policy) = [])
    by (destruct Hrec as [-> | ->]; reflexivity).
  assert (Haction : forall lamports pth n,
            BigInt lamports = Ok n ->
            exists rest,
              validateActionPolicy (TransferSol to lamports) policy pth
              = Ok (recipientViolation pth :: rest)).
  { intros lamports pth n Hn. simpl. rewrite Ht, Hs, Hn. simpl. eauto. }
  split; [| split].
  - intros n pth. apply (Haction _ _ n). apply BigInt_ofZ.
  - exact Haction.
  - intros plan i lamports Hparse Hnth. unfold validatePlanPolicy.
    destruct (validateFrom_returns policy (actions plan) 0 [] Hparse) as [vs Hvs].
    exists vs. split; [exact Hvs |].
    destruct (validateFrom_nth policy _ _ _ _ Hvs Hnth) as (va & Hva & Hincl).
    apply Hincl. simpl in Hva.
    destruct (BigInt lamports) as [n |] eqn:Hn; [| discriminate].
    destruct (Haction lamports (actionPath i) n Hn) as [rest Hrest].
    simpl in Hrest. rewrite Hn in Hrest. rewrite Hrest in Hva.
    inversion Hva; subst va. left. reflexivity.
Qed.

(** The empty policy on the largest unsigned 64-bit amount. *)
Lemma deny_by_default_transfers_witness :
  exists vs,
    validatePlanPolicy
      (Demo.plan [Noop None; TransferSol "alice" "18446744073709551615"]) emptyPolicy
    = Ok vs
    /\ In (recipientViolation (actionPath 1)) vs.
Proof.
  destruct (@deny_by_default_transfers emptyPolicy "alice"
              (or_introl eq_refl) (or_introl eq_refl))
    as (_ & _ & Hplan).
  apply (Hplan (Demo.plan [Noop None; TransferSol "alice" "18446744073709551615"])
               1%nat "18446744073709551615");
    reflexivity.
Defined.

(** ** Swap allowlist, one violation per side *)

Lemma mintViolations_app vs ws :
  mintViolations (vs ++ ws) = (mintViolations vs ++ mintViolations ws)%list.
Proof. apply filter_app. Qed.

(** The violations of the amount and slippage checks are not mint
    violations. *)
Lemma swap_limit_violations_not_mint pth n sl policy :
  mintViolations
    (pushIf (exceeds n (maxSwapAmount policy))
       (mkPolicyViolation (pth ++ ".amount") "Swap exceeds maxSwapAmount")
     ++ match sl, maxSlippageBps policy with
        | Some s, Some m =>
            pushIf (m <? s)
              (mkPolicyViolation (pth ++ ".slippageBps") "slippageBps exceeds maxSlippageBps")
        | _, _ => []
        end) = [].
Proof.
  rewrite mintViolations_app.
  destruct (exceeds n (maxSwapAmount policy)); simpl;
    destruct sl as [s |]; try reflexivity;
    destruct (maxSlippageBps policy) as [m |]; try reflexivity;
    destruct (m <? s); reflexivity.
Qed.

(** C6: when [allowAllSwaps] is not set, each side of a swap is looked up
    in [allowedMints] on its own and each missing side gets its own
    violation: the input violation is reported exactly when the input mint
    is missing, the output violation exactly when the output mint is
    missing, and these are all the mint violations there are, so two when
    both sides are missing and one when only the output side is. *)
Theorem swap_allowlist_per_side
    (policy : AgentPolicy) (pth inputMint outputMint amount : string)
    (slippage : option Z) (mode : option JupiterSwapMode) (n : Z) :
  truthy (allowAllSwaps policy) = false ->
  BigInt amount = Ok n ->
  exists vs,
    validateActionPolicy (SwapJupiter inputMint outputMint amount slippage mode) policy pth
    = Ok vs
    /\ (In (inputMintViolation pth) vs <-> mintAllowed policy inputMint = false)
    /\ (In (outputMintViolation pth) vs <-> mintAllowed policy outputMint = false)
    /\ mintViolations vs
       = ((if mintAllowed policy inputMint then [] else [inputMintViolation pth])
          ++ (if mintAllowed policy outputMint then [] else [outputMintViolation pth]))%list
    /\ (mintAllowed policy inputMint = false ->
        mintAllowed policy outputMint = false ->
        mintViolations vs = [inputMintViolation pth; outputMintViolation pth])
    /\ (mintAllowed policy inputMint = true ->
        mintAllowed policy outputMint = false ->
        mintViolations vs = [outputMintViolation pth]).
Proof.
  intros Hall Hn. simpl. rewrite Hall, Hn. simpl.
  fold (mintAllowed policy inputMint). fold (mintAllowed policy outputMint).
  fold (inputMintViolation pth). fold (outputMintViolation pth).
  eexists. split; [reflexivity |].
  assert (Hmint :
    mintViolations
      ((pushIf (negb (mintAllowed policy inputMint)) (inputMintViolation pth)
        ++ pushIf (negb (mintAllowed policy outputMint)) (outputMintViolation pth))
       ++ pushIf (exceeds n (maxSwapAmount policy))
            (mkPolicyViolation (pth ++ ".amount") "Swap exceeds maxSwapAmount")
       ++ match slippage, maxSlippageBps policy with
          | Some s, Some m =>
              pushIf (m <? s)
                (mkPolicyViolation (pth ++ ".slippageBps")
                   "slippageBps exceeds maxSlippageBps")
          | _, _ => []
          end)
    = ((if mintAllowed policy inputMint then [] else [inputMintViolation pth])
       ++ (if mintAllowed policy outputMint then [] else [outputMintViolation pth]))%list).
  { rewrite mintViolations_app, swap_limit_violations_not_mint, app_nil_r.
    destruct (mintAllowed policy inputMint);
      destruct (mintAllowed policy outputMint); reflexivity. }
  assert (Hin : forall v, isMintViolation v = true ->
            forall ws, In v ws <-> In v (mintViolations ws)).
  { intros v Hv ws. unfold mintViolations. rewrite filter_In. tauto. }
  split; [| split; [| split; [exact Hmint | split]]].
  - rewrite (Hin (inputMintViolation pth) eq_refl), Hmint.
    destruct (mintAllowed policy inputMint);
      destruct (mintAllowed policy outputMint); simpl;
      split; intros H; try reflexivity; try discriminate H;
      try (now left); try (now right; left);
      repeat (destruct H as [H | H]; try discriminate H); try contradiction.
  - rewrite (Hin (outputMintViolation pth) eq_refl), Hmint.
    destruct (mintAllowed policy inputMint);
      destruct (mintAllowed policy outputMint); simpl;
      split; intros H; try reflexivity; try discriminate H;
      try (now left); try (now right; left);
      repeat (destruct H as [H | H]; try discriminate H); try contradiction.
  - intros Hi Ho. rewrite Hmint, Hi, Ho. reflexivity.
  - intros Hi Ho. rewrite Hmint, Hi, Ho. reflexivity.
Qed.

(** A policy that lists the mint ["A"] only, on the swap from ["A"] to
    ["B"]: one violation, for the output side. *)
Lemma swap_allowlist_per_side_witness :
  exists vs,
    validateActionPolicy (SwapJupiter "A" "B" "7" None None)
      (mkAgentPolicy None None None (Some [" A "]) None None None) (actionPath 0)
    = Ok vs
    /\ mintViolations vs = [outputMintViolation (actionPath 0)].
Proof.
  destruct (@swap_allowlist_per_side
              (mkAgentPolicy None None None (Some [" A "]) None None None)
              (actionPath 0) "A" "B" "7" None None 7 eq_refl eq_refl)
    as (vs & Hvs & _ & _ & _ & _ & Hone).
  exists vs. split; [exact Hvs |]. apply Hone; reflexivity.
Defined.

(** ** The boundary of the transfer limit *)

(** C7: for a transfer whose recipient passes the allowlist and a policy
    with [maxTransferLamports] set to [m], an amount that denotes [m] is
    validated without any violation and an amount that denotes [m + 1] is
    reported as exceeding the limit; this holds of every text [BigInt]
    reads as that integer, its decimal text among them. *)
Theorem transfer_limit_boundary
    (policy : AgentPolicy) (pth to : string) (m : Z) :
  maxTransferLamports policy = Some m ->
  recipientAllowed policy to = true ->
  (forall atLimit, BigInt atLimit = Ok m ->
     validateActionPolicy (TransferSol to atLimit) policy pth = Ok [])
  /\ (forall aboveLimit, BigInt aboveLimit = Ok (m + 1) ->
        validateActionPolicy (TransferSol to aboveLimit) policy pth
        = Ok [lamportsViolation pth])
  /\ validateActionPolicy (TransferSol to (Js.ofZ m)) policy pth = Ok []
  /\ validateActionPolicy (TransferSol to (Js.ofZ (m + 1))) policy pth
     = Ok [lamportsViolation pth].
Proof.
  intros Hmax Hrec. unfold recipientAllowed in Hrec.
  assert (Hat : forall atLimit, BigInt atLimit = Ok m ->
            validateActionPolicy (TransferSol to atLimit) policy pth = Ok []).
  { intros atLimit Hat. simpl. rewrite Hat, Hmax. simpl. rewrite Z.ltb_irrefl.
    destruct (truthy (allowAllTransfers policy)); simpl in *; [reflexivity |].
    rewrite Hrec. reflexivity. }
  assert (Habove : forall aboveLimit, BigInt aboveLimit = Ok (m + 1) ->
            validateActionPolicy (TransferSol to aboveLimit) policy pth
            = Ok [lamportsViolation pth]).
  { intros aboveLimit Habove. simpl. rewrite Habove, Hmax. simpl.
    replace (m <? m + 1) with true by (symmetry; apply Z.ltb_lt; lia).
    destruct (truthy (allowAllTransfers policy)); simpl in *; [reflexivity |].
    rewrite Hrec. reflexivity. }
  repeat split; auto using BigInt_ofZ.
Qed.

Lemma transfer_limit_boundary_witness :
  validateActionPolicy (TransferSol "alice " "1000")
    (mkAgentPolicy (Some ["alice"]) None (Some 1000) None None None None) (actionPath 0)
  = Ok []
  /\ validateActionPolicy (TransferSol "alice " "1001")
       (mkAgentPolicy (Some ["alice"]) None (Some 1000) None None None None) (actionPath 0)
     = Ok [lamportsViolation (actionPath 0)].
Proof.
  destruct (@transfer_limit_boundary
              (mkAgentPolicy (Some ["alice"]) None (Some 1000) None None None None)
              (actionPath 0) "alice " 1000 eq_refl eq_refl)
    as (Hat & Habove & _).
  split; [apply Hat | apply Habove]; reflexivity.
Defined.

(** * Execution coordinator *)

Section RunFacts.

Variable W : Type.
Variable env : Collaborators W.
Variable this : ClaudeAgent W.

Lemma perform_trace (A : Type) (eff : Effect W A) ev st st' r :
  perform eff ev st = (st', r) ->
  trace st' = (trace st ++ [ev r])%list /\ eff (world st) = (world st', r).
Proof.
  unfold perform. destruct (eff (world st)) as [w' r0]. intros H.
  inversion H; subst. simpl. auto.
Qed.

Lemma confirmed_run i a st st' r :
  confirmed this i a st = (st', r) ->
  (confirm this = None /\ st' = st /\ r = Ok true)
  \/ (confirm this <> None /\ trace st' = (trace st ++ [EvConfirm i a r])%list).
Proof.
  unfold confirmed. destruct (confirm this) as [f |] eqn:Ef.
  - intros H. apply perform_trace in H as [Ht _]. right. split; [discriminate | exact Ht].
  - unfold ret. intros H. inversion H; subst. left. auto.
Qed.

(** Every turn of the loop takes one of the shapes of [ActionRun]. *)
Lemma executeAction_run i a st st' r :
  executeAction env this i a st = (st', r) ->
  exists evs, trace st' = (trace st ++ evs)%list /\ ActionRun env this i a evs r.
Proof.
  unfold executeAction, bind.
  destruct (confirmed this i a st) as [st1 [ok | e]] eqn:Ec.
  2:{ intros H. inversion H; subst.
      destruct (confirmed_run _ _ _ Ec) as [(_ & _ & Habs) | (Hc & Ht)]; [discriminate |].
      exists [EvConfirm i a (Throw e)]. split; [exact Ht | constructor; exact Hc]. }
  destruct ok; simpl.
  2:{ unfold ret. intros H. inversion H; subst.
      destruct (confirmed_run _ _ _ Ec) as [(_ & _ & Habs) | (Hc & Ht)]; [discriminate |].
      exists [EvConfirm i a (Ok false)]. split; [exact Ht | constructor; exact Hc]. }
  assert (Hconf : exists c, trace st1 = (trace st ++ c)%list /\ Confirmed this i a c).
  { destruct (confirmed_run _ _ _ Ec) as [(Hn & -> & _) | (Hc & Ht)].
    - exists []. rewrite app_nil_r. split; [reflexivity | constructor; exact Hn].
    - exists [EvConfirm i a (Ok true)]. split; [exact Ht | constructor; exact Hc]. }
  destruct Hconf as (c & Hc & HC).
  destruct a as [reason | to lamports | im om am sl md].
  - unfold ret. intros H. inversion H; subst. exists c. split; [exact Hc |].
    constructor. exact HC.
  - unfold lift.
    destruct (asPublicKey env to) as [pk | e] eqn:Epk.
    2:{ intros H. inversion H; subst. exists c. split; [exact Hc |].
        eapply Run_transfer_bad_key; eauto. }
    destruct (BigInt lamports) as [n | e] eqn:En.
    2:{ intros H. inversion H; subst. exists c. split; [exact Hc |].
        eapply Run_transfer_bad_amount; eauto. }
    destruct (perform (transferSol env pk n) (EvTransferSol i pk n) st1)
      as [st2 r2] eqn:Ep.
    apply perform_trace in Ep as [Ht _].
    intros H. exists (c ++ [EvTransferSol i pk n r2])%list. split.
    + destruct r2; inversion H; subst; rewrite Ht, Hc, app_assoc; reflexivity.
    + replace r with (someResult r2)
        by (destruct r2; inversion H; reflexivity).
      eapply Run_transfer; eauto.
  - set (p := mkJupiterQuoteParams im om am
                (Some (match sl with Some s => s | None => 50 end)) md).
    destruct (perform (getJupiterQuote env p (jupiter this)) (EvGetJupiterQuote i p) st1)
      as [st2 [q | e]] eqn:Eq; apply perform_trace in Eq as [Htq _].
    2:{ intros H. inversion H; subst.
        exists (c ++ [EvGetJupiterQuote i p (Throw e)])%list. split.
        - rewrite Htq, Hc, app_assoc. reflexivity.
        - eapply Run_quote_throws; [exact HC | reflexivity]. }
    destruct (perform (executeJupiterSwap env q (jupiter this))
                (EvExecuteJupiterSwap i q) st2) as [st3 r3] eqn:Es.
    apply perform_trace in Es as [Hts _].
    intros H.
    exists (c ++ [EvGetJupiterQuote i p (Ok q); EvExecuteJupiterSwap i q r3])%list. split.
    + destruct r3; inversion H; subst; rewrite Hts, Htq, Hc, <- !app_assoc; reflexivity.
    + replace r with (someResult r3) by (destruct r3; inversion H; reflexivity).
      eapply Run_swap; [exact HC | reflexivity].
Qed.

(** The loop steps through the actions one turn at a time. *)
Lemma executeFrom_cons i a rest sigs st :
  executeFrom env this i (a :: rest) sigs st =
  match executeAction env this i a st with
  | (st1, Ok o) => executeFrom env this (S i) rest (pushed sigs o) st1
  | (st1, Throw e) => (st1, Throw e)
  end.
Proof. reflexivity. Qed.

Lemma executeFrom_run rest : forall i sigs st st' r,
  executeFrom env this i rest sigs st = (st', r) ->
  exists evs, trace st' = (trace st ++ evs)%list /\ PlanRun env this i rest sigs evs r.
Proof.
  induction rest as [| a rest IH]; intros i sigs st st' r H.
  - simpl in H. unfold ret in H. inversion H; subst.
    exists []. rewrite app_nil_r. split; [reflexivity | constructor].
  - rewrite executeFrom_cons in H.
    destruct (executeAction env this i a st) as [st1 [o | e]] eqn:Ea;
      destruct (executeAction_run _ _ _ Ea) as (evs1 & Ht1 & Hr1).
    + destruct (IH _ _ _ _ _ H) as (evs2 & Ht2 & Hr2).
      exists (evs1 ++ evs2)%list. split.
      * rewrite Ht2, Ht1, app_assoc. reflexivity.
      * econstructor; eauto.
    + inversion H; subst. exists evs1. split; [exact Ht1 |].
      apply PlanRun_abort. exact Hr1.
Qed.

End RunFacts.

Section ExecuteFacts.

Variable W : Type.
Variable env : Collaborators W.

Lemma ActionRun_index this i a evs r :
  ActionRun env this i a evs r -> Forall (fun e => eventIndex e = Some i) evs.
Proof.
  assert (Hc : forall c, Confirmed this i a c ->
                 Forall (fun e => eventIndex e = Some i) c).
  { intros c Hc. destruct Hc; repeat constructor. }
  intros H. destruct H;
    repeat (apply Forall_app; split); repeat constructor;
    try (match goal with
         | HC : Confirmed _ _ _ ?c |- Forall _ ?c =>
             destruct HC; repeat constructor
         end).
Qed.

Lemma PlanRun_index this i rest sigs evs r :
  PlanRun env this i rest sigs evs r ->
  Forall (fun e => exists j, eventIndex e = Some j /\ (i <= j < i + List.length rest)%nat) evs.
Proof.
  induction 1 as [i sigs | i a rest sigs evs1 o evs2 r Ha Hp IH | i a rest sigs evs1 e Ha].
  - constructor.
  - apply Forall_app. split.
    + apply ActionRun_index in Ha. eapply Forall_impl; [| exact Ha].
      simpl. intros ev Hev. exists i. split; [exact Hev | lia].
    + eapply Forall_impl; [| exact IH].
      simpl. intros ev (j & Hj & Hr). exists j. split; [exact Hj | lia].
  - apply ActionRun_index in Ha. eapply Forall_impl; [| exact Ha].
    simpl. intros ev Hev. exists i. split; [exact Hev | lia].
Qed.

(** The loop over [pre ++ post] runs [pre] and, when that completes,
    goes on with [post]. *)
Lemma executeFrom_app this pre : forall post i sigs st,
  executeFrom env this i (pre ++ post) sigs st =
  match executeFrom env this i pre sigs st with
  | (st1, Ok sigs1) => executeFrom env this (i + List.length pre) post sigs1 st1
  | (st1, Throw e) => (st1, Throw e)
  end.
Proof.
  induction pre as [| a pre IH]; intros post i sigs st.
  - simpl. unfold ret. rewrite Nat.add_0_r. reflexivity.
  - rewrite <- app_comm_cons, !executeFrom_cons.
    destruct (executeAction env this i a st) as [st1 [o | e]]; [| reflexivity].
    rewrite IH. simpl List.length. rewrite Nat.add_succ_r. reflexivity.
Qed.

Lemma execute_on_violations this plan vs st :
  validate this plan = Ok vs ->
  vs <> [] ->
  execute env this plan st = (st, Throw (Error (violationMessage vs))).
Proof.
  intros Hv Hne. unfold execute, bind, lift. rewrite Hv.
  destruct vs as [| v vs']; [contradiction |]. reflexivity.
Qed.

End ExecuteFacts.

Section RunInversion.

Variable W : Type.
Variable env : Collaborators W.
Variable this : ClaudeAgent W.

(** A turn whose confirmation answered [false] made that call only and
    pushed nothing. *)
Lemma ActionRun_declined i a evs r j a' :
  ActionRun env this i a evs r ->
  In (EvConfirm j a' (Ok false)) evs ->
  j = i /\ a' = a /\ evs = [EvConfirm i a (Ok false)] /\ r = Ok None
  /\ confirm this <> None.
Proof.
  intros H Hin. destruct H; confirmed_cases; in_cases Hin.
  inversion Hin; subst. auto.
Qed.

(** With a confirmation capability, every turn asks it. *)
Lemma ActionRun_confirm_called i a evs r :
  confirm this <> None ->
  ActionRun env this i a evs r ->
  exists r', In (EvConfirm i a r') evs.
Proof.
  intros Hc H. destruct H; confirmed_cases; try contradiction;
    eexists; simpl; left; reflexivity.
Qed.

(** Without one, no turn does. *)
Lemma ActionRun_no_confirm i a evs r :
  confirm this = None ->
  ActionRun env this i a evs r ->
  forall j a' r', ~ In (EvConfirm j a' r') evs.
Proof.
  intros Hc H j a' r' Hin. destruct H; confirmed_cases; try contradiction;
    in_cases Hin.
Qed.

Lemma signedAt_app xs ys : signedAt (xs ++ ys) = (signedAt xs ++ signedAt ys)%list.
Proof.
  induction xs as [| e xs IH]; [reflexivity |].
  destruct e as [p r | i a r | i to n [sig | err] | i p r | i q [sig | err]];
    simpl; rewrite IH; reflexivity.
Qed.

Lemma signedAt_In evs : forall j sig,
  In (j, sig) (signedAt evs) ->
  exists e, In e evs /\ eventIndex e = Some j /\ isCollaboratorCall e = true.
Proof.
  induction evs as [| e evs IH]; intros j sig Hin; [contradiction |].
  assert (Hrec : In (j, sig) (signedAt evs) ->
                 exists e0, In e0 (e :: evs) /\ eventIndex e0 = Some j
                            /\ isCollaboratorCall e0 = true).
  { intros H. destruct (IH _ _ H) as (e0 & H0 & H1). exists e0. split; [right |]; auto. }
  destruct e as [p r | i a r | i to n [s | err] | i p r | i q [s | err]];
    simpl in Hin; auto;
    (destruct Hin as [Hin | Hin]; [| auto]);
    inversion Hin; subst; eexists; (split; [left; reflexivity | split; reflexivity]).
Qed.

(** The signature a turn pushes is the one its collaborator returned. *)
Lemma ActionRun_signed i a evs r :
  ActionRun env this i a evs r ->
  signedAt evs = match r with Ok (Some sig) => [(i, sig)] | _ => [] end.
Proof.
  intros H. destruct H; confirmed_cases; try reflexivity;
    match goal with
    | r : Result TransactionSignature |- _ => destruct r; reflexivity
    end.
Qed.

Lemma PlanRun_signed i rest sigs evs r :
  PlanRun env this i rest sigs evs r ->
  forall sigs', r = Ok sigs' -> sigs' = (sigs ++ map snd (signedAt evs))%list.
Proof.
  induction 1 as [i sigs | i a rest sigs evs1 o evs2 r Ha Hp IH | i a rest sigs evs1 e Ha];
    intros sigs' Hr.
  - inversion Hr; subst. simpl. rewrite app_nil_r. reflexivity.
  - rewrite (IH _ Hr), signedAt_app, map_app, (ActionRun_signed Ha).
    destruct o as [sig |]; simpl; [rewrite <- app_assoc |]; reflexivity.
  - discriminate.
Qed.

(** A quote is asked for a swap, with the parameters [execute] builds
    from it. *)
Lemma ActionRun_quote i a evs r j p q :
  ActionRun env this i a evs r ->
  In (EvGetJupiterQuote j p q) evs ->
  j = i /\ quoteParams a = Some p.
Proof.
  intros H Hin. destruct H; confirmed_cases; in_cases Hin;
    inversion Hin; subst; auto.
Qed.

(** A turn that was not declined and did not throw has asked the quote
    of its swap and obtained it. *)
Lemma ActionRun_quote_asked i a evs o p :
  ActionRun env this i a evs (Ok o) ->
  quoteParams a = Some p ->
  ~ In (EvConfirm i a (Ok false)) evs ->
  exists q, In (EvGetJupiterQuote i p (Ok q)) evs.
Proof.
  intros H Hp Hnd. inversion H; subst; try discriminate Hp.
  - exfalso. apply Hnd. left. reflexivity.
  - match goal with
    | Hq : quoteParams _ = Some ?p' |- _ =>
        rewrite Hq in Hp; inversion Hp; subst
    end.
    eexists. apply in_or_app. right. left. reflexivity.
Qed.

(** Every event of a run was made by the turn of one action of the
    plan, and that turn made all the events of its position. *)
Lemma PlanRun_event_turn i rest sigs evs r :
  PlanRun env this i rest sigs evs r ->
  forall e, In e evs ->
  exists k a evs1 r1,
    nth_error rest k = Some a
    /\ ActionRun env this (i + k)%nat a evs1 r1
    /\ In e evs1
    /\ (forall e', In e' evs -> eventIndex e' = Some (i + k)%nat -> In e' evs1).
Proof.
  induction 1 as [i sigs | i a rest sigs evs1 o evs2 r Ha Hp IH | i a rest sigs evs1 e0 Ha];
    intros e Hin.
  - contradiction.
  - apply in_app_or in Hin as [Hin | Hin].
    + exists 0%nat, a, evs1, (Ok o). rewrite Nat.add_0_r.
      repeat split; auto.
      intros e' He' Hidx. apply in_app_or in He' as [He' | He']; [exact He' |].
      apply PlanRun_index in Hp. rewrite Forall_forall in Hp.
      destruct (Hp _ He') as (j & Hj & Hr). rewrite Hidx in Hj. inversion Hj. lia.
    + destruct (IH _ Hin) as (k & a' & evs1' & r1 & Hk & Hrun & Hin1 & Hall).
      exists (S k), a', evs1', r1. rewrite Nat.add_succ_r.
      repeat split; auto.
      intros e' He' Hidx. apply in_app_or in He' as [He' | He'].
      * apply ActionRun_index in Ha. rewrite Forall_forall in Ha.
        rewrite (Ha _ He') in Hidx. inversion Hidx. lia.
      * apply Hall; assumption.
  - exists 0%nat, a, evs1, (Throw e0). rewrite Nat.add_0_r. repeat split; auto.
Qed.

(** After a declined action the loop turns to the next one. *)
Lemma PlanRun_continues i rest sigs evs r :
  PlanRun env this i rest sigs evs r ->
  forall j a, In (EvConfirm j a (Ok false)) evs ->
  forall a', nth_error rest (S j - i)%nat = Some a' ->
  exists r', In (EvConfirm (S j) a' r') evs.
Proof.
  induction 1 as [i sigs | i a0 rest sigs evs1 o evs2 r Ha Hp IH | i a0 rest sigs evs1 e0 Ha];
    intros j a Hin a' Hnext.
  - contradiction.
  - apply in_app_or in Hin as [Hin | Hin].
    + destruct (ActionRun_declined _ _ Ha Hin) as (-> & _ & _ & _ & Hc).
      replace (S i - i)%nat with 1%nat in Hnext by lia. simpl in Hnext.
      destruct rest as [| b rest']; [discriminate |]. simpl in Hnext.
      inversion Hnext; subst b.
      inversion Hp; subst;
        match goal with
        | Hr : ActionRun _ _ (S i) a' ?ev _ |- _ =>
            destruct (ActionRun_confirm_called Hc Hr) as [r' Hr']
        end;
        exists r'; apply in_or_app; right;
        [apply in_or_app; left |]; assumption.
    + assert (Hj : (S i <= j)%nat).
      { apply PlanRun_index in Hp. rewrite Forall_forall in Hp.
        destruct (Hp _ Hin) as (j' & Hj' & Hr). inversion Hj'; subst. lia. }
      replace (S j - i)%nat with (S (S j - S i))%nat in Hnext by lia. simpl in Hnext.
      destruct (IH _ _ Hin _ Hnext) as [r' Hr'].
      exists r'. apply in_or_app. right. exact Hr'.
  - destruct (ActionRun_declined _ _ Ha Hin) as (_ & _ & _ & Habs & _). discriminate.
Qed.

(** A run that completes has asked and obtained the quote of every swap
    it did not decline. *)
Lemma PlanRun_quote_asked i rest sigs evs r :
  PlanRun env this i rest sigs evs r ->
  forall sigs', r = Ok sigs' ->
  forall k a p, nth_error rest k = Some a -> quoteParams a = Some p ->
  ~ In (EvConfirm (i + k)%nat a (Ok false)) evs ->
  exists q, In (EvGetJupiterQuote (i + k)%nat p (Ok q)) evs.
Proof.
  induction 1 as [i sigs | i a0 rest sigs evs1 o evs2 r Ha Hp IH | i a0 rest sigs evs1 e0 Ha];
    intros sigs' Hr k a p Hk Hq Hnd.
  - destruct k; discriminate.
  - destruct k as [| k]; simpl in Hk.
    + inversion Hk; subst a0. rewrite Nat.add_0_r in *.
      destruct (ActionRun_quote_asked Ha Hq) as [q Hq'].
      * intros Hd. apply Hnd. apply in_or_app. left. exact Hd.
      * exists q. apply in_or_app. left. exact Hq'.
    + rewrite Nat.add_succ_r in *.
      destruct (IH _ Hr _ _ _ Hk Hq) as [q Hq'].
      * intros Hd. apply Hnd. apply in_or_app. right. exact Hd.
      * exists q. apply in_or_app. right. exact Hq'.
  - discriminate.
Qed.

(** Without a confirmation capability a run that completes has pushed
    one signature for every action that is not a no-op. *)
Lemma ActionRun_default_push i a evs o :
  confirm this = None ->
  ActionRun env this i a evs (Ok o) ->
  (isNoop a = true /\ o = None) \/ (isNoop a = false /\ exists sig, o = Some sig).
Proof.
  intros Hc H. inversion H; subst; try contradiction.
  - left. auto.
  - right. split; [reflexivity |].
    match goal with
    | Hs : someResult ?r = Ok o |- _ => destruct r; inversion Hs; eauto
    end.
  - right. split.
    + destruct a; try discriminate; reflexivity.
    + match goal with
      | Hs : someResult ?r = Ok o |- _ => destruct r; inversion Hs; eauto
      end.
Qed.

Lemma PlanRun_default_count i rest sigs evs r :
  confirm this = None ->
  PlanRun env this i rest sigs evs r ->
  forall sigs', r = Ok sigs' ->
  List.length sigs'
  = (List.length sigs + List.length (filter (fun a => negb (isNoop a)) rest))%nat.
Proof.
  intros Hc.
  induction 1 as [i sigs | i a0 rest sigs evs1 o evs2 r Ha Hp IH | i a0 rest sigs evs1 e0 Ha];
    intros sigs' Hr.
  - inversion Hr; subst. simpl. lia.
  - rewrite (IH _ Hr). simpl.
    destruct (ActionRun_default_push Hc Ha) as [(-> & ->) | (-> & sig & ->)]; simpl.
    + reflexivity.
    + rewrite length_app. simpl. lia.
  - discriminate.
Qed.

Lemma PlanRun_no_confirm i rest sigs evs r :
  confirm this = None ->
  PlanRun env this i rest sigs evs r ->
  forall j a' r', ~ In (EvConfirm j a' r') evs.
Proof.
  intros Hc.
  induction 1 as [i sigs | i a0 rest sigs evs1 o evs2 r Ha Hp IH | i a0 rest sigs evs1 e0 Ha];
    intros j a' r' Hin.
  - contradiction.
  - apply in_app_or in Hin as [Hin | Hin].
    + exact (ActionRun_no_confirm Hc Ha _ _ _ Hin).
    + exact (IH _ _ _ Hin).
  - exact (ActionRun_no_confirm Hc Ha _ _ _ Hin).
Qed.

End RunInversion.

(** ** Paths name their action *)

Lemma to_uint_not_Nil (i : nat) : Nat.to_uint i <> Decimal.Nil.
Proof.
  intros H. pose proof (DecimalNat.Unsigned.of_to i) as E.
  rewrite H in E. simpl in E. subst i. discriminate H.
Qed.

Lemma ofNat_inj (i k : nat) : JsString.ofNat i = JsString.ofNat k -> i = k.
Proof.
  unfold JsString.ofNat. intros H.
  apply (f_equal NilZero.uint_of_string) in H.
  rewrite !NilZero.usu in H by apply to_uint_not_Nil.
  inversion H. apply DecimalNat.Unsigned.to_uint_inj. assumption.
Qed.

Lemma length_append (s t : string) :
  String.length (s ++ t) = (String.length s + String.length t)%nat.
Proof. induction s as [| c s IH]; simpl; [| rewrite IH]; reflexivity. Qed.

Lemma append_cancel_r (t s1 : string) : forall s2, s1 ++ t = s2 ++ t -> s1 = s2.
Proof.
  assert (Hlen : forall c u, String c (u ++ t) <> t).
  { intros c u H. apply (f_equal String.length) in H. simpl in H.
    rewrite length_append in H. lia. }
  induction s1 as [| c s1 IH]; intros [| c2 s2] H; simpl in H.
  - reflexivity.
  - symmetry in H. apply Hlen in H. contradiction.
  - apply Hlen in H. contradiction.
  - inversion H; subst. f_equal. apply IH. assumption.
Qed.

Lemma actionPath_inj (i k : nat) (suffix : string) :
  actionPath i ++ suffix = actionPath k ++ suffix -> i = k.
Proof.
  intros H. apply append_cancel_r in H. unfold actionPath in H.
  simpl in H. inversion H as [H']. apply append_cancel_r in H'.
  apply ofNat_inj. assumption.
Qed.

(** A slippage violation in the result of a plan comes from a swap that
    carries a slippage. *)
Lemma validateFrom_origin policy rest : forall i v vs x,
  validateFrom policy i rest v = Ok vs ->
  In x vs ->
  In x v \/ exists k a va,
              nth_error rest k = Some a
              /\ validateActionPolicy a policy (actionPath (i + k)) = Ok va
              /\ In x va.
Proof.
  induction rest as [| b rest IH]; intros i v vs x H Hin; simpl in H.
  - inversion H; subst. left. assumption.
  - destruct (validateActionPolicy b policy (actionPath i)) as [vb | e] eqn:Eb;
      [| discriminate].
    destruct (IH _ _ _ _ H Hin) as [Hv | (k & a & va & Hk & Hva & Hx)].
    + apply in_app_or in Hv as [Hv | Hv]; [left; assumption |].
      right. exists 0%nat, b, vb. rewrite Nat.add_0_r. auto.
    + right. exists (S k), a, va. rewrite Nat.add_succ_r. auto.
Qed.

Lemma slippageViolation_origin policy a pth pth' va :
  validateActionPolicy a policy pth = Ok va ->
  In (slippageViolation pth') va ->
  pth ++ ".slippageBps" = pth' ++ ".slippageBps"
  /\ exists im om am s md, a = SwapJupiter im om am (Some s) md.
Proof.
  intros H Hin. destruct a as [reason | to lamports | im om am sl md]; simpl in H.
  - inversion H; subst. contradiction.
  - destruct (BigInt lamports); [| discriminate]. inversion H; subst va.
    apply in_app_or in Hin as [Hin | Hin].
    + destruct (negb (truthy (allowAllTransfers policy))); [| contradiction].
      unfold pushIf in Hin. destruct (negb _); [| contradiction].
      destruct Hin as [Hin | []]. discriminate Hin.
    + unfold pushIf in Hin. destruct (exceeds _ _); [| contradiction].
      destruct Hin as [Hin | []]. discriminate Hin.
  - destruct (BigInt am); [| discriminate]. inversion H; subst va.
    apply in_app_or in Hin as [Hin | Hin].
    { destruct (negb (truthy (allowAllSwaps policy))); [| contradiction].
      apply in_app_or in Hin as [Hin | Hin];
        unfold pushIf in Hin; destruct (negb _); try contradiction;
        destruct Hin as [Hin | []]; discriminate Hin. }
    apply in_app_or in Hin as [Hin | Hin].
    { unfold pushIf in Hin. destruct (exceeds _ _); [| contradiction].
      destruct Hin as [Hin | []]. discriminate Hin. }
    destruct sl as [s |]; [| contradiction].
    destruct (maxSlippageBps policy) as [m |]; [| contradiction].
    unfold pushIf in Hin. destruct (m <? s); [| contradiction].
    destruct Hin as [Hin | []]. inversion Hin. split; [reflexivity | eauto 6].
Qed.

Section ExecuteClaims.

Variable W : Type.
Variable env : Collaborators W.

(** A run of [execute] either stops at the validation, having done
    nothing, or is a run of the loop over the whole plan. *)
Lemma execute_run this plan st st' r :
  execute env this plan st = (st', r) ->
  exists evs,
    trace st' = (trace st ++ evs)%list
    /\ ((evs = [] /\ exists e, r = Throw e)
        \/ PlanRun env this 0 (actions plan) [] evs r).
Proof.
  unfold execute, bind, lift.
  destruct (validate this plan) as [[| v vs] | e].
  - intros H. destruct (executeFrom_run _ _ _ _ _ _ H) as (evs & Ht & Hr).
    exists evs. auto.
  - unfold throw. intros H. inversion H; subst.
    exists []. rewrite app_nil_r. split; [reflexivity | left; eauto].
  - intros H. inversion H; subst.
    exists []. rewrite app_nil_r. split; [reflexivity | left; eauto].
Qed.

(** ** Refusal of a plan that violates the policy *)

(** C3: when the validation that [execute] performs itself returns at
    least one violation, [execute] throws one error, whose message lists
    all the violations, and leaves the world and the trace as they were:
    no confirmation, transfer, quote or swap call has been made. *)
Theorem execute_refuses_violating_plan
    (this : ClaudeAgent W) (plan : AgentPlan) (vs : list PolicyViolation)
    (st : State W) :
  validate this plan = Ok vs ->
  vs <> [] ->
  execute env this plan st = (st, Throw (Error (violationMessage vs))).
Proof.
  intros Hv Hne. unfold execute, bind, lift, throw. rewrite Hv.
  destruct vs as [| v vs'].
  - contradiction.
  - reflexivity.
Qed.

(** ** Abort at the failing action *)

(** C1, as the code has it: when the turn of the action at position
    [length pre] throws, after the actions before it have completed,
    [execute] ends there: it rejects with that very error, and the state
    it leaves is the one the failing turn left, so that every call made
    belongs to a position up to the failing one and none to a later
    action.  The error is passed on as thrown, without a position added
    to it, and the signatures [sigs1] collected so far are not part of
    the outcome. *)
Theorem execute_aborts_at_failing_action
    (this : ClaudeAgent W) (plan : AgentPlan) (pre post : list AgentAction)
    (a : AgentAction) (st st1 st2 : State W)
    (sigs1 : list TransactionSignature) (e : JsError) :
  validate this plan = Ok [] ->
  actions plan = (pre ++ a :: post)%list ->
  executeFrom env this 0 pre [] st = (st1, Ok sigs1) ->
  executeAction env this (List.length pre) a st1 = (st2, Throw e) ->
  execute env this plan st = (st2, Throw e)
  /\ exists evs,
       trace st2 = (trace st ++ evs)%list
       /\ Forall (fun ev => exists j, eventIndex ev = Some j /\ (j <= List.length pre)%nat)
                 evs.
Proof.
  intros Hv Hact Hpre Ha. split.
  - unfold execute, bind, lift. rewrite Hv, Hact, executeFrom_app, Hpre.
    rewrite executeFrom_cons. simpl. rewrite Ha. reflexivity.
  - destruct (executeFrom_run _ _ _ _ _ _ Hpre) as (evs1 & Ht1 & Hr1).
    destruct (executeAction_run _ _ _ _ _ Ha) as (evs2 & Ht2 & Hr2).
    exists (evs1 ++ evs2)%list. split.
    + rewrite Ht2, Ht1, app_assoc. reflexivity.
    + apply Forall_app. split.
      * apply PlanRun_index in Hr1. eapply Forall_impl; [| exact Hr1].
        simpl. intros ev (j & Hj & Hr). exists j. split; [exact Hj | lia].
      * apply ActionRun_index in Hr2. eapply Forall_impl; [| exact Hr2].
        simpl. intros ev Hev. eauto.
Qed.

(** ** Slippage left out *)

(** C8: a swap that carries no [slippageBps] is never reported for its
    slippage, whatever [maxSlippageBps] the policy sets, yet every quote
    [execute] asks for that swap carries 50 basis points, and a run that
    completes has asked that quote for every such swap it did not
    decline. *)
Theorem absent_slippage_unchecked_and_defaulted
    (this : ClaudeAgent W) (plan : AgentPlan) (i : nat)
    (inputMint outputMint amount : string) (mode : option JupiterSwapMode) :
  nth_error (actions plan) i
  = Some (SwapJupiter inputMint outputMint amount None mode) ->
  (forall policy vs,
     validatePlanPolicy plan policy = Ok vs ->
     ~ In (slippageViolation (actionPath i)) vs)
  /\ (forall r t mt m s ms cap cap' pth,
        validateActionPolicy (SwapJupiter inputMint outputMint amount None mode)
          (mkAgentPolicy r t mt m s ms cap) pth
        = validateActionPolicy (SwapJupiter inputMint outputMint amount None mode)
            (mkAgentPolicy r t mt m s ms cap') pth)
  /\ (forall st st' r,
        execute env this plan st = (st', r) ->
        exists evs,
          trace st' = (trace st ++ evs)%list
          /\ (forall p q, In (EvGetJupiterQuote i p q) evs ->
                p = mkJupiterQuoteParams inputMint outputMint amount (Some 50) mode)
          /\ (forall sigs,
                r = Ok sigs ->
                ~ In (EvConfirm i (SwapJupiter inputMint outputMint amount None mode)
                        (Ok false)) evs ->
                exists q,
                  In (EvGetJupiterQuote i
                        (mkJupiterQuoteParams inputMint outputMint amount (Some 50) mode)
                        (Ok q)) evs)).
Proof.
  intros Hnth. split; [| split].
  - intros policy vs Hvs Hin. unfold validatePlanPolicy in Hvs.
    destruct (validateFrom_origin _ _ _ _ _ Hvs Hin)
      as [[] | (k & a & va & Hk & Hva & Hx)].
    destruct (slippageViolation_origin _ _ _ _ Hva Hx)
      as (Hpath & im & om & am & s & md & ->).
    simpl in Hpath. apply actionPath_inj in Hpath. subst k.
    rewrite Hnth in Hk. discriminate.
  - intros. reflexivity.
  - intros st st' r Hex.
    destruct (execute_run _ _ _ Hex) as (evs & Ht & [(-> & e & ->) | Hrun]).
    + exists []. split; [exact Ht | split]; [intros p q [] | discriminate].
    + exists evs. split; [exact Ht | split].
      * intros p q Hin.
        destruct (PlanRun_event_turn Hrun _ Hin)
          as (k & a & evs1 & r1 & Hk & Ha & Hin1 & _).
        destruct (ActionRun_quote _ _ _ Ha Hin1) as [Hik Hq].
        simpl in Hik. subst k. rewrite Hnth in Hk. inversion Hk; subst a.
        simpl in Hq. inversion Hq. reflexivity.
      * intros sigs Hr Hnd.
        apply (PlanRun_quote_asked Hrun Hr i Hnth); [reflexivity | exact Hnd].
Qed.

(** ** Confirmation *)

(** C9: in every run of [execute], an action whose confirmation
    answered [false] has that call as the only event of its position, so
    no ledger or swap call was made for it and no signature was obtained
    for it, and the action after it, when there is one, was put to the
    confirmation in turn; the signatures returned are those the
    collaborators handed out.  An agent without a confirmation capability
    asks nothing and takes every action as confirmed: a run that
    completes returns one signature for each action that is not a
    no-op. *)
Theorem confirmation_gates_each_action
    (this : ClaudeAgent W) (plan : AgentPlan) (st st' : State W)
    (r : Result (list TransactionSignature)) :
  execute env this plan st = (st', r) ->
  exists evs,
    trace st' = (trace st ++ evs)%list
    /\ (forall i a,
          In (EvConfirm i a (Ok false)) evs ->
          nth_error (actions plan) i = Some a
          /\ (forall e, In e evs -> eventIndex e = Some i ->
                        e = EvConfirm i a (Ok false))
          /\ (forall sig, ~ In (i, sig) (signedAt evs))
          /\ (forall a', nth_error (actions plan) (S i) = Some a' ->
                         exists r', In (EvConfirm (S i) a' r') evs))
    /\ (forall sigs, r = Ok sigs -> sigs = map snd (signedAt evs))
    /\ (confirm this = None ->
        (forall i a st0, confirmed this i a st0 = (st0, Ok true))
        /\ (forall i a r', ~ In (EvConfirm i a r') evs)
        /\ (forall sigs,
              r = Ok sigs ->
              List.length sigs
              = List.length (filter (fun a => negb (isNoop a)) (actions plan)))).
Proof.
  intros Hex.
  assert (Hdefault : confirm this = None ->
            forall i a st0, confirmed this i a st0 = (st0, Ok true)).
  { intros Hc i a st0. unfold confirmed. rewrite Hc. reflexivity. }
  destruct (execute_run _ _ _ Hex) as (evs & Ht & [(-> & e & ->) | Hrun]).
  { exists []. split; [exact Ht |].
    split; [intros i a [] |]. split; [discriminate |].
    intros Hc. split; [auto |]. split; [intros i a r' [] | discriminate]. }
  exists evs. split; [exact Ht |]. split; [| split].
  - intros i a Hin.
    destruct (PlanRun_event_turn Hrun _ Hin)
      as (k & a0 & evs1 & r1 & Hk & Ha & Hin1 & Hall).
    destruct (ActionRun_declined _ _ Ha Hin1) as (Hik & Ha0 & Hevs1 & _ & Hc).
    simpl in Hik. subst k a0 evs1. simpl in Hall.
    assert (Honly : forall e, In e evs -> eventIndex e = Some i ->
                              e = EvConfirm i a (Ok false)).
    { intros e He Hidx. destruct (Hall e He Hidx) as [<- | []]. reflexivity. }
    split; [exact Hk | split; [exact Honly | split]].
    + intros sig Hsig.
      destruct (signedAt_In _ _ _ Hsig) as (e & He & Hidx & Hcall).
      rewrite (Honly e He Hidx) in Hcall. discriminate.
    + intros a' Hnext.
      apply (PlanRun_continues Hrun _ _ Hin).
      rewrite Nat.sub_0_r. exact Hnext.
  - intros sigs Hr. rewrite (PlanRun_signed Hrun Hr). reflexivity.
  - intros Hc. split; [auto |]. split.
    + apply (PlanRun_no_confirm Hc Hrun).
    + intros sigs Hr. rewrite (PlanRun_default_count Hc Hrun Hr). reflexivity.
Qed.

End ExecuteClaims.

(** Under the empty policy the plan of two transfers and a swap is refused
    before anything is asked of the world. *)
Lemma execute_refuses_violating_plan_witness :
  execute Demo.env (Demo.withPolicy emptyPolicy)
    (Demo.plan [TransferSol "alice" "5"; SwapJupiter "A" "B" "7" None None;
                TransferSol "bob" "1"]) Demo.start
  = (Demo.start,
     Throw (Error (violationMessage
       [mkPolicyViolation "actions[0].to" "Recipient is not allowlisted";
        mkPolicyViolation "actions[1].inputMint" "inputMint is not allowlisted";
        mkPolicyViolation "actions[1].outputMint" "outputMint is not allowlisted";
        mkPolicyViolation "actions[2].to" "Recipient is not allowlisted"]))).
Proof.
  apply (@execute_refuses_violating_plan Demo.W Demo.env (Demo.withPolicy emptyPolicy)
           (Demo.plan [TransferSol "alice" "5"; SwapJupiter "A" "B" "7" None None;
                       TransferSol "bob" "1"])
           [mkPolicyViolation "actions[0].to" "Recipient is not allowlisted";
            mkPolicyViolation "actions[1].inputMint" "inputMint is not allowlisted";
            mkPolicyViolation "actions[1].outputMint" "outputMint is not allowlisted";
            mkPolicyViolation "actions[2].to" "Recipient is not allowlisted"]
           Demo.start).
  - reflexivity.
  - discriminate.
Defined.

(** A swap without slippage passes a policy whose cap is 10 basis points,
    and the quote asked for it carries 50. *)
Lemma absent_slippage_unchecked_and_defaulted_witness :
  validatePlanPolicy (Demo.plan [SwapJupiter "A" "B" "7" None None])
    (mkAgentPolicy None None None None (Some true) None (Some 10)) = Ok []
  /\ exists evs q,
       trace (fst (execute Demo.env Demo.bare
                     (Demo.plan [SwapJupiter "A" "B" "7" None None]) Demo.start))
       = (trace Demo.start ++ evs)%list
       /\ In (EvGetJupiterQuote 0 (mkJupiterQuoteParams "A" "B" "7" (Some 50) None) (Ok q))
             evs.
Proof.
  split; [reflexivity |].
  destruct (@absent_slippage_unchecked_and_defaulted Demo.W Demo.env Demo.bare
              (Demo.plan [SwapJupiter "A" "B" "7" None None]) 0 "A" "B" "7" None eq_refl)
    as (_ & _ & Hrun).
  destruct (Hrun Demo.start
              (fst (execute Demo.env Demo.bare
                      (Demo.plan [SwapJupiter "A" "B" "7" None None]) Demo.start))
              (Ok ["sig0"]) eq_refl)
    as (evs & Ht & _ & Hasked).
  exists evs.
  destruct (Hasked ["sig0"] eq_refl) as [q Hq].
  - intros Hin.
    assert (Hall : In (EvConfirm 0 (SwapJupiter "A" "B" "7" None None) (Ok false))
                      (trace Demo.start ++ evs)%list)
      by (apply in_or_app; right; exact Hin).
    rewrite <- Ht in Hall. simpl in Hall.
    repeat (destruct Hall as [Hall | Hall]; [discriminate Hall |]). exact Hall.
  - exists q. split; [exact Ht | exact Hq].
Defined.

(** An agent that confirms transfers only, on a transfer, a swap, a no-op
    and a transfer: the swap at position 1 is declined, so no signature
    belongs to it, and the run goes on to the end. *)
Lemma confirmation_gates_each_action_witness :
  exists evs,
    trace (fst (execute Demo.env Demo.transfersOnly
                  (Demo.plan [TransferSol "alice" "5"; SwapJupiter "A" "B" "7" None None;
                              Noop None; TransferSol "bob" "1"]) Demo.start))
    = (trace Demo.start ++ evs)%list
    /\ (forall sig, ~ In (1%nat, sig) (signedAt evs))
    /\ map snd (signedAt evs) = ["sig0"; "sig1"].
Proof.
  destruct (@confirmation_gates_each_action Demo.W Demo.env Demo.transfersOnly
              (Demo.plan [TransferSol "alice" "5"; SwapJupiter "A" "B" "7" None None;
                          Noop None; TransferSol "bob" "1"])
              Demo.start
              (fst (execute Demo.env Demo.transfersOnly
                      (Demo.plan [TransferSol "alice" "5";
                                  SwapJupiter "A" "B" "7" None None;
                                  Noop None; TransferSol "bob" "1"]) Demo.start))
              (Ok ["sig0"; "sig1"]) eq_refl)
    as (evs & Ht & Hdeclined & Hsigs & _).
  exists evs. split; [exact Ht | split].
  - assert (Hin : In (EvConfirm 1 (SwapJupiter "A" "B" "7" None None) (Ok false)) evs).
    { vm_compute in Ht. rewrite <- Ht. simpl. auto. }
    destruct (Hdeclined _ _ Hin) as (_ & _ & Hnone & _). exact Hnone.
  - symmetry. apply Hsigs. reflexivity.
Defined.

(** The run of the specification's example: a transfer, a swap that fails
    when it is submitted, another transfer. *)
Lemma execute_aborts_at_failing_action_witness :
  execute Demo.env Demo.bare
    (Demo.plan [TransferSol "alice" "5"; SwapJupiter "A" "BAD" "7" None None;
                TransferSol "bob" "1"]) Demo.start
  = (mkState 1%nat
       [EvTransferSol 0 "alice" 5 (Ok "sig0");
        EvGetJupiterQuote 1 (mkJupiterQuoteParams "A" "BAD" "7" (Some 50) None)
          (Ok (mkJupiterQuoteResponse "A" "BAD" "7" "7" 50 ExactIn));
        EvExecuteJupiterSwap 1 (mkJupiterQuoteResponse "A" "BAD" "7" "7" 50 ExactIn)
          (Throw (Error "Jupiter /swap failed: 400 Bad Request"))],
     Throw (Error "Jupiter /swap failed: 400 Bad Request")).
Proof.
  apply (@execute_aborts_at_failing_action Demo.W Demo.env Demo.bare
           (Demo.plan [TransferSol "alice" "5"; SwapJupiter "A" "BAD" "7" None None;
                       TransferSol "bob" "1"])
           [TransferSol "alice" "5"] [TransferSol "bob" "1"]
           (SwapJupiter "A" "BAD" "7" None None)
           Demo.start
           (mkState 1%nat [EvTransferSol 0 "alice" 5 (Ok "sig0")])
           _ ["sig0"] (Error "Jupiter /swap failed: 400 Bad Request"));
    reflexivity.
Defined.

(** C1, as the specification states it, fails.  The two plans below fail
    at different positions, 1 and 0, the first after a transfer that went
    through with signature ["sig0"], the second before anything was
    signed; [execute] rejects both with the same error and nothing else,
    so nothing the caller receives tells the position or the signature. *)
Lemma execute_error_carries_no_index_nor_signatures :
  let failsSecond :=
    Demo.plan [TransferSol "alice" "5"; SwapJupiter "A" "BAD" "7" None None;
               TransferSol "bob" "1"] in
  let failsFirst :=
    Demo.plan [SwapJupiter "A" "BAD" "7" None None; TransferSol "alice" "5";
               TransferSol "bob" "1"] in
  let run1 := execute Demo.env Demo.bare failsSecond Demo.start in
  let run2 := execute Demo.env Demo.bare failsFirst Demo.start in
  snd run1 = Throw (Error "Jupiter /swap failed: 400 Bad Request")
  /\ snd run2 = Throw (Error "Jupiter /swap failed: 400 Bad Request")
  /\ signedAt (trace (fst run1)) = [(0%nat, "sig0")]
  /\ signedAt (trace (fst run2)) = []
  /\ ~ (exists report : Result (list TransactionSignature)
                        -> nat * list TransactionSignature,
          report (snd run1) = (1%nat, ["sig0"]) /\ report (snd run2) = (0%nat, [])).
Proof.
  repeat split.
  intros (report & H1 & H2).
  change (snd (execute Demo.env Demo.bare
                 (Demo.plan [SwapJupiter "A" "BAD" "7" None None; TransferSol "alice" "5";
                             TransferSol "bob" "1"]) Demo.start))
    with (snd (execute Demo.env Demo.bare
                 (Demo.plan [TransferSol "alice" "5"; SwapJupiter "A" "BAD" "7" None None;
                             TransferSol "bob" "1"]) Demo.start)) in H2.
  rewrite H1 in H2. discriminate H2.
Qed.

(** * Plan source *)

Lemma lookup_assign k v props : Js.lookup k (Js.assign k v props) = Some v.
Proof.
  induction props as [| [k' v'] props IH]; simpl.
  - rewrite String.eqb_refl. reflexivity.
  - destruct (String.eqb k k') eqn:E; simpl; rewrite E; [reflexivity | exact IH].
Qed.

Lemma lookup_assign_other k k' v props :
  k' <> k -> Js.lookup k' (Js.assign k v props) = Js.lookup k' props.
Proof.
  intros Hne. induction props as [| [k0 v0] props IH]; simpl.
  - destruct (String.eqb_spec k' k); [contradiction | reflexivity].
  - destruct (String.eqb_spec k k0) as [-> | Hk]; simpl.
    + destruct (String.eqb_spec k' k0); [contradiction | reflexivity].
    + rewrite IH. reflexivity.
Qed.

Lemma get_set o k v :
  Js.notAnObject o = false -> Js.get (Js.set o k v) k = Some v.
Proof.
  destruct o; simpl; try discriminate; intros _; apply lookup_assign.
Qed.

Lemma get_set_other o k k' v :
  k' <> k -> Js.get (Js.set o k v) k' = Js.get o k'.
Proof.
  intros Hne. destruct o; simpl; try reflexivity; apply lookup_assign_other; assumption.
Qed.

Lemma notAnObject_set o k v : Js.notAnObject (Js.set o k v) = Js.notAnObject o.
Proof. destruct o; reflexivity. Qed.

(** For a count [m], [slice(0, m)] keeps the first [m] entries. *)
Lemma slice0_firstn (A : Type) (xs : list A) (m : Z) :
  0 <= m -> Js.slice0 xs m = firstn (Z.to_nat m) xs.
Proof.
  intros Hm. unfold Js.slice0.
  replace (m <? 0) with false by (symmetry; apply Z.ltb_ge; lia).
  destruct (Z.le_gt_cases m (Z.of_nat (List.length xs))) as [Hle | Hgt].
  - rewrite Z.min_l by lia. reflexivity.
  - rewrite Z.min_r by lia. rewrite Nat2Z.id.
    rewrite firstn_all. symmetry. apply firstn_all2. lia.
Qed.

(** For any integer [m], [slice(0, m)] keeps a first part: the first [m]
    entries for a count, all but the last [-m] for a negative [m]. *)
Lemma slice0_spec (A : Type) (xs : list A) (m : Z) :
  Js.slice0 xs m
  = firstn (if 0 <=? m then Z.to_nat m
            else (List.length xs - Z.to_nat (- m))%nat) xs.
Proof.
  destruct (0 <=? m) eqn:Hm.
  - apply slice0_firstn. apply Z.leb_le. exact Hm.
  - apply Z.leb_gt in Hm. unfold Js.slice0.
    replace (m <? 0) with true by (symmetry; apply Z.ltb_lt; exact Hm).
    f_equal. lia.
Qed.

Section ProposeClaims.

Variable W : Type.
Variable env : Collaborators W.

(** The schema hint is plain text all through. *)
Lemma jsonStringify_schemaHint :
  jsonStringify env schemaHint = Ok (stringify env schemaHint).
Proof. reflexivity. Qed.

(** The prompt can be built exactly when the context can be serialised;
    otherwise building it throws the [TypeError] of [JSON.stringify]. *)
Lemma createJsonParams_Ok goal context m p :
  createJsonParams env goal context m = Ok p ->
  Js.serialisable (match context with Some c => c | None => JsObject [] end) = true
  /\ cj_maxTokens p = 900 /\ cj_temperature p = 0.
Proof.
  unfold createJsonParams, jsonStringify.
  destruct (Js.serialisable (match context with Some c => c | None => JsObject [] end));
    [| discriminate].
  change (Js.serialisable schemaHint) with true. cbv iota.
  intros H. inversion H; subst. auto.
Qed.

Lemma createJsonParams_serialisable goal context m :
  Js.serialisable (match context with Some c => c | None => JsObject [] end) = true ->
  exists p, createJsonParams env goal context m = Ok p.
Proof.
  intros H. unfold createJsonParams, jsonStringify. rewrite H.
  change (Js.serialisable schemaHint) with true. cbv iota. eauto.
Qed.


(** C10: when the prompt could be built, the inference client answers
    with the parsed value [v] and [cap] is the cap in force ([maxActions],
    or 3), [proposePlan] returns a plan and raises no error.  If [v] is
    neither an object nor an array, the plan is the literal plan of the
    given goal with the summary ['Invalid plan'] and the single no-op.
    Otherwise the plan is [v] with its [actions] replaced, its other
    properties kept: when [actions] is an array, by a first part of it in
    its order, the first [cap] entries for a cap that is a count and all
    but the last [-cap] for a negative cap; when [actions] is not an
    array, by the single no-op cut like any other list, which leaves the
    single no-op for a cap of at least 1 and no action at all for a
    smaller cap. *)
Theorem proposePlan_normalises
    (client : AnthropicClient W) (policy : option AgentPolicy)
    (jupiter : option JupiterClientOptions)
    (confirm : option (AgentAction -> Effect W bool))
    (goal : string) (context : option JsValue) (maxActions : option Z) (cap : Z)
    (st : State W) (w' : W) (p : CreateJsonParams) (v : JsValue) :
  cap = match maxActions with Some m => m | None => 3 end ->
  createJsonParams env goal context cap = Ok p ->
  createJson client p (world st) = (w', Ok v) ->
  exists plan',
    proposePlan env (mkClaudeAgent (Some client) policy jupiter confirm)
      goal context maxActions st
    = (mkState w' (trace st ++ [EvCreateJson p (Ok v)]), Ok plan')
    /\ ((forall props, v <> JsObject props) ->
        (forall elems props, v <> JsArray elems props) ->
        plan' = JsObject [("goal", JsString goal);
                          ("summary", JsString "Invalid plan");
                          ("actions", JsArray [JsObject [("type", JsString "noop")]] [])])
    /\ ((exists props, v = JsObject props) \/ (exists elems props, v = JsArray elems props) ->
        (forall elems props, Js.get v "actions" <> Some (JsArray elems props)) ->
        Js.get plan' "actions"
        = Some (JsArray (if 1 <=? cap then [JsObject [("type", JsString "noop")]] else [])
                  []))
    /\ ((exists props, v = JsObject props) \/ (exists elems props, v = JsArray elems props) ->
        forall elems props,
          Js.get v "actions" = Some (JsArray elems props) ->
          Js.get plan' "actions"
          = Some (JsArray
                    (firstn (if 0 <=? cap then Z.to_nat cap
                             else (List.length elems - Z.to_nat (- cap))%nat) elems) []))
    /\ ((exists props, v = JsObject props) \/ (exists elems props, v = JsArray elems props) ->
        forall k, k <> "actions" -> Js.get plan' k = Js.get v k).
Proof.
  intros Hcap Hp Hcall. subst cap.
  change (match maxActions with Some m => m | None => 3 end)
    with (maxActionsOr3 maxActions) in *.
  unfold proposePlan, bind, lift, perform. cbn [anthropic].
  rewrite Hp, Hcall.
  assert (Hshape : forall u,
            ((exists props, u = JsObject props)
             \/ (exists elems props, u = JsArray elems props))
            -> Js.notAnObject u = false).
  { intros u [[props ->] | (elems & props & ->)]; reflexivity. }
  destruct (Js.notAnObject v) eqn:Hobj.
  - eexists. split; [reflexivity |].
    split; [reflexivity |].
    repeat split; intros Hv; apply Hshape in Hv; rewrite Hv in Hobj; discriminate.
  - eexists. split; [reflexivity |].
    split.
    { intros Hno Hna. destruct v; try discriminate Hobj.
      - exfalso. eapply Hna. reflexivity.
      - exfalso. eapply Hno. reflexivity. }
    split; [| split].
    + intros _ Hnarr.
      assert (Harr : isArray (Js.get v "actions") = false).
      { destruct (Js.get v "actions") as [[] |]; try reflexivity.
        exfalso. eapply Hnarr. reflexivity. }
      rewrite Harr. cbn [negb].
      rewrite get_set by (rewrite notAnObject_set; exact Hobj).
      rewrite get_set by exact Hobj. cbn [elements].
      rewrite slice0_spec. cbn [List.length].
      destruct (1 <=? maxActionsOr3 maxActions) eqn:H1.
      * apply Z.leb_le in H1.
        replace (0 <=? maxActionsOr3 maxActions) with true
          by (symmetry; apply Z.leb_le; lia).
        destruct (Z.to_nat (maxActionsOr3 maxActions)) as [| n] eqn:En; [lia |].
        simpl. rewrite firstn_nil. reflexivity.
      * apply Z.leb_gt in H1.
        destruct (0 <=? maxActionsOr3 maxActions) eqn:H0.
        -- apply Z.leb_le in H0.
           replace (Z.to_nat (maxActionsOr3 maxActions)) with 0%nat by lia. reflexivity.
        -- apply Z.leb_gt in H0.
           replace (1 - Z.to_nat (- maxActionsOr3 maxActions))%nat with 0%nat by lia.
           reflexivity.
    + intros _ elems props Hget. rewrite Hget. cbn [isArray negb].
      rewrite get_set by exact Hobj. rewrite Hget. cbn [elements].
      rewrite slice0_spec. reflexivity.
    + intros _ k Hk.
      destruct (negb (isArray (Js.get v "actions")));
        rewrite !get_set_other by exact Hk; reflexivity.
Qed.

End ProposeClaims.

(** The cap 2 on an answer that proposes five actions. *)
Lemma proposePlan_normalises_witness :
  exists plan',
    snd (proposePlan Demo.env
           (Demo.answering
              (JsObject [("goal", JsString "g");
                         ("actions", JsArray [JsNumber 1; JsNumber 2; JsNumber 3;
                                              JsNumber 4; JsNumber 5] [])]))
           "goal" None (Some 2) Demo.start) = Ok plan'
    /\ Js.get plan' "actions" = Some (JsArray [JsNumber 1; JsNumber 2] []).
Proof.
  destruct (@proposePlan_normalises Demo.W Demo.env
              (mkAnthropicClient (fun _ w => (w, Ok
                 (JsObject [("goal", JsString "g");
                            ("actions", JsArray [JsNumber 1; JsNumber 2; JsNumber 3;
                                                 JsNumber 4; JsNumber 5] [])]))))
              None None None "goal" None (Some 2) 2 Demo.start 0%nat
              (match createJsonParams Demo.env "goal" None 2 with
               | Ok p => p
               | Throw _ => mkCreateJsonParams "" "" 0 0
               end)
              (JsObject [("goal", JsString "g");
                         ("actions", JsArray [JsNumber 1; JsNumber 2; JsNumber 3;
                                              JsNumber 4; JsNumber 5] [])])
              eq_refl eq_refl eq_refl)
    as (plan' & Hrun & _ & _ & Harr & _).
  exists plan'. split.
  - unfold Demo.answering. rewrite Hrun. reflexivity.
  - apply (Harr (or_introl (ex_intro _ _ eq_refl)) _ [] eq_refl).
Defined.

(** With the cap 0 an answer whose [actions] is not an array yields a
    plan without any action, not the single no-op; with the cap -1 an
    answer of five actions keeps four of them, not the first -1; and a
    context that holds a [bigint] makes [proposePlan] throw before the
    inference client is called. *)
Lemma proposePlan_caps_below_one :
  snd (proposePlan Demo.env
         (Demo.answering (JsObject [("goal", JsString "g"); ("actions", JsString "none")]))
         "g" None (Some 0) Demo.start)
  = Ok (JsObject [("goal", JsString "g"); ("actions", JsArray [] [])])
  /\ snd (proposePlan Demo.env
            (Demo.answering
               (JsObject [("actions", JsArray [JsNumber 1; JsNumber 2; JsNumber 3;
                                               JsNumber 4; JsNumber 5] [])]))
            "g" None (Some (-1)) Demo.start)
     = Ok (JsObject [("actions", JsArray [JsNumber 1; JsNumber 2; JsNumber 3;
                                          JsNumber 4] [])])
  /\ proposePlan Demo.env (Demo.answering (JsObject []))
       "g" (Some (JsObject [("balance", JsBigInt 5)])) None Demo.start
     = (Demo.start, Throw (TypeError "Do not know how to serialize a BigInt")).
Proof. repeat split. Qed.

(** * Further properties of the policy engine *)

Lemma exceeds_false_iff n limit :
  exceeds n limit = false <-> (forall m, limit = Some m -> n <= m).
Proof.
  unfold exceeds. destruct limit as [m |].
  - rewrite Z.ltb_ge. split.
    + intros H m' Hm. inversion Hm; subst. exact H.
    + intros H. apply H. reflexivity.
  - split; [intros _ m Hm; discriminate | reflexivity].
Qed.

Lemma pushIf_nil cond v : pushIf cond v = [] <-> cond = false.
Proof. destruct cond; simpl; split; intros H; try reflexivity; discriminate. Qed.

Lemma app_nil_iff (A : Type) (xs ys : list A) :
  (xs ++ ys)%list = [] <-> xs = [] /\ ys = [].
Proof.
  split.
  - apply app_eq_nil.
  - intros [-> ->]. reflexivity.
Qed.

(** What a transfer that passes has gone through. *)
Lemma transfer_accepted_inv policy to lamports pth :
  validateActionPolicy (TransferSol to lamports) policy pth = Ok [] ->
  exists n,
    BigInt lamports = Ok n
    /\ recipientAllowed policy to = true
    /\ (forall m, maxTransferLamports policy = Some m -> n <= m).
Proof.
  simpl. unfold recipientAllowed.
  destruct (BigInt lamports) as [n | e]; [| discriminate].
  intros H. inversion H as [Hnil]. apply app_nil_iff in Hnil as [H1 H2].
  apply pushIf_nil in H2. pose proof (proj1 (exceeds_false_iff _ _) H2) as Hle.
  exists n. split; [reflexivity | split; [| exact Hle]].
  destruct (truthy (allowAllTransfers policy)); [reflexivity |].
  simpl in H1. apply pushIf_nil in H1. apply negb_false_iff in H1. exact H1.
Qed.

(** The allowlist check of a recipient, spelt out. *)
Lemma recipientAllowed_iff policy to :
  recipientAllowed policy to = true
  <-> allowAllTransfers policy = Some true
      \/ exists entry,
           In entry (match allowedRecipients policy with Some l => l | None => [] end)
           /\ JsString.trim entry = JsString.trim to.
Proof.
  unfold recipientAllowed, has, trimmedSet. rewrite orb_true_iff. split.
  - intros [Ht | Hh].
    + left. destruct (allowAllTransfers policy) as [[] |]; try discriminate.
      reflexivity.
    + right. apply existsb_exists in Hh as (y & Hy & Heq).
      apply String.eqb_eq in Heq. apply in_map_iff in Hy as (entry & He & Hin).
      exists entry. split; [exact Hin | congruence].
  - intros [Ht | (entry & Hin & Heq)].
    + left. rewrite Ht. reflexivity.
    + right. apply existsb_exists. exists (JsString.trim entry). split.
      * apply in_map. exact Hin.
      * apply String.eqb_eq. symmetry. exact Heq.
Qed.

(** X1: a transfer passes the policy exactly when [BigInt] reads its
    amount as some integer, its recipient is let through, and that integer
    does not exceed [maxTransferLamports] when one is set.  The recipient
    is let through when [allowAllTransfers] is [true] or when some entry
    of [allowedRecipients] equals it once both are trimmed; nothing asks
    either of them to be non-empty, so a blank recipient passes on a blank
    entry. *)
Theorem transfer_accepted_iff
    (policy : AgentPolicy) (to lamports pth : string) :
  validateActionPolicy (TransferSol to lamports) policy pth = Ok []
  <-> exists n,
        BigInt lamports = Ok n
        /\ (allowAllTransfers policy = Some true
            \/ exists entry,
                 In entry
                    (match allowedRecipients policy with Some l => l | None => [] end)
                 /\ JsString.trim entry = JsString.trim to)
        /\ (forall m, maxTransferLamports policy = Some m -> n <= m).
Proof.
  split.
  - intros H. destruct (transfer_accepted_inv _ _ _ _ H) as (n & Hn & Hrec & Hmax).
    exists n. split; [exact Hn |]. split; [| exact Hmax].
    apply recipientAllowed_iff. exact Hrec.
  - simpl.
    intros (n & -> & Hrec & Hmax).
    apply recipientAllowed_iff in Hrec. unfold recipientAllowed in Hrec.
    apply (proj2 (exceeds_false_iff _ _)) in Hmax. rewrite Hmax.
    destruct (truthy (allowAllTransfers policy)); simpl in *; [reflexivity |].
    rewrite Hrec. reflexivity.
Qed.

(** What a swap that passes has gone through. *)
Lemma swap_accepted_inv policy inputMint outputMint amount slippage mode pth :
  validateActionPolicy (SwapJupiter inputMint outputMint amount slippage mode) policy pth
  = Ok [] ->
  exists n,
    BigInt amount = Ok n
    /\ (truthy (allowAllSwaps policy) = true
        \/ (mintAllowed policy inputMint = true /\ mintAllowed policy outputMint = true))
    /\ (forall m, maxSwapAmount policy = Some m -> n <= m)
    /\ (forall s m, slippage = Some s -> maxSlippageBps policy = Some m -> s <= m).
Proof.
  simpl. unfold mintAllowed.
  destruct (BigInt amount) as [n | e]; [| discriminate].
  intros H. inversion H as [Hnil].
  apply app_nil_iff in Hnil as [H1 H23]. apply app_nil_iff in H23 as [H2 H3].
  apply pushIf_nil in H2. pose proof (proj1 (exceeds_false_iff _ _) H2) as Hle.
  exists n. split; [reflexivity | split; [| split; [exact Hle |]]].
  - destruct (truthy (allowAllSwaps policy)); [left; reflexivity | right].
    simpl in H1. apply app_nil_iff in H1 as [Hi Ho].
    apply pushIf_nil in Hi, Ho. apply negb_false_iff in Hi, Ho. auto.
  - intros s m -> Hm. rewrite Hm in H3. apply pushIf_nil in H3.
    apply Z.ltb_ge in H3. exact H3.
Qed.

(** X2: a swap passes the policy exactly when [BigInt] reads its amount
    as some integer, both mints are let through (by [allowAllSwaps] or
    each by the allowlist), that integer does not exceed [maxSwapAmount]
    when one is set, and the slippage the action carries, if any, does not
    exceed [maxSlippageBps] when one is set. *)
Theorem swap_accepted_iff
    (policy : AgentPolicy) (inputMint outputMint amount pth : string)
    (slippage : option Z) (mode : option JupiterSwapMode) :
  validateActionPolicy (SwapJupiter inputMint outputMint amount slippage mode) policy pth
  = Ok []
  <-> exists n,
        BigInt amount = Ok n
        /\ (truthy (allowAllSwaps policy) = true
            \/ (mintAllowed policy inputMint = true
                /\ mintAllowed policy outputMint = true))
        /\ (forall m, maxSwapAmount policy = Some m -> n <= m)
        /\ (forall s m, slippage = Some s -> maxSlippageBps policy = Some m -> s <= m).
Proof.
  split.
  - apply swap_accepted_inv.
  - simpl. unfold mintAllowed.
    intros (n & -> & Hmints & Hmax & Hslip).
    apply (proj2 (exceeds_false_iff _ _)) in Hmax. rewrite Hmax.
    assert (H1 : (if negb (truthy (allowAllSwaps policy))
                  then
                    (pushIf (negb (has (trimmedSet (allowedMints policy))
                                       (JsString.trim inputMint)))
                       (mkPolicyViolation (pth ++ ".inputMint")
                          "inputMint is not allowlisted")
                     ++ pushIf (negb (has (trimmedSet (allowedMints policy))
                                         (JsString.trim outputMint)))
                          (mkPolicyViolation (pth ++ ".outputMint")
                             "outputMint is not allowlisted"))%list
                  else []) = []).
    { destruct Hmints as [-> | [-> ->]]; [reflexivity |].
      destruct (negb (truthy (allowAllSwaps policy))); reflexivity. }
    rewrite H1. simpl.
    destruct slippage as [s |]; [| reflexivity].
    destruct (maxSlippageBps policy) as [m |]; [| reflexivity].
    specialize (Hslip s m eq_refl eq_refl).
    replace (m <? s) with false by (symmetry; apply Z.ltb_ge; exact Hslip).
    reflexivity.
Qed.

(** Whether an action passes does not depend on the path it is reported
    under. *)
Lemma accepted_any_path policy a pth pth' :
  validateActionPolicy a policy pth = Ok [] ->
  validateActionPolicy a policy pth' = Ok [].
Proof.
  destruct a as [reason | to lamports | im om am sl md]; simpl.
  - intros _. reflexivity.
  - destruct (BigInt lamports) as [n | e]; [| discriminate].
    destruct (negb (truthy (allowAllTransfers policy)));
      destruct (negb (has (trimmedSet (allowedRecipients policy)) (JsString.trim to)));
      destruct (exceeds n (maxTransferLamports policy));
      simpl; intros H; try discriminate H; reflexivity.
  - destruct (BigInt am) as [n | e]; [| discriminate].
    destruct (negb (truthy (allowAllSwaps policy)));
      destruct (negb (has (trimmedSet (allowedMints policy)) (JsString.trim im)));
      destruct (negb (has (trimmedSet (allowedMints policy)) (JsString.trim om)));
      destruct (exceeds n (maxSwapAmount policy));
      destruct sl as [s |]; destruct (maxSlippageBps policy) as [m |];
      try destruct (m <? s);
      simpl; intros H; try discriminate H; reflexivity.
Qed.

Lemma validateFrom_accepts_iff policy rest : forall i,
  validateFrom policy i rest [] = Ok []
  <-> Forall (fun a => forall pth, validateActionPolicy a policy pth = Ok []) rest.
Proof.
  induction rest as [| a rest IH]; intros i; simpl.
  - split; [constructor | reflexivity].
  - split.
    + destruct (validateActionPolicy a policy (actionPath i)) as [va | e] eqn:Ea;
        [| discriminate].
      rewrite validateFrom_acc.
      destruct (validateFrom policy (S i) rest []) as [vs' | e] eqn:Er; [| discriminate].
      intros H. inversion H as [Hnil]. apply app_nil_iff in Hnil as [-> ->].
      constructor.
      * intros pth. apply (accepted_any_path _ _ _ pth Ea).
      * apply (IH (S i)). exact Er.
    + intros H. inversion H as [| a' rest' Ha Hrest]; subst.
      rewrite (Ha (actionPath i)). simpl. apply IH. exact Hrest.
Qed.

(** X3: a plan passes the policy, that is [validatePlanPolicy] returns
    the empty list, exactly when each of its actions passes on its own. *)
Theorem plan_accepted_iff (plan : AgentPlan) (policy : AgentPolicy) :
  validatePlanPolicy plan policy = Ok []
  <-> Forall (fun a => forall pth, validateActionPolicy a policy pth = Ok [])
             (actions plan).
Proof.
  unfold validatePlanPolicy. split; intros H.
  - apply (proj1 (validateFrom_accepts_iff policy (actions plan) 0)). exact H.
  - apply (proj2 (validateFrom_accepts_iff policy (actions plan) 0)). exact H.
Qed.

Lemma validateFrom_app policy l1 : forall l2 i v,
  validateFrom policy i (l1 ++ l2) v =
  match validateFrom policy i l1 v with
  | Ok v1 => validateFrom policy (i + List.length l1) l2 v1
  | Throw e => Throw e
  end.
Proof.
  induction l1 as [| a l1 IH]; intros l2 i v; simpl.
  - rewrite Nat.add_0_r. reflexivity.
  - destruct (validateActionPolicy a policy (actionPath i)) as [va | e]; [| reflexivity].
    rewrite IH, Nat.add_succ_r. reflexivity.
Qed.

(** X4: the violations of a plan are those of any first part of it
    followed by those of the rest, the rest being numbered from where the
    first part ends; nothing is merged, reordered or cut short.  An amount
    that does not parse in the first part makes the whole throw that
    error. *)
Theorem violations_accumulate_in_order
    (g : string) (s : option string) (l1 l2 : list AgentAction) (policy : AgentPolicy) :
  validatePlanPolicy (mkAgentPlan g s (l1 ++ l2)) policy =
  match validatePlanPolicy (mkAgentPlan g s l1) policy with
  | Throw e => Throw e
  | Ok v1 =>
      match validateFrom policy (List.length l1) l2 [] with
      | Ok v2 => Ok (v1 ++ v2)%list
      | Throw e => Throw e
      end
  end.
Proof.
  unfold validatePlanPolicy. simpl. rewrite validateFrom_app. simpl.
  destruct (validateFrom policy 0 l1 []) as [v1 | e]; [| reflexivity].
  apply validateFrom_acc.
Qed.

Lemma action_violation_shape policy a pth va v :
  validateActionPolicy a policy pth = Ok va ->
  In v va ->
  (exists to lamports,
     a = TransferSol to lamports
     /\ (v = recipientViolation pth \/ v = lamportsViolation pth))
  \/ (exists im om am sl md,
        a = SwapJupiter im om am sl md
        /\ (v = inputMintViolation pth \/ v = outputMintViolation pth
            \/ v = swapAmountViolation pth \/ v = slippageViolation pth)).
Proof.
  intros H Hin. destruct a as [reason | to lamports | im om am sl md]; simpl in H.
  - inversion H; subst. contradiction.
  - left. exists to, lamports. split; [reflexivity |].
    destruct (BigInt lamports); [| discriminate]. inversion H; subst va.
    apply in_app_or in Hin as [Hin | Hin].
    + destruct (negb (truthy (allowAllTransfers policy))); [| contradiction].
      unfold pushIf in Hin. destruct (negb _); [| contradiction].
      destruct Hin as [<- | []]. left. reflexivity.
    + unfold pushIf in Hin. destruct (exceeds _ _); [| contradiction].
      destruct Hin as [<- | []]. right. reflexivity.
  - right. exists im, om, am, sl, md. split; [reflexivity |].
    destruct (BigInt am); [| discriminate]. inversion H; subst va.
    apply in_app_or in Hin as [Hin | Hin].
    { destruct (negb (truthy (allowAllSwaps policy))); [| contradiction].
      apply in_app_or in Hin as [Hin | Hin];
        unfold pushIf in Hin; destruct (negb _); try contradiction;
        destruct Hin as [<- | []]; [left | right; left]; reflexivity. }
    apply in_app_or in Hin as [Hin | Hin].
    { unfold pushIf in Hin. destruct (exceeds _ _); [| contradiction].
      destruct Hin as [<- | []]. right. right. left. reflexivity. }
    destruct sl as [s |]; [| contradiction].
    destruct (maxSlippageBps policy) as [m |]; [| contradiction].
    unfold pushIf in Hin. destruct (m <? s); [| contradiction].
    destruct Hin as [<- | []]. right. right. right. reflexivity.
Qed.

(** X5: every violation [validatePlanPolicy] returns is about one action
    of the plan and one field of it: its path is [actions[i]] followed by
    [.to] or [.lamports] when action [i] is a transfer, and by
    [.inputMint], [.outputMint], [.amount] or [.slippageBps] when it is a
    swap; no violation is ever reported for a no-op. *)
Theorem violations_name_an_action_and_field
    (plan : AgentPlan) (policy : AgentPolicy) (vs : list PolicyViolation)
    (v : PolicyViolation) :
  validatePlanPolicy plan policy = Ok vs ->
  In v vs ->
  exists i,
    (exists to lamports,
       nth_error (actions plan) i = Some (TransferSol to lamports)
       /\ (v = recipientViolation (actionPath i) \/ v = lamportsViolation (actionPath i)))
    \/ (exists im om am sl md,
          nth_error (actions plan) i = Some (SwapJupiter im om am sl md)
          /\ (v = inputMintViolation (actionPath i)
              \/ v = outputMintViolation (actionPath i)
              \/ v = swapAmountViolation (actionPath i)
              \/ v = slippageViolation (actionPath i))).
Proof.
  unfold validatePlanPolicy. intros Hvs Hin.
  destruct (validateFrom_origin _ _ _ _ _ Hvs Hin) as [[] | (k & a & va & Hk & Hva & Hx)].
  simpl in Hva. exists k.
  destruct (@action_violation_shape _ _ _ _ v Hva Hx)
    as [(to & l & -> & Hv) | (im & om & am & sl & md & -> & Hv)].
  - left. eauto.
  - right. eauto 8.
Qed.

Lemma violations_name_an_action_and_field_witness :
  exists i,
    (exists to lamports,
       nth_error [Noop None; TransferSol "bob" "7"] i = Some (TransferSol to lamports)
       /\ (recipientViolation (actionPath 1) = recipientViolation (actionPath i)
           \/ recipientViolation (actionPath 1) = lamportsViolation (actionPath i)))
    \/ (exists im om am sl md,
          nth_error [Noop None; TransferSol "bob" "7"] i
          = Some (SwapJupiter im om am sl md)
          /\ (recipientViolation (actionPath 1) = inputMintViolation (actionPath i)
              \/ recipientViolation (actionPath 1) = outputMintViolation (actionPath i)
              \/ recipientViolation (actionPath 1) = swapAmountViolation (actionPath i)
              \/ recipientViolation (actionPath 1) = slippageViolation (actionPath i))).
Proof.
  apply (@violations_name_an_action_and_field
           (Demo.plan [Noop None; TransferSol "bob" "7"]) emptyPolicy
           [recipientViolation (actionPath 1)] (recipientViolation (actionPath 1))).
  - reflexivity.
  - left. reflexivity.
Defined.

(** X6: the first amount of a plan that [BigInt] rejects decides the
    outcome: validation throws the error of that amount, whatever actions
    follow it, and the violations found before it are not reported. *)
Theorem first_unparsable_amount_decides
    (g : string) (s : option string) (pre : list AgentAction) (a : AgentAction)
    (policy : AgentPolicy) :
  forallb amountParses pre = true ->
  amountParses a = false ->
  exists msg,
    validateActionPolicy a policy (actionPath (List.length pre)) = Throw (SyntaxError msg)
    /\ forall post,
         validatePlanPolicy (mkAgentPlan g s (pre ++ a :: post)) policy
         = Throw (SyntaxError msg).
Proof.
  intros Hpre Ha.
  destruct (validateActionPolicy_throws policy a (actionPath (List.length pre)) Ha)
    as [msg Hmsg].
  exists msg. split; [exact Hmsg |].
  intros post. unfold validatePlanPolicy. simpl. rewrite validateFrom_app.
  destruct (validateFrom_returns policy pre 0 [] Hpre) as [v1 ->].
  simpl. rewrite Hmsg. reflexivity.
Qed.

Lemma first_unparsable_amount_decides_witness :
  exists msg,
    validateActionPolicy (SwapJupiter "A" "B" "1e3" None None) emptyPolicy (actionPath 1)
    = Throw (SyntaxError msg)
    /\ forall post,
         validatePlanPolicy
           (mkAgentPlan "g" None
              ([TransferSol "bob" "7"] ++ SwapJupiter "A" "B" "1e3" None None :: post))
           emptyPolicy
         = Throw (SyntaxError msg).
Proof.
  apply (@first_unparsable_amount_decides "g" None [TransferSol "bob" "7"]
           (SwapJupiter "A" "B" "1e3" None None) emptyPolicy);
    reflexivity.
Defined.

Lemma has_false_iff allowed x :
  has allowed x = false <-> forall y, In y allowed -> y <> x.
Proof.
  unfold has. split.
  - intros H y Hy ->. 
    assert (Ht : existsb (String.eqb x) allowed = true)
      by (apply existsb_exists; exists x; split; [exact Hy | apply String.eqb_refl]).
    rewrite Ht in H. discriminate.
  - intros H. destruct (existsb (String.eqb x) allowed) eqn:E; [| reflexivity].
    apply existsb_exists in E as (y & Hy & Heq). apply String.eqb_eq in Heq.
    subst y. exfalso. apply (H x Hy). reflexivity.
Qed.

(** X7: when [allowAllTransfers] is not set, a transfer is reported as
    not allowlisted exactly when no entry of [allowedRecipients] equals its
    recipient once both are trimmed: white space around an entry or around
    the recipient does not matter, anything else does. *)
Theorem recipient_allowlist_matches_trimmed
    (policy : AgentPolicy) (to lamports pth : string) (vs : list PolicyViolation) :
  truthy (allowAllTransfers policy) = false ->
  validateActionPolicy (TransferSol to lamports) policy pth = Ok vs ->
  (In (recipientViolation pth) vs
   <-> forall entry,
         In entry (match allowedRecipients policy with Some l => l | None => [] end) ->
         JsString.trim entry <> JsString.trim to).
Proof.
  intros Hall H. simpl in H. rewrite Hall in H. simpl in H.
  destruct (BigInt lamports) as [n | e]; [| discriminate]. inversion H; subst vs.
  assert (Hhas : has (trimmedSet (allowedRecipients policy)) (JsString.trim to) = false
                 <-> forall entry,
                       In entry (match allowedRecipients policy with
                                 | Some l => l | None => [] end) ->
                       JsString.trim entry <> JsString.trim to).
  { rewrite has_false_iff. unfold trimmedSet. split.
    - intros Hn entry Hentry. apply Hn. apply in_map. exact Hentry.
    - intros Hn y Hy. apply in_map_iff in Hy as (entry & <- & Hentry). auto. }
  rewrite <- Hhas. clear Hhas.
  destruct (has (trimmedSet (allowedRecipients policy)) (JsString.trim to)); simpl.
  - split; [| discriminate]. intros Hin.
    unfold pushIf in Hin. destruct (exceeds _ _); [| contradiction].
    destruct Hin as [Hin | []]. discriminate Hin.
  - split; [reflexivity |]. intros _. left. reflexivity.
Qed.

(** The entries ["abc"] and ["abc "] both let the recipient ["abc"]
    through. *)
Lemma recipient_allowlist_matches_trimmed_witness :
  ~ In (recipientViolation (actionPath 0)) []
  /\ validateActionPolicy (TransferSol "abc" "1")
       (mkAgentPolicy (Some ["xyz"; "abc "]) None None None None None None) (actionPath 0)
     = Ok [].
Proof.
  split; [| reflexivity].
  intros Hin.
  apply (proj1 (@recipient_allowlist_matches_trimmed
                  (mkAgentPolicy (Some ["xyz"; "abc "]) None None None None None None)
                  "abc" "1" (actionPath 0) [] eq_refl eq_refl)) with (entry := "abc ") in Hin.
  - apply Hin. reflexivity.
  - right. left. reflexivity.
Defined.

(** * Further properties of the agent *)

Section AgentFacts.

Variable W : Type.
Variable env : Collaborators W.
Variable this : ClaudeAgent W.

(** A run of [execute] that gets past the gate was validated to the empty
    list. *)
Lemma execute_run_validated plan st st' r :
  execute env this plan st = (st', r) ->
  exists evs,
    trace st' = (trace st ++ evs)%list
    /\ ((st' = st /\ evs = [] /\ exists e, r = Throw e)
        \/ (validate this plan = Ok []
            /\ PlanRun env this 0 (actions plan) [] evs r)).
Proof.
  unfold execute, bind, lift.
  destruct (validate this plan) as [[| v vs] | e].
  - intros H. destruct (executeFrom_run _ _ _ _ _ _ H) as (evs & Ht & Hr).
    exists evs. auto.
  - unfold throw. intros H. inversion H; subst.
    exists []. rewrite app_nil_r. split; [reflexivity | left; eauto].
  - intros H. inversion H; subst.
    exists []. rewrite app_nil_r. split; [reflexivity | left; eauto].
Qed.

Lemma validated_action p plan i a :
  validatePlanPolicy plan p = Ok [] ->
  nth_error (actions plan) i = Some a ->
  validateActionPolicy a p (actionPath i) = Ok [].
Proof.
  unfold validatePlanPolicy. intros Hv Hnth.
  destruct (validateFrom_nth _ _ _ _ _ Hv Hnth) as (va & Hva & Hincl).
  simpl in Hva. destruct va as [| x va]; [exact Hva |].
  destruct (Hincl x (or_introl eq_refl)).
Qed.

(** Every event of a run was made by the turn of one action of the
    plan, whose events are all events of the run. *)
Lemma PlanRun_turn_of_event i rest sigs evs r :
  PlanRun env this i rest sigs evs r ->
  forall e, In e evs ->
  exists k a evs1 r1,
    nth_error rest k = Some a
    /\ ActionRun env this (i + k)%nat a evs1 r1
    /\ In e evs1
    /\ (forall e', In e' evs1 -> In e' evs).
Proof.
  induction 1 as [i sigs | i a rest sigs evs1 o evs2 r Ha Hp IH | i a rest sigs evs1 e0 Ha];
    intros e Hin.
  - contradiction.
  - apply in_app_or in Hin as [Hin | Hin].
    + exists 0%nat, a, evs1, (Ok o). rewrite Nat.add_0_r.
      repeat split; auto. intros e' He'. apply in_or_app. left. exact He'.
    + destruct (IH _ Hin) as (k & a' & evs1' & r1 & Hk & Hrun & Hin1 & Hsub).
      exists (S k), a', evs1', r1. rewrite Nat.add_succ_r.
      repeat split; auto. intros e' He'. apply in_or_app. right. auto.
  - exists 0%nat, a, evs1, (Throw e0). rewrite Nat.add_0_r. repeat split; auto.
Qed.

(** A transfer call is made for a transfer, to the key built from its
    recipient as written, with the integer [BigInt] reads in its amount. *)
Lemma ActionRun_transfer i a evs r j pk n res :
  ActionRun env this i a evs r ->
  In (EvTransferSol j pk n res) evs ->
  j = i /\ exists to lamports,
             a = TransferSol to lamports
             /\ newPublicKey env to = Ok pk
             /\ BigInt lamports = Ok n.
Proof.
  intros H Hin. destruct H; confirmed_cases; in_cases Hin;
    inversion Hin; subst; split; eauto.
Qed.

(** A swap is submitted with the quote obtained just before. *)
Lemma ActionRun_swap i a evs r j q res :
  ActionRun env this i a evs r ->
  In (EvExecuteJupiterSwap j q res) evs ->
  j = i /\ exists p, quoteParams a = Some p /\ In (EvGetJupiterQuote i p (Ok q)) evs.
Proof.
  intros H Hin. destruct H; confirmed_cases; in_cases Hin;
    inversion Hin; subst; split; try reflexivity;
    eexists; (split; [eassumption |]); simpl; auto.
Qed.

(** X8: with a policy configured, every ledger transfer [execute] makes
    is one the policy lets through: it is made for a transfer of the plan
    whose recipient passed the allowlist check and whose amount, as
    [BigInt] reads it, does not exceed [maxTransferLamports]; the key is
    built from the recipient as written, not trimmed. *)
Theorem executed_transfers_are_within_policy
    (p : AgentPolicy) (plan : AgentPlan) (st st' : State W)
    (r : Result (list TransactionSignature)) :
  policy this = Some p ->
  execute env this plan st = (st', r) ->
  exists evs,
    trace st' = (trace st ++ evs)%list
    /\ forall i pk n res,
         In (EvTransferSol i pk n res) evs ->
         exists to lamports,
           nth_error (actions plan) i = Some (TransferSol to lamports)
           /\ newPublicKey env to = Ok pk
           /\ BigInt lamports = Ok n
           /\ recipientAllowed p to = true
           /\ (forall m, maxTransferLamports p = Some m -> n <= m).
Proof.
  intros Hp Hex.
  destruct (execute_run_validated _ _ Hex)
    as (evs & Ht & [(_ & -> & _) | (Hv & Hrun)]).
  { exists []. split; [exact Ht | intros i pk n res []]. }
  exists evs. split; [exact Ht |].
  intros i pk n res Hin.
  destruct (PlanRun_event_turn Hrun _ Hin) as (k & a & evs1 & r1 & Hk & Ha & Hin1 & _).
  destruct (ActionRun_transfer _ _ _ _ Ha Hin1) as (Hik & to & lamports & -> & Hpk & Hn).
  simpl in Hik. subst k.
  exists to, lamports. split; [exact Hk | split; [exact Hpk | split; [exact Hn |]]].
  unfold validate in Hv. rewrite Hp in Hv.
  pose proof (@validated_action _ _ _ _ Hv Hk) as Hacc.
  destruct (transfer_accepted_inv _ _ _ _ Hacc) as (n' & Hn' & Hrec & Hmax).
  rewrite Hn in Hn'. inversion Hn'; subst n'. auto.
Qed.

(** X9: with a policy configured, every quote [execute] asks is for a
    swap of the plan that the policy lets through: both mints passed the
    allowlist check, the amount, handed on as written, is read by [BigInt]
    as an integer within [maxSwapAmount], and the slippage asked is the one
    the action carries, then within [maxSlippageBps], or else 50 whatever
    the cap is. *)
Theorem requested_quotes_are_within_policy
    (p : AgentPolicy) (plan : AgentPlan) (st st' : State W)
    (r : Result (list TransactionSignature)) :
  policy this = Some p ->
  execute env this plan st = (st', r) ->
  exists evs,
    trace st' = (trace st ++ evs)%list
    /\ forall i q res,
         In (EvGetJupiterQuote i q res) evs ->
         exists im om am sl md n,
           nth_error (actions plan) i = Some (SwapJupiter im om am sl md)
           /\ qp_inputMint q = im /\ qp_outputMint q = om /\ qp_amount q = am
           /\ qp_swapMode q = md
           /\ (truthy (allowAllSwaps p) = true
               \/ (mintAllowed p im = true /\ mintAllowed p om = true))
           /\ BigInt am = Ok n
           /\ (forall m, maxSwapAmount p = Some m -> n <= m)
           /\ match sl with
              | Some s =>
                  qp_slippageBps q = Some s
                  /\ (forall m, maxSlippageBps p = Some m -> s <= m)
              | None => qp_slippageBps q = Some 50
              end.
Proof.
  intros Hp Hex.
  destruct (execute_run_validated _ _ Hex)
    as (evs & Ht & [(_ & -> & _) | (Hv & Hrun)]).
  { exists []. split; [exact Ht | intros i q res []]. }
  exists evs. split; [exact Ht |].
  intros i q res Hin.
  destruct (PlanRun_event_turn Hrun _ Hin) as (k & a & evs1 & r1 & Hk & Ha & Hin1 & _).
  destruct (ActionRun_quote _ _ _ Ha Hin1) as (Hik & Hq).
  simpl in Hik. subst k.
  destruct a as [reason | to lamports | im om am sl md]; try discriminate Hq.
  simpl in Hq. inversion Hq; subst q. clear Hq.
  unfold validate in Hv. rewrite Hp in Hv.
  pose proof (@validated_action _ _ _ _ Hv Hk) as Hacc.
  destruct (swap_accepted_inv _ _ _ _ _ _ _ Hacc) as (n & Hn & Hmints & Hmax & Hslip).
  exists im, om, am, sl, md, n. simpl.
  repeat (split; [first [reflexivity | assumption] |]).
  destruct sl as [s |]; [| reflexivity].
  split; [reflexivity |]. intros m Hm. apply (Hslip s m eq_refl Hm).
Qed.

(** X10: every swap [execute] submits is the quote the aggregator
    returned for that same action, as returned: it is not checked against
    the action or the policy. *)
Theorem submitted_swap_is_the_quote_obtained
    (plan : AgentPlan) (st st' : State W) (r : Result (list TransactionSignature)) :
  execute env this plan st = (st', r) ->
  exists evs,
    trace st' = (trace st ++ evs)%list
    /\ forall i q res,
         In (EvExecuteJupiterSwap i q res) evs ->
         exists a p,
           nth_error (actions plan) i = Some a
           /\ quoteParams a = Some p
           /\ In (EvGetJupiterQuote i p (Ok q)) evs.
Proof.
  intros Hex.
  destruct (execute_run_validated _ _ Hex)
    as (evs & Ht & [(_ & -> & _) | (_ & Hrun)]).
  { exists []. split; [exact Ht | intros i q res []]. }
  exists evs. split; [exact Ht |].
  intros i q res Hin.
  destruct (PlanRun_turn_of_event Hrun _ Hin)
    as (k & a & evs1 & r1 & Hk & Ha & Hin1 & Hsub).
  destruct (ActionRun_swap _ _ _ Ha Hin1) as (Hik & p & Hp & Hq).
  simpl in Hik. subst k.
  exists a, p. split; [exact Hk | split; [exact Hp |]].
  apply Hsub. exact Hq.
Qed.

(** A turn that pushes a signature is the turn of a transfer or a swap. *)
Lemma ActionRun_pushes_for_non_noop i a evs sig :
  ActionRun env this i a evs (Ok (Some sig)) -> isNoop a = false.
Proof.
  intros H. inversion H; subst; try reflexivity.
  destruct a; try reflexivity.
  match goal with Hq : quoteParams (Noop _) = Some _ |- _ => discriminate Hq end.
Qed.

Lemma PlanRun_signed_sorted i rest sigs evs r :
  PlanRun env this i rest sigs evs r ->
  StronglySorted lt (map fst (signedAt evs))
  /\ Forall (fun j => (i <= j)%nat) (map fst (signedAt evs)).
Proof.
  induction 1 as [i sigs | i a rest sigs evs1 o evs2 r Ha Hp [IHs IHb]
                 | i a rest sigs evs1 e0 Ha].
  - split; constructor.
  - rewrite signedAt_app, map_app, (ActionRun_signed Ha).
    assert (Hb : Forall (fun j => (i < j)%nat) (map fst (signedAt evs2))).
    { eapply Forall_impl; [| exact IHb]. simpl. intros j Hj. lia. }
    destruct o as [sig |]; simpl.
    + split; [constructor; assumption |].
      constructor; [lia |]. eapply Forall_impl; [| exact Hb]. simpl. intros j Hj. lia.
    + split; [exact IHs |]. eapply Forall_impl; [| exact Hb]. simpl. intros j Hj. lia.
  - rewrite (ActionRun_signed Ha). split; constructor.
Qed.

Lemma PlanRun_count_le i rest sigs evs r :
  PlanRun env this i rest sigs evs r ->
  forall sigs', r = Ok sigs' ->
  (List.length sigs'
   <= List.length sigs + List.length (filter (fun a => negb (isNoop a)) rest))%nat.
Proof.
  induction 1 as [i sigs | i a rest sigs evs1 o evs2 r Ha Hp IH | i a rest sigs evs1 e0 Ha];
    intros sigs' Hr.
  - inversion Hr; subst. simpl. lia.
  - specialize (IH _ Hr). simpl.
    destruct o as [sig |]; simpl in IH.
    + rewrite (ActionRun_pushes_for_non_noop Ha). simpl.
      rewrite length_app in IH. simpl in IH. lia.
    + destruct (negb (isNoop a)); simpl; lia.
  - discriminate.
Qed.

(** X11: the signatures [execute] returns are those the ledger and the
    aggregator handed out, in the order of the plan: each belongs to one
    action that is a transfer or a swap, no action has two, and a later
    signature belongs to a later action. *)
Theorem signatures_follow_plan_order
    (plan : AgentPlan) (st st' : State W) (sigs : list TransactionSignature) :
  execute env this plan st = (st', Ok sigs) ->
  exists evs,
    trace st' = (trace st ++ evs)%list
    /\ sigs = map snd (signedAt evs)
    /\ StronglySorted lt (map fst (signedAt evs))
    /\ (forall i sig, In (i, sig) (signedAt evs) ->
          exists a, nth_error (actions plan) i = Some a /\ isNoop a = false)
    /\ (List.length sigs
        <= List.length (filter (fun a => negb (isNoop a)) (actions plan)))%nat.
Proof.
  intros Hex.
  destruct (execute_run_validated _ _ Hex)
    as (evs & Ht & [(_ & _ & e & He) | (_ & Hrun)]); [discriminate |].
  exists evs. split; [exact Ht |].
  split; [apply (PlanRun_signed Hrun eq_refl) |].
  split; [apply (PlanRun_signed_sorted Hrun) |].
  split; [| apply (PlanRun_count_le Hrun eq_refl)].
  intros i sig Hin.
  destruct (signedAt_In _ _ _ Hin) as (e & He & Hidx & Hcall).
  destruct (PlanRun_turn_of_event Hrun _ He)
    as (k & a & evs1 & r1 & Hk & Ha & Hin1 & _).
  assert (Hik : k = i).
  { apply ActionRun_index in Ha. rewrite Forall_forall in Ha.
    rewrite (Ha _ Hin1) in Hidx. inversion Hidx. reflexivity. }
  subst k. exists a. split; [exact Hk |].
  destruct e as [cp cr | j a' cr | j pk n res | j q res | j q res];
    try discriminate Hcall.
  - destruct (ActionRun_transfer _ _ _ _ Ha Hin1) as (_ & to & l & -> & _). reflexivity.
  - destruct (ActionRun_quote _ _ _ Ha Hin1) as (_ & Hq).
    destruct a; try discriminate Hq; reflexivity.
  - destruct (ActionRun_swap _ _ _ Ha Hin1) as (_ & p & Hq & _).
    destruct a; try discriminate Hq; reflexivity.
Qed.

(** The loop under a confirmation that always answers [false]. *)
Lemma executeFrom_all_declined f rest :
  confirm this = Some f ->
  (forall a w, snd (f a w) = Ok false) ->
  forall i sigs st,
  exists st' evs,
    executeFrom env this i rest sigs st = (st', Ok sigs)
    /\ trace st' = (trace st ++ evs)%list
    /\ List.length evs = List.length rest
    /\ Forall (fun e => isCollaboratorCall e = false) evs.
Proof.
  intros Hc Hf. induction rest as [| a rest IH]; intros i sigs st.
  - exists st, []. simpl. rewrite app_nil_r. repeat split; constructor.
  - rewrite executeFrom_cons.
    assert (Ha : executeAction env this i a st
                 = (mkState (fst (f a (world st)))
                            (trace st ++ [EvConfirm i a (Ok false)]), Ok None)).
    { unfold executeAction, bind, confirmed, perform. rewrite Hc.
      specialize (Hf a (world st)). destruct (f a (world st)) as [w' rb].
      simpl in Hf. subst rb. reflexivity. }
    rewrite Ha. simpl pushed.
    destruct (IH (S i) sigs
                (mkState (fst (f a (world st)))
                         (trace st ++ [EvConfirm i a (Ok false)])))
      as (st' & evs & Hrun & Ht & Hlen & Hall).
    exists st', (EvConfirm i a (Ok false) :: evs).
    split; [exact Hrun |]. split; [| split].
    + rewrite Ht. simpl. rewrite <- app_assoc. reflexivity.
    + simpl. rewrite Hlen. reflexivity.
    + constructor; [reflexivity | exact Hall].
Qed.

(** X12: under a confirmation that answers [false] to everything, as the
    one of the agent example does, [execute] on a plan that passes
    validation asks the confirmation once per action, makes no ledger or
    swap call, and returns the empty list. *)
Theorem declining_confirmation_executes_nothing
    (f : AgentAction -> Effect W bool) (plan : AgentPlan) (st : State W) :
  confirm this = Some f ->
  (forall a w, snd (f a w) = Ok false) ->
  validate this plan = Ok [] ->
  exists st' evs,
    execute env this plan st = (st', Ok [])
    /\ trace st' = (trace st ++ evs)%list
    /\ List.length evs = List.length (actions plan)
    /\ Forall (fun e => isCollaboratorCall e = false) evs.
Proof.
  intros Hc Hf Hv. unfold execute, bind, lift. rewrite Hv.
  apply (executeFrom_all_declined (actions plan) Hc Hf).
Qed.

(** X15: an amount [BigInt] rejects is caught before anything is done
    only when a policy is configured: then [execute] throws the
    [SyntaxError] at once and leaves the world as it was.  Without a
    policy the error surfaces when the turn of that action comes, after
    the actions before it have been carried out. *)
Theorem unparsable_amount_with_and_without_policy
    (plan : AgentPlan) (st : State W) :
  (forall p,
     policy this = Some p ->
     forallb amountParses (actions plan) = false ->
     exists msg, execute env this plan st = (st, Throw (SyntaxError msg)))
  /\ (forall pre post to lamports pk e st1 sigs1,
        policy this = None ->
        confirm this = None ->
        actions plan = (pre ++ TransferSol to lamports :: post)%list ->
        executeFrom env this 0 pre [] st = (st1, Ok sigs1) ->
        newPublicKey env to = Ok pk ->
        BigInt lamports = Throw e ->
        execute env this plan st = (st1, Throw e)).
Proof.
  split.
  - intros p Hp Hbad. unfold execute, bind, lift, validate. rewrite Hp.
    unfold validatePlanPolicy.
    destruct (validateFrom_throws p (actions plan) 0 [] Hbad) as [msg ->].
    exists msg. reflexivity.
  - intros pre post to lamports pk e st1 sigs1 Hp Hc Hact Hpre Hpk He.
    unfold execute, bind, lift, validate. rewrite Hp, Hact.
    rewrite executeFrom_app, Hpre, executeFrom_cons.
    unfold executeAction, bind, confirmed, lift, asPublicKey. rewrite Hc.
    unfold ret. simpl. rewrite Hpk, He. reflexivity.
Qed.

End AgentFacts.

(** * Further properties of the plan source *)


(** For a negative [end], [slice(0, end)] drops the last [-end] entries. *)
Lemma slice0_negative (A : Type) (xs : list A) (m : Z) :
  m < 0 -> Js.slice0 xs m = firstn (List.length xs - Z.to_nat (- m)) xs.
Proof.
  intros Hm. unfold Js.slice0.
  replace (m <? 0) with true by (symmetry; apply Z.ltb_lt; exact Hm).
  f_equal. lia.
Qed.

Section PlanSourceFacts.

Variable W : Type.
Variable env : Collaborators W.
Variable this : ClaudeAgent W.


(** X14: a negative cap does not empty the plan: when the prompt could
    be built and the model answers with an object whose [actions] is an
    array, [proposePlan] keeps all of its entries but the last
    [-maxActions] ones. *)
Theorem proposePlan_negative_cap_drops_from_the_end
    (client : AnthropicClient W) (goal : string) (context : option JsValue)
    (m : Z) (st : State W) (w' : W) (p : CreateJsonParams) (v : JsValue)
    (elems : list JsValue) (props : list (string * JsValue)) :
  anthropic this = Some client ->
  createJsonParams env goal context m = Ok p ->
  createJson client p (world st) = (w', Ok v) ->
  Js.notAnObject v = false ->
  Js.get v "actions" = Some (JsArray elems props) ->
  m < 0 ->
  exists st' plan',
    proposePlan env this goal context (Some m) st = (st', Ok plan')
    /\ Js.get plan' "actions"
       = Some (JsArray (firstn (List.length elems - Z.to_nat (- m)) elems) []).
Proof.
  intros Hc Hp Hcall Hobj Hget Hm. unfold proposePlan, bind, lift, perform. rewrite Hc.
  cbn [maxActionsOr3]. rewrite Hp, Hcall, Hobj, Hget. cbn [isArray negb].
  eexists. eexists. split; [reflexivity |].
  rewrite get_set by exact Hobj. rewrite Hget. cbn [elements].
  rewrite slice0_negative by exact Hm. reflexivity.
Qed.

End PlanSourceFacts.

(** The cap -1 on an answer of five actions keeps four. *)
Lemma proposePlan_negative_cap_drops_from_the_end_witness :
  exists st' plan',
    proposePlan Demo.env
      (Demo.answering
         (JsObject [("actions", JsArray [JsNumber 1; JsNumber 2; JsNumber 3;
                                         JsNumber 4; JsNumber 5] [])]))
      "goal" None (Some (-1)) Demo.start = (st', Ok plan')
    /\ Js.get plan' "actions"
       = Some (JsArray [JsNumber 1; JsNumber 2; JsNumber 3; JsNumber 4] []).
Proof.
  apply (@proposePlan_negative_cap_drops_from_the_end Demo.W Demo.env
           (Demo.answering
              (JsObject [("actions", JsArray [JsNumber 1; JsNumber 2; JsNumber 3;
                                              JsNumber 4; JsNumber 5] [])]))
           (mkAnthropicClient (fun _ w => (w, Ok
              (JsObject [("actions", JsArray [JsNumber 1; JsNumber 2; JsNumber 3;
                                              JsNumber 4; JsNumber 5] [])]))))
           "goal" None (-1) Demo.start 0%nat
           (match createJsonParams Demo.env "goal" None (-1) with
            | Ok p => p
            | Throw _ => mkCreateJsonParams "" "" 0 0
            end)
           (JsObject [("actions", JsArray [JsNumber 1; JsNumber 2; JsNumber 3;
                                           JsNumber 4; JsNumber 5] [])])
           [JsNumber 1; JsNumber 2; JsNumber 3; JsNumber 4; JsNumber 5] []);
    try reflexivity.
Defined.


(** * Runs of the sample plan and of the example agent *)

Lemma executed_transfers_are_within_policy_witness :
  exists evs,
    trace (fst (execute Demo.env (Demo.withPolicy samplePolicy) samplePlan Demo.start))
    = (trace Demo.start ++ evs)%list
    /\ forall i pk n res,
         In (EvTransferSol i pk n res) evs ->
         exists to lamports,
           nth_error (actions samplePlan) i = Some (TransferSol to lamports)
           /\ newPublicKey Demo.env to = Ok pk
           /\ BigInt lamports = Ok n
           /\ recipientAllowed samplePolicy to = true
           /\ (forall m, maxTransferLamports samplePolicy = Some m -> n <= m).
Proof.
  apply (@executed_transfers_are_within_policy Demo.W Demo.env
           (Demo.withPolicy samplePolicy) samplePolicy samplePlan Demo.start
           (fst (execute Demo.env (Demo.withPolicy samplePolicy) samplePlan Demo.start))
           (Ok ["sig0"; "sig1"; "sig2"]));
    reflexivity.
Defined.

Lemma requested_quotes_are_within_policy_witness :
  exists evs,
    trace (fst (execute Demo.env (Demo.withPolicy samplePolicy) samplePlan Demo.start))
    = (trace Demo.start ++ evs)%list
    /\ forall i q res,
         In (EvGetJupiterQuote i q res) evs ->
         exists im om am sl md n,
           nth_error (actions samplePlan) i = Some (SwapJupiter im om am sl md)
           /\ qp_inputMint q = im /\ qp_outputMint q = om /\ qp_amount q = am
           /\ qp_swapMode q = md
           /\ (truthy (allowAllSwaps samplePolicy) = true
               \/ (mintAllowed samplePolicy im = true
                   /\ mintAllowed samplePolicy om = true))
           /\ BigInt am = Ok n
           /\ (forall m, maxSwapAmount samplePolicy = Some m -> n <= m)
           /\ match sl with
              | Some s =>
                  qp_slippageBps q = Some s
                  /\ (forall m, maxSlippageBps samplePolicy = Some m -> s <= m)
              | None => qp_slippageBps q = Some 50
              end.
Proof.
  apply (@requested_quotes_are_within_policy Demo.W Demo.env
           (Demo.withPolicy samplePolicy) samplePolicy samplePlan Demo.start
           (fst (execute Demo.env (Demo.withPolicy samplePolicy) samplePlan Demo.start))
           (Ok ["sig0"; "sig1"; "sig2"]));
    reflexivity.
Defined.

Lemma submitted_swap_is_the_quote_obtained_witness :
  exists evs,
    trace (fst (execute Demo.env Demo.bare samplePlan Demo.start))
    = (trace Demo.start ++ evs)%list
    /\ forall i q res,
         In (EvExecuteJupiterSwap i q res) evs ->
         exists a p,
           nth_error (actions samplePlan) i = Some a
           /\ quoteParams a = Some p
           /\ In (EvGetJupiterQuote i p (Ok q)) evs.
Proof.
  apply (@submitted_swap_is_the_quote_obtained Demo.W Demo.env Demo.bare samplePlan
           Demo.start (fst (execute Demo.env Demo.bare samplePlan Demo.start))
           (Ok ["sig0"; "sig1"; "sig2"]));
    reflexivity.
Defined.

Lemma signatures_follow_plan_order_witness :
  exists evs,
    trace (fst (execute Demo.env Demo.bare samplePlan Demo.start))
    = (trace Demo.start ++ evs)%list
    /\ ["sig0"; "sig1"; "sig2"] = map snd (signedAt evs)
    /\ StronglySorted lt (map fst (signedAt evs))
    /\ (forall i sig, In (i, sig) (signedAt evs) ->
          exists a, nth_error (actions samplePlan) i = Some a /\ isNoop a = false)
    /\ (List.length ["sig0"; "sig1"; "sig2"]
        <= List.length (filter (fun a => negb (isNoop a)) (actions samplePlan)))%nat.
Proof.
  apply (@signatures_follow_plan_order Demo.W Demo.env Demo.bare samplePlan
           Demo.start (fst (execute Demo.env Demo.bare samplePlan Demo.start))
           ["sig0"; "sig1"; "sig2"]);
    reflexivity.
Defined.

(** The agent of the example, with a console that counts its lines, on a
    plan its policy lets through. *)
Lemma declining_confirmation_executes_nothing_witness :
  exists st' evs,
    execute Demo.env
      (AgentExample.agent (fun _ w => S w) (mkAnthropicClient (fun _ w => (w, Ok JsNull)))
         None)
      (Demo.plan [SwapJupiter AgentExample.SOL_MINT AgentExample.USDC_MINT "10000000"
                    (Some 100) None; Noop None])
      Demo.start
    = (st', Ok [])
    /\ trace st' = (trace Demo.start ++ evs)%list
    /\ List.length evs = 2%nat
    /\ Forall (fun e => isCollaboratorCall e = false) evs.
Proof.
  apply (@declining_confirmation_executes_nothing Demo.W Demo.env
           (AgentExample.agent (fun _ w => S w)
              (mkAnthropicClient (fun _ w => (w, Ok JsNull))) None)
           (AgentExample.confirm (fun _ w => S w))
           (Demo.plan [SwapJupiter AgentExample.SOL_MINT AgentExample.USDC_MINT "10000000"
                         (Some 100) None; Noop None])
           Demo.start);
    reflexivity.
Defined.

(** X16: the agent of the example cannot move funds: whatever plan it is
    given and whatever the world answers, its [execute] makes no ledger or
    swap call; it either returns the empty list or throws (the policy
    error, or the error of an amount that does not parse). *)
Theorem example_agent_never_signs
    (W : Type) (env : Collaborators W) (consoleLog : AgentAction -> W -> W)
    (anthropic : AnthropicClient W) (apiKey : option string)
    (plan : AgentPlan) (st : State W) :
  exists st' r evs,
    execute env (AgentExample.agent consoleLog anthropic apiKey) plan st = (st', r)
    /\ (r = Ok [] \/ exists e, r = Throw e)
    /\ trace st' = (trace st ++ evs)%list
    /\ Forall (fun e => isCollaboratorCall e = false) evs.
Proof.
  destruct (validate (AgentExample.agent consoleLog anthropic apiKey) plan)
    as [[| v vs] | e] eqn:Hv.
  - destruct (@executeFrom_all_declined W env
                (AgentExample.agent consoleLog anthropic apiKey)
                (AgentExample.confirm consoleLog) (actions plan)
                eq_refl (fun a w => eq_refl) 0%nat [] st)
      as (st' & evs & Hrun & Ht & _ & Hall).
    exists st', (Ok []), evs. unfold execute, bind, lift. rewrite Hv.
    split; [exact Hrun | split; [left; reflexivity | split; assumption]].
  - exists st, (Throw (Error (violationMessage (v :: vs)))), [].
    unfold execute, bind, lift. rewrite Hv. rewrite app_nil_r.
    split; [reflexivity | split; [right; eauto | split; [reflexivity | constructor]]].
  - exists st, (Throw e), [].
    unfold execute, bind, lift. rewrite Hv. rewrite app_nil_r.
    split; [reflexivity | split; [right; eauto | split; [reflexivity | constructor]]].
Qed.


(** * Further properties of the Anthropic client *)

Section FenceFacts.
Import Fence.

Lemma lastChar_cons c s :
  s <> EmptyString -> lastChar (String c s) = lastChar s.
Proof. destruct s; [contradiction | reflexivity]. Qed.

Lemma trimStart_first s c :
  firstChar s = Some c -> JsString.isWhiteSpace c = false -> JsString.trimStart s = s.
Proof.
  destruct s as [| d s]; simpl; [discriminate |].
  intros H Hc. inversion H; subst. rewrite Hc. reflexivity.
Qed.

Lemma trimStart_first_not_ws s c :
  firstChar (JsString.trimStart s) = Some c -> JsString.isWhiteSpace c = false.
Proof.
  induction s as [| d s IH]; simpl; [discriminate |].
  destruct (JsString.isWhiteSpace d) eqn:Hd; [exact IH |].
  simpl. intros H. inversion H; subst. exact Hd.
Qed.

Lemma trimStart_idem s : JsString.trimStart (JsString.trimStart s) = JsString.trimStart s.
Proof.
  destruct (JsString.trimStart s) as [| c t] eqn:E; [reflexivity |].
  apply trimStart_first with (c := c); [reflexivity |].
  apply (trimStart_first_not_ws s). rewrite E. reflexivity.
Qed.

Lemma trimEnd_cons c s :
  JsString.trimEnd (String c s) =
  match JsString.trimEnd s with
  | EmptyString => if JsString.isWhiteSpace c then EmptyString else String c EmptyString
  | String d t => String c (String d t)
  end.
Proof. reflexivity. Qed.

Lemma trimEnd_idem s : JsString.trimEnd (JsString.trimEnd s) = JsString.trimEnd s.
Proof.
  induction s as [| c s IH]; [reflexivity |].
  rewrite trimEnd_cons.
  destruct (JsString.trimEnd s) as [| d t] eqn:E.
  - destruct (JsString.isWhiteSpace c) eqn:Hc; [reflexivity |].
    rewrite trimEnd_cons. simpl. rewrite Hc. reflexivity.
  - rewrite trimEnd_cons, IH. reflexivity.
Qed.

Lemma trimEnd_first s c :
  firstChar s = Some c -> JsString.isWhiteSpace c = false ->
  firstChar (JsString.trimEnd s) = Some c.
Proof.
  destruct s as [| d s]; [discriminate |].
  intros H Hc. inversion H; subst. rewrite trimEnd_cons.
  destruct (JsString.trimEnd s); [rewrite Hc |]; reflexivity.
Qed.

Lemma trimEnd_last_not_ws s : forall c,
  lastChar (JsString.trimEnd s) = Some c -> JsString.isWhiteSpace c = false.
Proof.
  induction s as [| d s IH]; intros c; [discriminate |].
  rewrite trimEnd_cons.
  destruct (JsString.trimEnd s) as [| e t] eqn:E.
  - destruct (JsString.isWhiteSpace d) eqn:Hd; simpl; [discriminate |].
    intros H. inversion H; subst. exact Hd.
  - rewrite lastChar_cons by discriminate. apply IH.
Qed.

(** Trimming twice is trimming once. *)
Lemma trim_idem s : JsString.trim (JsString.trim s) = JsString.trim s.
Proof.
  unfold JsString.trim.
  destruct (JsString.trimEnd (JsString.trimStart s)) as [| c t] eqn:E; [reflexivity |].
  rewrite trimStart_first with (c := c); [| reflexivity |].
  - rewrite <- E. apply trimEnd_idem.
  - destruct (JsString.trimStart s) as [| d u] eqn:Es; [discriminate E |].
    assert (Hd : JsString.isWhiteSpace d = false)
      by (apply (trimStart_first_not_ws s); rewrite Es; reflexivity).
    pose proof (trimEnd_first (String d u) eq_refl Hd) as Hf.
    rewrite E in Hf. inversion Hf; subst. exact Hd.
Qed.

Lemma startsWith_fence_inv s :
  startsWith fence s = true ->
  exists rest, s = String "`" (String "`" (String "`" rest)).
Proof.
  unfold fence. cbn [startsWith].
  destruct s as [| c1 [| c2 [| c3 rest]]];
    try discriminate;
    try (rewrite andb_false_r; discriminate);
    try (rewrite !andb_false_r; discriminate).
  intros H.
  apply andb_true_iff in H as [H1 H]. apply andb_true_iff in H as [H2 H].
  apply andb_true_iff in H as [H3 _].
  apply Ascii.eqb_eq in H1, H2, H3. subst. eauto.
Qed.

Lemma startsWith_fence_first s c :
  firstChar s = Some c -> c <> "`"%char -> startsWith fence s = false.
Proof.
  intros Hf Hc. destruct (startsWith fence s) eqn:E; [| reflexivity].
  destruct (startsWith_fence_inv _ E) as [rest ->]. simpl in Hf.
  inversion Hf; subst. contradiction.
Qed.

Lemma allWhiteSpace_last s c :
  allWhiteSpace s = true -> lastChar s = Some c -> JsString.isWhiteSpace c = true.
Proof.
  induction s as [| d s IH]; [discriminate |].
  simpl allWhiteSpace. intros H. apply andb_true_iff in H as [Hd Hs].
  destruct s as [| e s'].
  - simpl. intros Hl. inversion Hl; subst. exact Hd.
  - intros Hl. apply IH; [exact Hs | exact Hl].
Qed.

(** Where the text ends neither in white space nor in a backtick, no
    closing fence is found. *)
Lemma stripFenceEnd_keeps s : forall c,
  lastChar s = Some c -> JsString.isWhiteSpace c = false -> c <> "`"%char ->
  stripFenceEnd s = s.
Proof.
  induction s as [| d s IH]; intros c Hl Hws Hbt; [reflexivity |].
  cbn [stripFenceEnd].
  assert (Hno : startsWith fence (String d s) && allWhiteSpace (afterFence (String d s))
                = false).
  { destruct (startsWith fence (String d s)) eqn:Hp; [| reflexivity].
    destruct (allWhiteSpace (afterFence (String d s))) eqn:Ha; [| reflexivity].
    exfalso.
    destruct (startsWith_fence_inv _ Hp) as [rest Hrest].
    rewrite Hrest in Ha, Hl. cbn [afterFence] in Ha.
    destruct rest as [| r rest'].
    - simpl in Hl. inversion Hl; subst. apply Hbt. reflexivity.
    - assert (Hl' : lastChar (String r rest') = Some c) by exact Hl.
      rewrite (allWhiteSpace_last _ Ha Hl') in Hws. discriminate. }
  rewrite Hno. f_equal.
  destruct s as [| e s']; [reflexivity |].
  apply (IH c); [exact Hl | exact Hws | exact Hbt].
Qed.

Lemma lastChar_some s : s <> EmptyString -> exists c, lastChar s = Some c.
Proof.
  induction s as [| d s IH]; [contradiction |]. intros _.
  destruct s as [| e s']; [exists d; reflexivity |].
  rewrite lastChar_cons by discriminate. apply IH. discriminate.
Qed.

Lemma lastChar_app s t : t <> EmptyString -> lastChar (s ++ t) = lastChar t.
Proof.
  intros Ht. induction s as [| c s IH]; [reflexivity |].
  simpl append. rewrite lastChar_cons; [exact IH |].
  destruct s; simpl; [exact Ht | discriminate].
Qed.

Lemma trimStart_allWhiteSpace s :
  allWhiteSpace s = true -> JsString.trimStart s = EmptyString.
Proof.
  induction s as [| c s IH]; simpl; [reflexivity |].
  intros H. apply andb_true_iff in H as [-> Hs]. apply IH. exact Hs.
Qed.

Lemma trimEnd_allWhiteSpace s :
  allWhiteSpace s = true -> JsString.trimEnd s = EmptyString.
Proof.
  induction s as [| c s IH]; [reflexivity |].
  simpl allWhiteSpace. intros H. apply andb_true_iff in H as [Hc Hs].
  rewrite trimEnd_cons, (IH Hs), Hc. reflexivity.
Qed.

Lemma trimStart_app s t :
  JsString.trimStart (s ++ t)
  = if allWhiteSpace s then JsString.trimStart t else JsString.trimStart s ++ t.
Proof.
  induction s as [| c s IH]; [reflexivity |].
  simpl. destruct (JsString.isWhiteSpace c); [exact IH | reflexivity].
Qed.

Lemma trimEnd_app_ws s p :
  allWhiteSpace p = true -> JsString.trimEnd (s ++ p) = JsString.trimEnd s.
Proof.
  intros Hp. induction s as [| c s IH].
  - simpl. apply trimEnd_allWhiteSpace. exact Hp.
  - simpl append. rewrite !trimEnd_cons, IH. reflexivity.
Qed.

Lemma trimEnd_keep s : forall c,
  lastChar s = Some c -> JsString.isWhiteSpace c = false -> JsString.trimEnd s = s.
Proof.
  induction s as [| d s IH]; intros c Hl Hc; [reflexivity |].
  rewrite trimEnd_cons. destruct s as [| e s'].
  - simpl in *. inversion Hl; subst. rewrite Hc. reflexivity.
  - rewrite (IH c); [reflexivity | exact Hl | exact Hc].
Qed.

Lemma noBacktick_trimStart s : noBacktick s = true -> noBacktick (JsString.trimStart s) = true.
Proof.
  induction s as [| c s IH]; [reflexivity |].
  simpl. intros H. apply andb_true_iff in H as [Hc Hs].
  destruct (JsString.isWhiteSpace c); [apply IH; exact Hs |].
  simpl. rewrite Hc, Hs. reflexivity.
Qed.

Lemma noBacktick_first s c : noBacktick s = true -> firstChar s = Some c -> c <> "`"%char.
Proof.
  destruct s as [| d s]; [discriminate |]. simpl.
  intros H Hf. inversion Hf; subst. apply andb_true_iff in H as [Hc _].
  apply negb_true_iff in Hc. apply Ascii.eqb_neq. exact Hc.
Qed.

Lemma stripFenceEnd_app_fence u :
  noBacktick u = true -> stripFenceEnd (u ++ fence) = u.
Proof.
  induction u as [| c u IH]; [reflexivity |].
  intros H. pose proof (noBacktick_first (String c u) H eq_refl) as Hc.
  simpl in H. apply andb_true_iff in H as [_ Hu].
  simpl append. cbn [stripFenceEnd].
  rewrite (startsWith_fence_first (String c (u ++ fence)) eq_refl Hc). simpl.
  rewrite (IH Hu). reflexivity.
Qed.

End FenceFacts.

(** X17: a reply that, once trimmed, neither starts nor ends with a
    backtick reaches [JSON.parse] as it is, trimmed: the fence patterns
    leave every JSON object or array alone, backticks inside it
    included. *)
Theorem clean_keeps_unfenced_text (text : string) :
  Fence.firstChar (JsString.trim text) <> Some "`"%char ->
  Fence.lastChar (JsString.trim text) <> Some "`"%char ->
  Fence.clean text = JsString.trim text.
Proof.
  intros Hfirst Hlast. unfold Fence.clean.
  assert (Hstart : Fence.startsWith Fence.fence (JsString.trim text) = false).
  { destruct (JsString.trim text) as [| c t] eqn:E; [reflexivity |].
    apply startsWith_fence_first with (c := c); [reflexivity |].
    intros ->. apply Hfirst. reflexivity. }
  unfold Fence.stripJsonFenceStart. rewrite Hstart. simpl andb. cbv iota.
  unfold Fence.stripFenceStart. rewrite Hstart.
  assert (Hend : Fence.stripFenceEnd (JsString.trim text) = JsString.trim text).
  { destruct (JsString.trim text) as [| c t] eqn:E; [reflexivity |].
    destruct (@lastChar_some (String c t)) as [d Hd]; [discriminate |].
    apply stripFenceEnd_keeps with (c := d).
    - exact Hd.
    - apply (trimEnd_last_not_ws (JsString.trimStart text)).
      fold (JsString.trim text). rewrite E. exact Hd.
    - intros ->. apply Hlast. exact Hd. }
  rewrite Hend. apply trim_idem.
Qed.

Lemma clean_keeps_unfenced_text_witness :
  Fence.clean (" {" ++ Text.dq ++ "code" ++ Text.dq ++ ": " ++ Text.dq ++ "```"
               ++ Text.dq ++ "} ")
  = "{" ++ Text.dq ++ "code" ++ Text.dq ++ ": " ++ Text.dq ++ "```" ++ Text.dq ++ "}".
Proof.
  apply (@clean_keeps_unfenced_text
           (" {" ++ Text.dq ++ "code" ++ Text.dq ++ ": " ++ Text.dq ++ "```"
            ++ Text.dq ++ "} ")); discriminate.
Defined.

(** X18: a reply wrapped in a [json] fence, the tag in any mix of
    capitals and with white space around the whole, reaches [JSON.parse] as
    the trimmed text between the fences, provided that text holds no
    backtick. *)
Theorem clean_unwraps_json_fence
    (pad1 pad2 body : string) (j s o n : ascii) :
  Fence.allWhiteSpace pad1 = true ->
  Fence.allWhiteSpace pad2 = true ->
  Fence.startsWithJson (String j (String s (String o (String n EmptyString)))) = true ->
  Fence.noBacktick body = true ->
  Fence.clean (pad1 ++ "```" ++ String j (String s (String o (String n EmptyString)))
               ++ body ++ "```" ++ pad2)
  = JsString.trim body.
Proof.
  intros Hp1 Hp2 Htag Hbody. unfold Fence.clean.
  set (X := "```" ++ String j (String s (String o (String n EmptyString)))
            ++ body ++ "```").
  assert (HX : JsString.trim (pad1 ++ "```"
                 ++ String j (String s (String o (String n EmptyString)))
                 ++ body ++ "```" ++ pad2) = X).
  { unfold JsString.trim. rewrite trimStart_app, Hp1.
    change ("```" ++ String j (String s (String o (String n EmptyString)))
            ++ body ++ "```" ++ pad2)
      with (String "`" (String "`" (String "`" (String j (String s (String o (String n
              (body ++ "```" ++ pad2)))))))).
    cbn [JsString.trimStart]. change (JsString.isWhiteSpace "`") with false. cbv iota.
    change (String "`" (String "`" (String "`" (String j (String s (String o (String n
              (body ++ "```" ++ pad2))))))))
      with (String "`" (String "`" (String "`" (String j (String s (String o
              (String n EmptyString)))))) ++ (body ++ "```" ++ pad2)).
    replace (String "`" (String "`" (String "`" (String j (String s (String o
               (String n EmptyString)))))) ++ (body ++ "```" ++ pad2))
      with (X ++ pad2).
    2:{ unfold X. simpl. do 7 f_equal.
        induction body as [| b body' IHb]; [reflexivity |].
        simpl. f_equal. apply IHb. simpl in Hbody.
        apply andb_true_iff in Hbody as [_ Hb]. exact Hb. }
    rewrite trimEnd_app_ws by exact Hp2.
    apply trimEnd_keep with (c := "`"%char); [| reflexivity].
    unfold X.
    change ("```" ++ String j (String s (String o (String n EmptyString))) ++ body ++ "```")
      with (("```" ++ String j (String s (String o (String n EmptyString)))) ++ (body ++ "```")).
    rewrite lastChar_app.
    - rewrite lastChar_app by discriminate. reflexivity.
    - destruct body; discriminate. }
  rewrite HX.
  assert (HJ : Fence.stripJsonFenceStart X = JsString.trimStart (body ++ "```")).
  { unfold Fence.stripJsonFenceStart, X.
    change (Fence.startsWith Fence.fence
              ("```" ++ String j (String s (String o (String n EmptyString)))
               ++ body ++ "```")) with true.
    change (Fence.afterFence
              ("```" ++ String j (String s (String o (String n EmptyString)))
               ++ body ++ "```"))
      with (String j (String s (String o (String n (body ++ "```"))))).
    change (Fence.startsWithJson (String j (String s (String o (String n (body ++ "```"))))))
      with (Fence.startsWithJson (String j (String s (String o (String n EmptyString))))).
    rewrite Htag. reflexivity. }
  rewrite HJ, trimStart_app.
  destruct (Fence.allWhiteSpace body) eqn:Hws.
  - unfold JsString.trim at 2. rewrite (trimStart_allWhiteSpace body Hws). reflexivity.
  - assert (Hu : Fence.noBacktick (JsString.trimStart body) = true)
      by (apply noBacktick_trimStart; exact Hbody).
    assert (Hfs : Fence.stripFenceStart (JsString.trimStart body ++ "```")
                  = JsString.trimStart body ++ "```").
    { unfold Fence.stripFenceStart.
      destruct (JsString.trimStart body) as [| c u] eqn:Eu.
      - exfalso. clear - Hws Eu. induction body as [| b body IH]; [discriminate |].
        simpl in *. destruct (JsString.isWhiteSpace b); [| discriminate].
        apply IH; assumption.
      - rewrite (startsWith_fence_first (String c u ++ "```") (c := c));
          [reflexivity | reflexivity |].
        apply (noBacktick_first (String c u) Hu eq_refl). }
    rewrite Hfs. change "```" with Fence.fence. rewrite (stripFenceEnd_app_fence _ Hu).
    unfold JsString.trim. rewrite trimStart_idem. reflexivity.
Qed.

Lemma clean_unwraps_json_fence_witness :
  Fence.clean (" " ++ "```" ++ "Json" ++ (Text.nl ++ "[1, 2]" ++ Text.nl) ++ "```" ++ Text.nl)
  = "[1, 2]".
Proof.
  apply (@clean_unwraps_json_fence " " Text.nl (Text.nl ++ "[1, 2]" ++ Text.nl)
           "J" "s" "o" "n"); reflexivity.
Defined.

Lemma stripTrailingSlash_cons c s :
  Fence.stripTrailingSlash (String c s)
  = match s with
    | EmptyString => if Ascii.eqb c "/" then EmptyString else String c EmptyString
    | _ => String c (Fence.stripTrailingSlash s)
    end.
Proof.
  destruct s as [| d s'];
    destruct c as [[] [] [] [] [] [] [] []]; reflexivity.
Qed.

Lemma stripTrailingSlash_app_slash u : Fence.stripTrailingSlash (u ++ "/") = u.
Proof.
  induction u as [| c u IH]; [reflexivity |].
  simpl append. rewrite stripTrailingSlash_cons.
  destruct (u ++ "/") eqn:E.
  - destruct u; discriminate.
  - rewrite IH. reflexivity.
Qed.

Lemma stripTrailingSlash_keep u :
  Fence.lastChar u <> Some "/"%char -> Fence.stripTrailingSlash u = u.
Proof.
  induction u as [| c u IH]; [reflexivity |].
  intros Hl. rewrite stripTrailingSlash_cons. destruct u as [| d u'].
  - destruct (Ascii.eqb c "/") eqn:E; [| reflexivity].
    apply Ascii.eqb_eq in E. subst. exfalso. apply Hl. reflexivity.
  - rewrite IH; [reflexivity |]. exact Hl.
Qed.

Lemma find_first (A : Type) (f : A -> bool) (pre : list A) (b : A) (post : list A) :
  forallb (fun x => negb (f x)) pre = true ->
  f b = true ->
  find f (pre ++ b :: post) = Some b.
Proof.
  intros Hpre Hb. induction pre as [| x pre IH]; simpl.
  - rewrite Hb. reflexivity.
  - simpl in Hpre. apply andb_true_iff in Hpre as [Hx Hpre].
    apply negb_true_iff in Hx. rewrite Hx. apply IH. exact Hpre.
Qed.

Section ClientFacts.

Variable W : Type.
Variable fetch : FetchRequest -> Effect W (FetchResponse W).
Variable stringifyJson : JsValue -> string.
Variable parseJson : string -> Result JsValue.

(** X19: the base URL is used with one trailing slash taken off: with or
    without it the request goes to the same endpoint, and of two trailing
    slashes one is kept. *)
Theorem endpoint_ignores_one_trailing_slash
    (apiKey model u : string) (version : option string)
    (params : CreateMessageParams) :
  Fence.lastChar u <> Some "/"%char ->
  fr_url (messagesRequest stringifyJson
            (newAnthropicClient (mkAnthropicClientOptions apiKey model (Some u) version))
            params)
  = u ++ "/v1/messages"
  /\ fr_url (messagesRequest stringifyJson
               (newAnthropicClient
                  (mkAnthropicClientOptions apiKey model (Some (u ++ "/")) version))
               params)
     = u ++ "/v1/messages"
  /\ fr_url (messagesRequest stringifyJson
               (newAnthropicClient
                  (mkAnthropicClientOptions apiKey model (Some (u ++ "//")) version))
               params)
     = u ++ "/" ++ "/v1/messages".
Proof.
  intros Hu. unfold messagesRequest, newAnthropicClient. cbn [fr_url ac_baseUrl aco_baseUrl].
  rewrite (stripTrailingSlash_keep u Hu), stripTrailingSlash_app_slash.
  replace (u ++ "//") with ((u ++ "/") ++ "/").
  - rewrite stripTrailingSlash_app_slash.
    split; [reflexivity |]. split; [reflexivity |].
    clear. induction u as [| c u IH]; [reflexivity |]. simpl. f_equal. exact IH.
  - clear. induction u as [| c u IH]; [reflexivity |]. simpl. f_equal. exact IH.
Qed.

Variable fields : AnthropicFields.

(** The request [createJson] makes. *)
Lemma createJsonOf_Ok_inv (params : CreateJsonArgs) (w w' : W) (v : JsValue) :
  createJsonOf fetch stringifyJson parseJson fields params w = (w', Ok v) ->
  exists w1 res out text,
    fetch (messagesRequest stringifyJson fields
             (mkCreateMessageParams (cja_system params)
                [mkAnthropicMessage RoleUser (cja_prompt params)]
                (match cja_maxTokens params with Some n => n | None => 800 end)
                (Some (match cja_temperature params with Some t => t | None => 0 end))))
          w = (w1, Ok res)
    /\ resp_ok res = true
    /\ resp_json res w1 = (w', Ok out)
    /\ firstText out = Some (JsString text)
    /\ parseJson (Fence.clean text) = Ok v.
Proof.
  unfold createJsonOf, createMessage, ebind.
  destruct (fetch _ w) as [w1 [res | e]] eqn:Ef; [| discriminate].
  destruct (resp_ok res) eqn:Hok; cbn [negb].
  - destruct (resp_json res w1) as [w2 [out | e]] eqn:Ej; [| discriminate].
    destruct (firstText out) as [[| | | text | | |] |] eqn:Eft;
      unfold ethrow; try discriminate.
    intros H. inversion H; subst. exists w1, res, out, text. auto.
  - unfold ecatch. destruct (resp_text res w1) as [w2 [t | e]];
      unfold ethrow; discriminate.
Qed.

(** X20: of the blocks of a reply the first one whose [type] is ['text']
    decides alone: its [text], cleaned, is what gets parsed, and when that
    [text] is not a string [createJson] throws, whatever text blocks
    follow. *)
Theorem createJson_reads_the_first_text_block
    (params : CreateJsonArgs) (w w1 w2 : W) (res : FetchResponse W) (out : JsValue)
    (pre post : list JsValue) (b : JsValue) (props : list (string * JsValue)) :
  fetch (messagesRequest stringifyJson fields
           (mkCreateMessageParams (cja_system params)
              [mkAnthropicMessage RoleUser (cja_prompt params)]
              (match cja_maxTokens params with Some n => n | None => 800 end)
              (Some (match cja_temperature params with Some t => t | None => 0 end))))
        w = (w1, Ok res) ->
  resp_ok res = true ->
  resp_json res w1 = (w2, Ok out) ->
  Js.get out "content" = Some (JsArray (pre ++ b :: post) props) ->
  forallb (fun x => negb (isTextBlock x)) pre = true ->
  isTextBlock b = true ->
  createJsonOf fetch stringifyJson parseJson fields params w
  = (w2, match Js.get b "text" with
         | Some (JsString text) => parseJson (Fence.clean text)
         | _ => Throw (Error "Anthropic response did not contain a text block")
         end).
Proof.
  intros Hf Hok Hj Hc Hpre Hb.
  unfold createJsonOf, createMessage, ebind. rewrite Hf, Hok. cbn [negb].
  rewrite Hj. unfold firstText. rewrite Hc, (@find_first _ isTextBlock pre b post Hpre Hb).
  destruct (Js.get b "text") as [[| | | text | | |] |]; reflexivity.
Qed.

Variable env : Collaborators W.
Variable this : ClaudeAgent W.

(** X21: with this client, [proposePlan] returns a plan only when the
    prompt could be built, the service answered with an ok status, the body
    held a text block and its cleaned text parsed; the request asks for 900
    tokens at temperature 0.  A transport failure, a refusal by status or
    an unparsable reply is thrown, never turned into the no-op plan. *)
Theorem proposePlan_returns_only_a_parsed_reply
    (goal : string) (context : option JsValue) (maxActions : option Z)
    (st st' : State W) (plan : JsValue) :
  anthropic this = Some (anthropicClient fetch stringifyJson parseJson fields) ->
  proposePlan env this goal context maxActions st = (st', Ok plan) ->
  exists p w1 res out text v,
    createJsonParams env goal context (maxActionsOr3 maxActions) = Ok p
    /\ fetch (messagesRequest stringifyJson fields
                (mkCreateMessageParams
                   (Some (cj_system p))
                   [mkAnthropicMessage RoleUser (cj_prompt p)]
                   900 (Some 0)))
             (world st) = (w1, Ok res)
    /\ resp_ok res = true
    /\ resp_json res w1 = (world st', Ok out)
    /\ firstText out = Some (JsString text)
    /\ parseJson (Fence.clean text) = Ok v
    /\ trace st' = (trace st ++ [EvCreateJson p (Ok v)])%list.
Proof.
  intros Hc. unfold proposePlan. rewrite Hc. unfold bind, lift.
  destruct (createJsonParams env goal context (maxActionsOr3 maxActions))
    as [p | e0] eqn:Eparams; [| discriminate].
  destruct (createJsonParams_Ok _ _ _ _ Eparams) as (_ & Hmax & Htemp).
  destruct (perform (createJson (anthropicClient fetch stringifyJson parseJson fields) p)
              (EvCreateJson p) st) as [st1 [v | e]] eqn:Ep; [| discriminate].
  apply perform_trace in Ep as [Ht Hcall].
  intros H.
  assert (Hst : st' = st1).
  { destruct (Js.notAnObject v); unfold ret in H; inversion H; reflexivity. }
  subst st1. clear H.
  cbn [createJson anthropicClient] in Hcall.
  apply createJsonOf_Ok_inv in Hcall as (w1 & res & out & text & Hf & Hok & Hj & Hft & Hp).
  cbn [cja_system cja_prompt cja_maxTokens cja_temperature] in Hf.
  rewrite Hmax, Htemp in Hf.
  exists p, w1, res, out, text, v. auto 10.
Qed.

End ClientFacts.

Lemma endpoint_ignores_one_trailing_slash_witness :
  fr_url (messagesRequest ClientDemo.stringifyJson
            (newAnthropicClient
               (mkAnthropicClientOptions "key" "model" (Some "https://example.test") None))
            (mkCreateMessageParams None [] 800 None))
  = "https://example.test/v1/messages"
  /\ fr_url (messagesRequest ClientDemo.stringifyJson
               (newAnthropicClient
                  (mkAnthropicClientOptions "key" "model" (Some "https://example.test/")
                     None))
               (mkCreateMessageParams None [] 800 None))
     = "https://example.test/v1/messages"
  /\ fr_url (messagesRequest ClientDemo.stringifyJson
               (newAnthropicClient
                  (mkAnthropicClientOptions "key" "model" (Some "https://example.test//")
                     None))
               (mkCreateMessageParams None [] 800 None))
     = "https://example.test//v1/messages".
Proof.
  apply (@endpoint_ignores_one_trailing_slash ClientDemo.stringifyJson
           "key" "model" "https://example.test" None
           (mkCreateMessageParams None [] 800 None)).
  discriminate.
Defined.

(** A reply whose first text block holds a fenced empty object, followed
    by another text block. *)
Lemma createJson_reads_the_first_text_block_witness :
  createJsonOf ClientDemo.fetch ClientDemo.stringifyJson ClientDemo.parseJson
    ClientDemo.fields (mkCreateJsonArgs None "prompt" None None) 0%nat
  = (1%nat, Ok (JsObject [])).
Proof.
  apply (@createJson_reads_the_first_text_block Demo.W ClientDemo.fetch
           ClientDemo.stringifyJson ClientDemo.parseJson ClientDemo.fields
           (mkCreateJsonArgs None "prompt" None None) 0%nat 1%nat 1%nat
           (mkFetchResponse true 200 "OK"
              (fun w => (w, Ok ""))
              (fun w => (w, Ok (ClientDemo.reply "```json {} ```"))))
           (ClientDemo.reply "```json {} ```")
           [JsObject [("type", JsString "thinking")]]
           [JsObject [("type", JsString "text"); ("text", JsString "[]")]]
           (JsObject [("type", JsString "text"); ("text", JsString "```json {} ```")])
           []); reflexivity.
Defined.

Lemma proposePlan_returns_only_a_parsed_reply_witness :
  exists p w1 res out text v,
    createJsonParams Demo.env "goal" None (maxActionsOr3 None) = Ok p
    /\ ClientDemo.fetch
         (messagesRequest ClientDemo.stringifyJson ClientDemo.fields
            (mkCreateMessageParams
               (Some (cj_system p))
               [mkAnthropicMessage RoleUser (cj_prompt p)]
               900 (Some 0)))
         (world Demo.start) = (w1, Ok res)
    /\ resp_ok res = true
    /\ resp_json res w1
       = (world (fst (proposePlan Demo.env ClientDemo.agent "goal" None None Demo.start)),
          Ok out)
    /\ firstText out = Some (JsString text)
    /\ ClientDemo.parseJson (Fence.clean text) = Ok v
    /\ trace (fst (proposePlan Demo.env ClientDemo.agent "goal" None None Demo.start))
       = (trace Demo.start ++ [EvCreateJson p (Ok v)])%list.
Proof.
  apply (@proposePlan_returns_only_a_parsed_reply Demo.W ClientDemo.fetch
           ClientDemo.stringifyJson ClientDemo.parseJson ClientDemo.fields
           Demo.env ClientDemo.agent "goal" None None Demo.start
           (fst (proposePlan Demo.env ClientDemo.agent "goal" None None Demo.start))
           (Js.set (JsObject []) "actions" (JsArray [noopValue] []))).
  - reflexivity.
  - vm_compute. reflexivity.
Defined.

(** * Further properties of the wallet under the agent *)

Section SettledFacts.

Variable W : Type.
Variable env : Collaborators W.
Variable this : ClaudeAgent W.

Lemma Settles_ret (A : Type) (a : A) : Settles env this (ret a).
Proof.
  intros st st' r H. unfold ret in H. inversion H; subst.
  exists []. rewrite app_nil_r. split; [reflexivity | constructor].
Qed.

Lemma Settles_throw (A : Type) (e : JsError) : Settles env this (@throw W A e).
Proof.
  intros st st' r H. unfold throw in H. inversion H; subst.
  exists []. rewrite app_nil_r. split; [reflexivity | constructor].
Qed.

Lemma Settles_lift (A : Type) (x : Result A) : Settles env this (lift x).
Proof.
  intros st st' r H. unfold lift in H. inversion H; subst.
  exists []. rewrite app_nil_r. split; [reflexivity | constructor].
Qed.

Lemma Settles_bind (A B : Type) (m : M W A) (k : A -> M W B) :
  Settles env this m -> (forall a, Settles env this (k a)) ->
  Settles env this (bind m k).
Proof.
  intros Hm Hk st st' r H. unfold bind in H.
  destruct (m st) as [st1 [a | e]] eqn:Em.
  - destruct (Hm _ _ _ Em) as (evs1 & Ht1 & Hs1).
    destruct (Hk a _ _ _ H) as (evs2 & Ht2 & Hs2).
    exists (evs1 ++ evs2)%list. split.
    + rewrite Ht2, Ht1, app_assoc. reflexivity.
    + apply Forall_app. split; assumption.
  - inversion H; subst. exact (Hm _ _ _ Em).
Qed.

Lemma Settles_perform (A : Type) (eff : Effect W A) (ev : Result A -> Event) :
  (forall w w' r, eff w = (w', r) -> settledBy env this (ev r)) ->
  Settles env this (perform eff ev).
Proof.
  intros Hev st st' r H. apply perform_trace in H as [Ht Hcall].
  exists [ev r]. split; [exact Ht |].
  constructor; [| constructor]. exact (Hev _ _ _ Hcall).
Qed.

Lemma confirmed_settles i a : Settles env this (confirmed this i a).
Proof.
  unfold confirmed. destruct (confirm this) as [f |] eqn:Ef.
  - apply Settles_perform. intros w w' r H. simpl. exists f, w, w'. auto.
  - apply Settles_ret.
Qed.

Lemma executeAction_settles i a : Settles env this (executeAction env this i a).
Proof.
  unfold executeAction. apply Settles_bind; [apply confirmed_settles |].
  intros ok. destruct (negb ok); [apply Settles_ret |].
  destruct a as [reason | to lamports | im om am sl md].
  - apply Settles_ret.
  - apply Settles_bind; [apply Settles_lift |]. intros pk.
    apply Settles_bind; [apply Settles_lift |]. intros n.
    apply Settles_bind; [| intros sig; apply Settles_ret].
    apply Settles_perform. intros w w' r H. simpl. eauto.
  - apply Settles_bind.
    + apply Settles_perform. intros w w' r H. simpl. eauto.
    + intros q. apply Settles_bind; [| intros sig; apply Settles_ret].
      apply Settles_perform. intros w w' r H. simpl. eauto.
Qed.

Lemma executeFrom_settles rest : forall i sigs,
  Settles env this (executeFrom env this i rest sigs).
Proof.
  induction rest as [| a rest IH]; intros i sigs.
  - apply Settles_ret.
  - cbn [executeFrom]. apply Settles_bind; [apply executeAction_settles |].
    intros r. apply IH.
Qed.

(** Every event of a run of [execute] is what the call it names settled
    to. *)
Lemma execute_settles plan : Settles env this (execute env this plan).
Proof.
  unfold execute. apply Settles_bind; [apply Settles_lift |].
  intros [| v vs]; [apply executeFrom_settles | apply Settles_throw].
Qed.

Lemma execute_events_settled plan st st' r evs :
  execute env this plan st = (st', r) ->
  trace st' = (trace st ++ evs)%list ->
  Forall (settledBy env this) evs.
Proof.
  intros H Ht. pose proof (execute_settles plan) as Hset.
  destruct (Hset _ _ _ H) as (evs' & Ht' & Hs).
  rewrite Ht in Ht'. apply app_inv_head in Ht'. subst. exact Hs.
Qed.

(** A ledger call that threw ended its turn, and with it the run. *)
Lemma ActionRun_transfer_result i a evs r j pk n res :
  ActionRun env this i a evs r ->
  In (EvTransferSol j pk n res) evs ->
  r = someResult res.
Proof.
  intros H Hin. destruct H; confirmed_cases; in_cases Hin;
    inversion Hin; subst; reflexivity.
Qed.

Lemma PlanRun_transfer_throw i rest sigs evs r j pk n e :
  PlanRun env this i rest sigs evs r ->
  In (EvTransferSol j pk n (Throw e)) evs ->
  r = Throw e.
Proof.
  induction 1 as [i sigs | i a rest sigs evs1 o evs2 r Ha Hp IH | i a rest sigs evs1 e0 Ha];
    intros Hin.
  - contradiction.
  - apply in_app_or in Hin as [Hin | Hin]; [| exact (IH Hin)].
    pose proof (@ActionRun_transfer_result _ _ _ _ _ _ _ _ Ha Hin) as Habs. discriminate.
  - pose proof (@ActionRun_transfer_result _ _ _ _ _ _ _ _ Ha Hin) as Heq.
    simpl in Heq. inversion Heq. reflexivity.
Qed.

End SettledFacts.

Section WalletFacts.

Variable W : Type.
Variable Instruction : Type.
Variable systemTransfer : PublicKey -> PublicKey -> Z -> Result Instruction.
Variable conn : Wallet.Connection W Instruction.
Variable payer : Keypair.

(** Above the bound the call settles at once, the world as it was. *)
Lemma transferSol_too_large to lamports opts w :
  Wallet.MAX_SAFE_INTEGER < lamports ->
  Wallet.transferSol systemTransfer conn payer to lamports opts w
  = (w, Throw Wallet.tooLarge).
Proof.
  intros H. unfold Wallet.transferSol.
  replace (Wallet.MAX_SAFE_INTEGER <? lamports) with true
    by (symmetry; apply Z.ltb_lt; exact H).
  reflexivity.
Qed.

(** What stands behind a signature the confirming call returns. *)
Lemma transferSolConfirming_Ok_inv to lamports w w' sig :
  Wallet.transferSolConfirming systemTransfer conn payer to lamports w = (w', Ok sig) ->
  lamports <= Wallet.MAX_SAFE_INTEGER
  /\ exists ix latest w1 w2 v,
       systemTransfer (kp_publicKey payer) to lamports = Ok ix
       /\ Wallet.getLatestBlockhash conn CommitmentConfirmed w = (w1, Ok latest)
       /\ Wallet.sendTransaction conn
            (Wallet.mkTransaction [ix] (Some (kp_publicKey payer))
               (Some (bh_blockhash latest)))
            [payer] CommitmentConfirmed w1 = (w2, Ok sig)
       /\ Wallet.confirmTransaction conn
            (mkConfirmationStrategy sig (bh_blockhash latest)
               (bh_lastValidBlockHeight latest))
            CommitmentConfirmed w2 = (w', Ok v).
Proof.
  unfold Wallet.transferSolConfirming, Wallet.transferSol.
  destruct (Wallet.MAX_SAFE_INTEGER <? lamports) eqn:Hmax; [discriminate |].
  apply Z.ltb_ge in Hmax. unfold ebind, eret.
  cbn [Wallet.commitmentOf tso_commitment tso_confirm].
  destruct (systemTransfer (kp_publicKey payer) to lamports) as [ix | e];
    [| discriminate].
  destruct (Wallet.getLatestBlockhash conn CommitmentConfirmed w)
    as [w1 [latest | e]] eqn:El; [| discriminate].
  destruct (Wallet.sendTransaction conn _ [payer] CommitmentConfirmed w1)
    as [w2 [s | e]] eqn:Es; [| discriminate].
  destruct (Wallet.confirmTransaction conn _ CommitmentConfirmed w2)
    as [w3 [v | e]] eqn:Ec; [| discriminate].
  intros H. inversion H; subst.
  split; [exact Hmax |]. exists ix, latest, w1, w2, v. auto.
Qed.

Variable env : Collaborators W.
Variable this : ClaudeAgent W.

Hypothesis wallet_transfer :
  transferSol env = Wallet.transferSolConfirming systemTransfer conn payer.

(** X22: with the wallet's [transferSol] under it, a run of [execute]
    never moves more than [Number.MAX_SAFE_INTEGER] lamports in one
    transfer, whatever the policy allows: each attempt above the bound
    ended in the wallet's error, and the wallet raises it before any call
    to the connection, the world left as it was. *)
Theorem oversized_transfer_is_refused_unsent
    (plan : AgentPlan) (st st' : State W) (r : Result (list TransactionSignature))
    (evs : list Event) (i : nat) (pk : PublicKey) (n : Z)
    (res : Result TransactionSignature) :
  execute env this plan st = (st', r) ->
  trace st' = (trace st ++ evs)%list ->
  In (EvTransferSol i pk n res) evs ->
  Wallet.MAX_SAFE_INTEGER < n ->
  res = Throw Wallet.tooLarge
  /\ r = Throw Wallet.tooLarge
  /\ forall w, transferSol env pk n w = (w, Throw Wallet.tooLarge).
Proof.
  intros Hrun Ht Hin Hn.
  pose proof (@execute_events_settled _ _ _ _ _ _ _ _ Hrun Ht) as Hs.
  rewrite Forall_forall in Hs. destruct (Hs _ Hin) as (w0 & w0' & Hcall).
  rewrite wallet_transfer in Hcall. unfold Wallet.transferSolConfirming in Hcall.
  rewrite transferSol_too_large in Hcall by exact Hn.
  assert (Hres : res = Throw Wallet.tooLarge) by (inversion Hcall; reflexivity).
  split; [exact Hres |]. split.
  - subst res.
    destruct (@execute_run_validated _ _ _ _ _ _ _ Hrun) as (evs' & Ht' & [(_ & -> & _) | (_ & Hp)]).
    + rewrite Ht in Ht'. apply app_inv_head in Ht'. subst. destruct Hin.
    + rewrite Ht in Ht'. apply app_inv_head in Ht'. subst evs'.
      exact (@PlanRun_transfer_throw _ _ _ _ _ _ _ _ _ _ _ _ Hp Hin).
  - intros w. rewrite wallet_transfer. unfold Wallet.transferSolConfirming.
    apply transferSol_too_large. exact Hn.
Qed.

(** X23: with the wallet's [transferSol] under it, every transfer
    signature of a run of [execute] stands for a transaction that pays from
    the signer, carries the block hash fetched just before, was sent with
    the signer's key and was then confirmed against that same block hash
    and its last valid height, all at the [confirmed] commitment. *)
Theorem signed_transfer_was_sent_and_confirmed
    (plan : AgentPlan) (st st' : State W) (r : Result (list TransactionSignature))
    (evs : list Event) (i : nat) (pk : PublicKey) (n : Z)
    (sig : TransactionSignature) :
  execute env this plan st = (st', r) ->
  trace st' = (trace st ++ evs)%list ->
  In (EvTransferSol i pk n (Ok sig)) evs ->
  n <= Wallet.MAX_SAFE_INTEGER
  /\ exists ix latest w0 w1 w2 w3 v,
       systemTransfer (kp_publicKey payer) pk n = Ok ix
       /\ Wallet.getLatestBlockhash conn CommitmentConfirmed w0 = (w1, Ok latest)
       /\ Wallet.sendTransaction conn
            (Wallet.mkTransaction [ix] (Some (kp_publicKey payer))
               (Some (bh_blockhash latest)))
            [payer] CommitmentConfirmed w1 = (w2, Ok sig)
       /\ Wallet.confirmTransaction conn
            (mkConfirmationStrategy sig (bh_blockhash latest)
               (bh_lastValidBlockHeight latest))
            CommitmentConfirmed w2 = (w3, Ok v).
Proof.
  intros Hrun Ht Hin.
  pose proof (@execute_events_settled _ _ _ _ _ _ _ _ Hrun Ht) as Hs.
  rewrite Forall_forall in Hs. destruct (Hs _ Hin) as (w0 & w0' & Hcall).
  rewrite wallet_transfer in Hcall.
  apply transferSolConfirming_Ok_inv in Hcall
    as (Hmax & ix & latest & w1 & w2 & v & Hix & Hl & Hsend & Hconf).
  split; [exact Hmax |]. exists ix, latest, w0, w1, w2, w0', v. auto.
Qed.

End WalletFacts.

(** A transfer of one lamport more than the bound, with no policy and no
    confirmation callback. *)
Lemma oversized_transfer_is_refused_unsent_witness :
  match trace (fst (execute WalletDemo.env Demo.bare
                      (Demo.plan [TransferSol "alice" "9007199254740992"]) Demo.start))
  with
  | [EvTransferSol _ _ _ res] => res
  | _ => Ok EmptyString
  end = Throw Wallet.tooLarge
  /\ snd (execute WalletDemo.env Demo.bare
            (Demo.plan [TransferSol "alice" "9007199254740992"]) Demo.start)
     = Throw Wallet.tooLarge
  /\ forall w,
       transferSol WalletDemo.env "alice" 9007199254740992 w = (w, Throw Wallet.tooLarge).
Proof.
  apply (@oversized_transfer_is_refused_unsent Demo.W string WalletDemo.systemTransfer
           WalletDemo.conn WalletDemo.payer WalletDemo.env Demo.bare eq_refl
           (Demo.plan [TransferSol "alice" "9007199254740992"]) Demo.start
           (fst (execute WalletDemo.env Demo.bare
                   (Demo.plan [TransferSol "alice" "9007199254740992"]) Demo.start))
           (snd (execute WalletDemo.env Demo.bare
                   (Demo.plan [TransferSol "alice" "9007199254740992"]) Demo.start))
           (trace (fst (execute WalletDemo.env Demo.bare
                          (Demo.plan [TransferSol "alice" "9007199254740992"])
                          Demo.start)))
           0%nat "alice" 9007199254740992).
  - apply surjective_pairing.
  - reflexivity.
  - vm_compute. left. reflexivity.
  - reflexivity.
Defined.

(** A transfer of five lamports on the counting connection. *)
Lemma signed_transfer_was_sent_and_confirmed_witness :
  5 <= Wallet.MAX_SAFE_INTEGER
  /\ exists ix latest w0 w1 w2 w3 v,
       WalletDemo.systemTransfer (kp_publicKey WalletDemo.payer) "alice" 5 = Ok ix
       /\ Wallet.getLatestBlockhash WalletDemo.conn CommitmentConfirmed w0
          = (w1, Ok latest)
       /\ Wallet.sendTransaction WalletDemo.conn
            (Wallet.mkTransaction [ix] (Some (kp_publicKey WalletDemo.payer))
               (Some (bh_blockhash latest)))
            [WalletDemo.payer] CommitmentConfirmed w1 = (w2, Ok "sig0")
       /\ Wallet.confirmTransaction WalletDemo.conn
            (mkConfirmationStrategy "sig0" (bh_blockhash latest)
               (bh_lastValidBlockHeight latest))
            CommitmentConfirmed w2 = (w3, Ok v).
Proof.
  apply (@signed_transfer_was_sent_and_confirmed Demo.W string WalletDemo.systemTransfer
           WalletDemo.conn WalletDemo.payer WalletDemo.env Demo.bare eq_refl
           (Demo.plan [TransferSol "alice" "5"]) Demo.start
           (fst (execute WalletDemo.env Demo.bare
                   (Demo.plan [TransferSol "alice" "5"]) Demo.start))
           (snd (execute WalletDemo.env Demo.bare
                   (Demo.plan [TransferSol "alice" "5"]) Demo.start))
           (trace (fst (execute WalletDemo.env Demo.bare
                          (Demo.plan [TransferSol "alice" "5"]) Demo.start)))
           0%nat "alice" 5 "sig0").
  - apply surjective_pairing.
  - reflexivity.
  - vm_compute. left. reflexivity.
Defined.

(** * An agent without a policy *)

Section NoPolicyClaim.

Variable W : Type.
Variable env : Collaborators W.

(** A turn that completed without having been declined reached the
    ledger, or the aggregator and then the ledger. *)
Lemma ActionRun_done_transfer this i to lamports evs o :
  ActionRun env this i (TransferSol to lamports) evs (Ok o) ->
  ~ In (EvConfirm i (TransferSol to lamports) (Ok false)) evs ->
  exists pk n sig,
    newPublicKey env to = Ok pk
    /\ BigInt lamports = Ok n
    /\ In (EvTransferSol i pk n (Ok sig)) evs.
Proof.
  intros H Hnd. inversion H; subst.
  - exfalso. apply Hnd. left. reflexivity.
  - match goal with
    | Hr : someResult ?r = Ok _ |- _ => destruct r as [sig |]; [| discriminate Hr]
    end.
    exists pk, n, sig. split; [assumption |]. split; [assumption |].
    apply in_or_app. right. left. reflexivity.
  - match goal with Hq : quoteParams _ = Some _ |- _ => discriminate Hq end.
Qed.

Lemma ActionRun_done_swap this i im om am sl md evs o :
  ActionRun env this i (SwapJupiter im om am sl md) evs (Ok o) ->
  ~ In (EvConfirm i (SwapJupiter im om am sl md) (Ok false)) evs ->
  exists q sig,
    In (EvGetJupiterQuote i
          (mkJupiterQuoteParams im om am
             (Some (match sl with Some s => s | None => 50 end)) md) (Ok q)) evs
    /\ In (EvExecuteJupiterSwap i q (Ok sig)) evs.
Proof.
  intros H Hnd. inversion H; subst.
  - exfalso. apply Hnd. left. reflexivity.
  - match goal with
    | Hr : someResult ?r = Ok _ |- _ => destruct r as [sig |]; [| discriminate Hr]
    end.
    match goal with
    | Hq : quoteParams _ = Some _ |- _ => simpl in Hq; inversion Hq; subst
    end.
    exists q, sig. split; apply in_or_app; right; simpl; auto.
Qed.

(** A signature a collaborator handed out is among the signed ones. *)
Lemma In_signedAt (evs : list Event) (i : nat) (sig : TransactionSignature) :
  (exists pk n, In (EvTransferSol i pk n (Ok sig)) evs)
  \/ (exists q, In (EvExecuteJupiterSwap i q (Ok sig)) evs) ->
  In (i, sig) (signedAt evs).
Proof.
  induction evs as [| e evs IH]; intros H.
  - destruct H as [(pk & n & []) | (q & [])].
  - assert (Hrest : (exists pk n, In (EvTransferSol i pk n (Ok sig)) evs)
                    \/ (exists q, In (EvExecuteJupiterSwap i q (Ok sig)) evs)
                    -> In (i, sig) (signedAt (e :: evs))).
    { intros H'. apply IH in H'.
      destruct e as [p r | j a r | j to n [s | err] | j p r | j q [s | err]];
        simpl; auto. }
    destruct H as [(pk & n & [He | Hin]) | (q & [He | Hin])].
    + subst e. left. reflexivity.
    + apply Hrest. left. eauto.
    + subst e. left. reflexivity.
    + apply Hrest. right. eauto.
Qed.

(** In a run that completed every action had its turn, and the turn
    completed. *)
Lemma PlanRun_completed_turn this i rest sigs evs r :
  PlanRun env this i rest sigs evs r ->
  forall sigs', r = Ok sigs' ->
  forall k a, nth_error rest k = Some a ->
  exists evs1 o,
    ActionRun env this (i + k)%nat a evs1 (Ok o)
    /\ (forall e, In e evs1 -> In e evs).
Proof.
  induction 1 as [i sigs | i a0 rest sigs evs1 o evs2 r Ha Hp IH | i a0 rest sigs evs1 e0 Ha];
    intros sigs' Hr k a Hk.
  - destruct k; discriminate.
  - destruct k as [| k]; simpl in Hk.
    + inversion Hk; subst a0. rewrite Nat.add_0_r.
      exists evs1, o. split; [exact Ha |].
      intros e He. apply in_or_app. left. exact He.
    + destruct (IH _ Hr _ _ Hk) as (evs' & o' & Ha' & Hincl).
      rewrite Nat.add_succ_r. exists evs', o'. split; [exact Ha' |].
      intros e He. apply in_or_app. right. apply Hincl. exact He.
  - discriminate.
Qed.

(** Without policy and confirmation, the run of a plan of one transfer
    is the ledger call, and that of a plan of one swap the quote and the
    submission. *)
Lemma execute_single_transfer this plan st to lamports pk n w' r :
  policy this = None ->
  confirm this = None ->
  actions plan = [TransferSol to lamports] ->
  newPublicKey env to = Ok pk ->
  BigInt lamports = Ok n ->
  transferSol env pk n (world st) = (w', r) ->
  execute env this plan st
  = (mkState w' (trace st ++ [EvTransferSol 0 pk n r]),
     match r with Ok sig => Ok [sig] | Throw e => Throw e end).
Proof.
  intros Hpol Hconf Hacts Hpk Hn Hcall.
  unfold execute, validate, bind, lift. rewrite Hpol, Hacts.
  cbn [executeFrom]. unfold bind, executeAction, bind, confirmed, lift, ret, perform.
  rewrite Hconf. cbn [negb]. unfold asPublicKey. rewrite Hpk, Hn, Hcall.
  destruct r; reflexivity.
Qed.

Lemma execute_single_swap this plan st im om am sl md w1 q w2 r :
  policy this = None ->
  confirm this = None ->
  actions plan = [SwapJupiter im om am sl md] ->
  getJupiterQuote env
    (mkJupiterQuoteParams im om am
       (Some (match sl with Some s => s | None => 50 end)) md)
    (jupiter this) (world st) = (w1, Ok q) ->
  executeJupiterSwap env q (jupiter this) w1 = (w2, r) ->
  execute env this plan st
  = (mkState w2
       (trace st
        ++ [EvGetJupiterQuote 0
              (mkJupiterQuoteParams im om am
                 (Some (match sl with Some s => s | None => 50 end)) md) (Ok q);
            EvExecuteJupiterSwap 0 q r]),
     match r with Ok sig => Ok [sig] | Throw e => Throw e end).
Proof.
  intros Hpol Hconf Hacts Hq Hs.
  unfold execute, validate, bind, lift. rewrite Hpol, Hacts.
  cbn [executeFrom]. unfold bind, executeAction, bind, confirmed, lift, ret, perform.
  rewrite Hconf. cbn [negb]. rewrite Hq. cbn [world trace]. rewrite Hs.
  destruct r; rewrite <- ?app_assoc; reflexivity.
Qed.

(** C5: an agent built without a policy validates every plan to the
    empty list, so its [execute] goes straight to the loop over the
    actions, whatever they are.  A run that completes has then carried out
    every action that the confirmation, if there is one, did not decline:
    for each transfer the ledger was called with the key of its recipient
    and its amount, for each swap a quote was asked with its parameters
    and the quote obtained was submitted, each event records what the
    collaborator settled to, and the signatures returned are the ones
    obtained.  On a plan of a single transfer or a single swap, without
    confirmation, the run is exactly the collaborator calls, made on the
    world as it stands.  The same agent with the empty policy instead
    reports a violation for every plan that holds a transfer or a swap,
    and refuses to run it. *)
Theorem no_policy_allows_everything
    (anthropic : option (AnthropicClient W)) (jupiter : option JupiterClientOptions)
    (confirm : option (AgentAction -> Effect W bool)) (plan : AgentPlan) :
  validate (mkClaudeAgent anthropic None jupiter confirm) plan = Ok []
  /\ (forall st,
        execute env (mkClaudeAgent anthropic None jupiter confirm) plan st
        = executeFrom env (mkClaudeAgent anthropic None jupiter confirm)
            0 (actions plan) [] st)
  /\ (forallb amountParses (actions plan) = true ->
      existsb (fun a => negb (isNoop a)) (actions plan) = true ->
      exists vs,
        vs <> []
        /\ validate (mkClaudeAgent anthropic (Some emptyPolicy) jupiter confirm) plan
           = Ok vs
        /\ forall st,
             execute env (mkClaudeAgent anthropic (Some emptyPolicy) jupiter confirm)
               plan st
             = (st, Throw (Error (violationMessage vs))))
  /\ (forall st st' sigs,
        execute env (mkClaudeAgent anthropic None jupiter None) plan st = (st', Ok sigs) ->
        List.length sigs
        = List.length (filter (fun a => negb (isNoop a)) (actions plan)))
  /\ (forall st st' sigs evs,
        execute env (mkClaudeAgent anthropic None jupiter confirm) plan st
        = (st', Ok sigs) ->
        trace st' = (trace st ++ evs)%list ->
        sigs = map snd (signedAt evs)
        /\ Forall (settledBy env (mkClaudeAgent anthropic None jupiter confirm)) evs
        /\ (forall i to lamports,
              nth_error (actions plan) i = Some (TransferSol to lamports) ->
              confirm = None
              \/ ~ In (EvConfirm i (TransferSol to lamports) (Ok false)) evs ->
              exists pk n sig,
                newPublicKey env to = Ok pk
                /\ BigInt lamports = Ok n
                /\ In (EvTransferSol i pk n (Ok sig)) evs
                /\ In sig sigs)
        /\ (forall i im om am sl md,
              nth_error (actions plan) i = Some (SwapJupiter im om am sl md) ->
              confirm = None
              \/ ~ In (EvConfirm i (SwapJupiter im om am sl md) (Ok false)) evs ->
              exists q sig,
                In (EvGetJupiterQuote i
                      (mkJupiterQuoteParams im om am
                         (Some (match sl with Some s => s | None => 50 end)) md)
                      (Ok q)) evs
                /\ In (EvExecuteJupiterSwap i q (Ok sig)) evs
                /\ In sig sigs))
  /\ (forall st to lamports pk n w' r,
        actions plan = [TransferSol to lamports] ->
        newPublicKey env to = Ok pk ->
        BigInt lamports = Ok n ->
        transferSol env pk n (world st) = (w', r) ->
        execute env (mkClaudeAgent anthropic None jupiter None) plan st
        = (mkState w' (trace st ++ [EvTransferSol 0 pk n r]),
           match r with Ok sig => Ok [sig] | Throw e => Throw e end))
  /\ (forall st im om am sl md w1 q w2 r,
        actions plan = [SwapJupiter im om am sl md] ->
        getJupiterQuote env
          (mkJupiterQuoteParams im om am
             (Some (match sl with Some s => s | None => 50 end)) md)
          jupiter (world st) = (w1, Ok q) ->
        executeJupiterSwap env q jupiter w1 = (w2, r) ->
        execute env (mkClaudeAgent anthropic None jupiter None) plan st
        = (mkState w2
             (trace st
              ++ [EvGetJupiterQuote 0
                    (mkJupiterQuoteParams im om am
                       (Some (match sl with Some s => s | None => 50 end)) md) (Ok q);
                  EvExecuteJupiterSwap 0 q r]),
           match r with Ok sig => Ok [sig] | Throw e => Throw e end)).
Proof.
  split; [reflexivity |]. split; [reflexivity |].
  split; [| split; [| split; [| split]]].
  - intros Hparse Hex.
    destruct (validateFrom_returns emptyPolicy (actions plan) 0 [] Hparse) as [vs Hvs].
    assert (Hne : vs <> []).
    { apply existsb_exists in Hex as (a & Hin & Ha).
      apply In_nth_error in Hin as [k Hk].
      destruct (validateFrom_nth _ _ _ _ _ Hvs Hk) as (va & Hva & Hincl).
      destruct a as [reason | to lamports | im om am sl md]; [discriminate | |];
        simpl in Hva.
      - destruct (BigInt lamports); [| discriminate]. inversion Hva; subst va.
        intros ->. apply (Hincl _ (or_introl eq_refl)).
      - destruct (BigInt am); [| discriminate]. inversion Hva; subst va.
        intros ->. apply (Hincl _ (or_introl eq_refl)). }
    exists vs. split; [exact Hne |]. split; [exact Hvs |].
    intros st. apply execute_on_violations; assumption.
  - intros st st' sigs Hex.
    change (execute env (mkClaudeAgent anthropic None jupiter None) plan st)
      with (executeFrom env (mkClaudeAgent anthropic None jupiter None)
              0 (actions plan) [] st) in Hex.
    destruct (executeFrom_run _ _ _ _ _ _ Hex) as (evs & _ & Hrun).
    apply (PlanRun_default_count (this := mkClaudeAgent anthropic None jupiter None)
             eq_refl Hrun eq_refl).
  - intros st st' sigs evs Hex Ht.
    set (this := mkClaudeAgent anthropic None jupiter confirm) in *.
    pose proof (@execute_events_settled _ env this _ _ _ _ _ Hex Ht) as Hsettled.
    change (execute env this plan st)
      with (executeFrom env this 0 (actions plan) [] st) in Hex.
    destruct (executeFrom_run _ _ _ _ _ _ Hex) as (evs' & Ht' & Hrun).
    rewrite Ht in Ht'. apply app_inv_head in Ht'. subst evs'.
    pose proof (PlanRun_signed Hrun eq_refl) as Hsigs. simpl in Hsigs.
    assert (Hnd : forall i a,
              confirm = None \/ ~ In (EvConfirm i a (Ok false)) evs ->
              ~ In (EvConfirm i a (Ok false)) evs).
    { intros i a [Hc | Hn]; [| exact Hn].
      apply (PlanRun_no_confirm (this := this) Hc Hrun). }
    split; [exact Hsigs |]. split; [exact Hsettled |]. split.
    + intros i to lamports Hk Hc.
      destruct (PlanRun_completed_turn Hrun eq_refl _ Hk) as (evs1 & o & Ha & Hincl).
      simpl in Ha.
      destruct (@ActionRun_done_transfer this i to lamports evs1 o Ha)
        as (pk & n & sig & Hpk & Hn & Hin).
      { intros Hd. apply (Hnd _ _ Hc). apply Hincl. exact Hd. }
      exists pk, n, sig. split; [exact Hpk |]. split; [exact Hn |].
      split; [apply Hincl; exact Hin |].
      rewrite Hsigs. apply in_map_iff. exists (i, sig). split; [reflexivity |].
      apply In_signedAt. left. exists pk, n. apply Hincl. exact Hin.
    + intros i im om am sl md Hk Hc.
      destruct (PlanRun_completed_turn Hrun eq_refl _ Hk) as (evs1 & o & Ha & Hincl).
      simpl in Ha.
      destruct (@ActionRun_done_swap this i im om am sl md evs1 o Ha)
        as (q & sig & Hq & Hs).
      { intros Hd. apply (Hnd _ _ Hc). apply Hincl. exact Hd. }
      exists q, sig. split; [apply Hincl; exact Hq |].
      split; [apply Hincl; exact Hs |].
      rewrite Hsigs. apply in_map_iff. exists (i, sig). split; [reflexivity |].
      apply In_signedAt. right. exists q. apply Hincl. exact Hs.
  - intros st to lamports pk n w' r Hacts Hpk Hn Hcall.
    apply execute_single_transfer with (to := to) (lamports := lamports);
      auto.
  - intros st im om am sl md w1 q w2 r Hacts Hq Hs.
    apply execute_single_swap with (w1 := w1); auto.
Qed.

End NoPolicyClaim.

(** A recipient no allowlist names, after a no-op, on the counting
    ledger: the transfer is made and its signature returned. *)
Lemma no_policy_allows_everything_witness :
  exists pk n sig,
    newPublicKey Demo.env "mallory" = Ok pk
    /\ BigInt "7" = Ok n
    /\ In (EvTransferSol 1 pk n (Ok sig))
          (trace (fst (execute Demo.env Demo.bare
                         (Demo.plan [Noop None; TransferSol "mallory" "7"]) Demo.start)))
    /\ In sig ["sig0"].
Proof.
  destruct (@no_policy_allows_everything Demo.W Demo.env None None None
              (Demo.plan [Noop None; TransferSol "mallory" "7"]))
    as (_ & _ & _ & _ & Hrun & _).
  destruct (Hrun Demo.start
              (fst (execute Demo.env Demo.bare
                      (Demo.plan [Noop None; TransferSol "mallory" "7"]) Demo.start))
              ["sig0"]
              (trace (fst (execute Demo.env Demo.bare
                             (Demo.plan [Noop None; TransferSol "mallory" "7"])
                             Demo.start)))
              eq_refl eq_refl)
    as (_ & _ & Htransfer & _).
  apply (Htransfer 1%nat "mallory" "7" eq_refl (or_introl eq_refl)).
Defined.
